(** * Traffic congestion core: tracks, speed estimation, congestion scoring

    A shallow embedding of the Python modules
    [utils/tracking.py], [utils/speed_estimation.py] and [utils/metrics.py]
    of the traffic-congestion package, followed by the properties proved
    about them.

    Modelling conventions.
    - Python [float] values are modelled as real numbers ([R]): rounding,
      infinities and NaN are outside the model.  Python [int] values are
      [Z], and counts that start at zero and only grow are [nat].
    - An exception is a value of [exn]; a call that can raise returns a
      [result].  True division by zero raises [ZeroDivisionError], as it
      does on Python numbers (a numpy scalar would give inf or nan with a
      warning instead; the properties below that depend on a division
      state when its divisor is non-zero).
    - [collections.deque(maxlen=n)] is [Deque.t]: a list, oldest element
      first, together with its bound.
    - A [dict] keyed by track id is a [gmap Z _]; the set of detected ids
      is a [gset Z].  Python iterates a dict in insertion order, the model
      iterates in the order of [map_to_list]; nothing proved below depends
      on that order. *)

From Stdlib Require Import Reals Lra Lia ZArith List String Bool.
From stdpp Require Import gmap.
Import ListNotations.

(** ** Python runtime: exceptions, division, numpy helpers *)

Module Py.

Inductive exn : Set :=
| ZeroDivisionError
| ValueError
| KeyError.

Inductive result (A : Type) : Type :=
| Ok (a : A)
| Raise (e : exn).
Arguments Ok {A} _.
Arguments Raise {A} _.

Definition bind {A B : Type} (m : result A) (k : A -> result B) : result B :=
  match m with
  | Ok a => k a
  | Raise e => Raise e
  end.

Definition succeeds {A : Type} (m : result A) : Prop :=
  match m with Ok _ => True | Raise _ => False end.

#[global] Instance Rlt_decision (x y : R) : Decision (x < y)%R := Rlt_dec x y.
#[global] Instance Rle_decision (x y : R) : Decision (x <= y)%R := Rle_dec x y.
#[global] Instance Rgt_decision (x y : R) : Decision (x > y)%R := Rgt_dec x y.
#[global] Instance Rge_decision (x y : R) : Decision (x >= y)%R := Rge_dec x y.
#[global] Instance Req_decision : EqDecision R := Req_dec_T.

(** [a / b] on floats (or on ints, which Python 3 divides as floats). *)
Definition truediv (a b : R) : result R :=
  if decide (b = 0%R) then Raise ZeroDivisionError else Ok (a / b)%R.

(** [sum(xs)]: starts from 0 and adds from the left. *)
Definition sum (xs : list R) : R := fold_left Rplus xs 0%R.

(** [np.mean(xs)].  On an empty sequence numpy returns nan (with a
    warning); the model has no nan and gives [0 / 0] there. *)
Definition np_mean (xs : list R) : R := (sum xs / INR (length xs))%R.

(** [np.std(xs)]: population standard deviation (ddof = 0). *)
Definition np_std (xs : list R) : R :=
  sqrt (np_mean (map (fun x => (x - np_mean xs) ^ 2) xs))%R.

(** [np.isclose(a, b)] with the default [rtol=1e-05], [atol=1e-08]:
    [|a - b| <= atol + rtol * |b|]. *)
Definition rtol : R := (1 / 100000)%R.
Definition atol : R := (1 / 100000000)%R.
Definition np_isclose (a b : R) : bool :=
  bool_decide (Rabs (a - b) <= atol + rtol * Rabs b)%R.

End Py.

Import Py.

#[global] Instance result_ret : MRet Py.result := @Py.Ok.
#[global] Instance result_bind : MBind Py.result :=
  fun A B k m => Py.bind m k.

(** ** [collections.deque] with a bound *)

Module Deque.

Record t (A : Type) : Type := mk { items : list A; maxlen : nat }.
Arguments mk {A} _ _.
Arguments items {A} _.
Arguments maxlen {A} _.

(** [deque(maxlen=n)] *)
Definition empty {A : Type} (n : nat) : t A := mk [] n.

Definition len {A : Type} (d : t A) : nat := length (items d).

(** [d.append(x)]: add on the right, then drop the leftmost element when
    the bound is exceeded (so a deque of bound 0 stays empty). *)
Definition append {A : Type} (d : t A) (x : A) : t A :=
  let l := items d ++ [x] in
  mk (if (maxlen d <? length l)%nat then tl l else l) (maxlen d).

(** [d.clear()] *)
Definition clear {A : Type} (d : t A) : t A := mk [] (maxlen d).

(** The last [n] elements of a list: what a deque of bound [n] retains. *)
Definition lastn {A : Type} (n : nat) (l : list A) : list A :=
  skipn (length l - n) l.

(** [d[-1]] guarded by [if d], as the getters of the tracks use it. *)
Definition last_opt {A : Type} (d : t A) : option A := last (items d).

End Deque.

(** ** [tracking.py]: one vehicle track *)

(** A bounding box [[x1, y1, x2, y2]]. *)
Record BBox : Type := mkBBox { bx1 : R; by1 : R; bx2 : R; by2 : R }.

Module VehicleTrack.

Record t : Type := mk {
  track_id : Z;
  max_history : nat;
  centroids : Deque.t (R * R);
  bboxes : Deque.t BBox;
  frame_indices : Deque.t Z;
  speeds_px : Deque.t R;
  speeds_real : Deque.t R;
  class_id : option Z;
  class_name : option string;
  first_frame : option Z;
  last_frame : option Z;
  total_frames : nat;
  is_active : bool
}.

(** [VehicleTrack.__init__] *)
Definition init (track_id : Z) (max_history : nat) : t :=
  mk track_id max_history
     (Deque.empty max_history) (Deque.empty max_history)
     (Deque.empty max_history) (Deque.empty max_history)
     (Deque.empty max_history)
     None None None None 0 true.

Definition compute_centroid (bbox : BBox) : R * R :=
  ((bx1 bbox + bx2 bbox) / 2, (by1 bbox + by2 bbox) / 2)%R.

Definition compute_bbox_area (bbox : BBox) : R :=
  ((bx2 bbox - bx1 bbox) * (by2 bbox - by1 bbox))%R.

(** Distance between [centroids[-2]] and [centroids[-1]]. *)
Definition compute_speed_pixels (self : t) : R :=
  match rev (Deque.items (centroids self)) with
  | (x2, y2) :: (x1, y1) :: _ => sqrt ((x2 - x1) ^ 2 + (y2 - y1) ^ 2)%R
  | _ => 0%R
  end.

Definition or_keep {A : Type} (new old : option A) : option A :=
  match new with Some a => Some a | None => old end.

(** [VehicleTrack.update] *)
Definition update (self : t) (bbox : BBox) (frame_idx : Z)
    (cid : option Z) (cname : option string) : t :=
  let centroid := compute_centroid bbox in
  let self1 :=
    mk (track_id self) (max_history self)
       (Deque.append (centroids self) centroid)
       (Deque.append (bboxes self) bbox)
       (Deque.append (frame_indices self) frame_idx)
       (speeds_px self) (speeds_real self)
       (or_keep cid (class_id self))
       (or_keep cname (class_name self))
       (match first_frame self with None => Some frame_idx | Some f => Some f end)
       (Some frame_idx)
       (S (total_frames self))
       (is_active self) in
  if (2 <=? Deque.len (centroids self1))%nat then
    mk (track_id self1) (max_history self1)
       (centroids self1) (bboxes self1) (frame_indices self1)
       (Deque.append (speeds_px self1) (compute_speed_pixels self1))
       (speeds_real self1)
       (class_id self1) (class_name self1)
       (first_frame self1) (last_frame self1)
       (total_frames self1) (is_active self1)
  else self1.

(** [list(self.speeds_px)[-window:]].  Python reads [[-0:]] as the whole
    list. *)
Definition recent {A : Type} (window : nat) (l : list A) : list A :=
  match window with
  | O => l
  | _ => skipn (length l - window) l
  end.

Definition get_average_speed_pixels (self : t) (window : nat) : R :=
  match Deque.items (speeds_px self) with
  | [] => 0%R
  | l => np_mean (recent window l)
  end.

(** [is_stopped(threshold, window=5)] *)
Definition is_stopped (self : t) (threshold : R) (window : nat) : bool :=
  bool_decide (get_average_speed_pixels self window < threshold)%R.

Definition get_current_bbox (self : t) : option BBox :=
  Deque.last_opt (bboxes self).

Definition get_current_centroid (self : t) : option (R * R) :=
  Deque.last_opt (centroids self).

(** One detection delivered to a track. *)
Record observation : Type := mkObs {
  obs_bbox : BBox;
  obs_frame : Z;
  obs_class_id : option Z;
  obs_class_name : option string
}.

Definition observe (self : t) (o : observation) : t :=
  update self (obs_bbox o) (obs_frame o) (obs_class_id o) (obs_class_name o).

(** The track after it was created and then updated once per observation. *)
Definition after_updates (track_id : Z) (max_history : nat)
    (obs : list observation) : t :=
  fold_left observe obs (init track_id max_history).

(** Euclidean distance between two centroids, as [compute_speed_pixels]
    and [get_trajectory_length] compute it. *)
Definition distance (p q : R * R) : R :=
  sqrt ((fst q - fst p) ^ 2 + (snd q - snd p) ^ 2)%R.

(** [get_smoothed_speed_pixels(alpha)]: exponential smoothing over the
    stored speeds, oldest first. *)
Definition get_smoothed_speed_pixels (self : t) (alpha : R) : R :=
  match Deque.items (speeds_px self) with
  | [] => 0%R
  | first :: rest =>
      fold_left (fun smoothed speed => alpha * speed + (1 - alpha) * smoothed)%R
                rest first
  end.

(** The pairs [(centroids[i-1], centroids[i])] for [i] from 1. *)
Fixpoint segments {A : Type} (l : list A) : list (A * A) :=
  match l with
  | a :: (b :: _) as rest => (a, b) :: segments rest
  | _ => []
  end.

(** [get_trajectory_length] *)
Definition get_trajectory_length (self : t) : R :=
  if (Deque.len (centroids self) <? 2)%nat then 0%R
  else
    fold_left (fun total_distance seg =>
                 total_distance + distance (fst seg) (snd seg))%R
              (segments (Deque.items (centroids self))) 0%R.

(** What [n] updates leave behind in a track of bound [cap]. *)
Definition history_shape (cap n : nat) (self : t) : Prop :=
  Deque.maxlen (centroids self) = cap /\
  Deque.maxlen (speeds_px self) = cap /\
  Deque.len (centroids self) = Nat.min n cap /\
  Deque.len (speeds_px self) =
    (if (cap <? 2)%nat then 0 else Nat.min (n - 1) cap)%nat.

End VehicleTrack.

(** ** [tracking.py]: the track manager *)

Module TrackManager.

(** A detection [(track_id, bbox, class_id, class_name)]. *)
Record detection : Type := mkDet {
  det_id : Z;
  det_bbox : BBox;
  det_class_id : option Z;
  det_class_name : option string
}.

Record t : Type := mk {
  max_age : nat;
  max_history : nat;
  tracks : gmap Z VehicleTrack.t;
  track_ages : gmap Z nat;
  completed_tracks : list VehicleTrack.t;
  total_tracks_created : nat;
  total_tracks_completed : nat
}.

(** [TrackManager.__init__] *)
Definition init (max_age max_history : nat) : t :=
  mk max_age max_history ∅ ∅ [] 0 0.

(** [track.is_active = False] *)
Definition deactivate (track : VehicleTrack.t) : VehicleTrack.t :=
  VehicleTrack.mk
    (VehicleTrack.track_id track) (VehicleTrack.max_history track)
    (VehicleTrack.centroids track) (VehicleTrack.bboxes track)
    (VehicleTrack.frame_indices track)
    (VehicleTrack.speeds_px track) (VehicleTrack.speeds_real track)
    (VehicleTrack.class_id track) (VehicleTrack.class_name track)
    (VehicleTrack.first_frame track) (VehicleTrack.last_frame track)
    (VehicleTrack.total_frames track) false.

(** [TrackManager.remove_track].  [del self.track_ages[track_id]] raises
    [KeyError] when the id has no age entry; the exception ends the run,
    and the half-updated manager it leaves behind is not modelled. *)
Definition remove_track (self : t) (track_id : Z) : result t :=
  match tracks self !! track_id with
  | Some track =>
      match track_ages self !! track_id with
      | Some _ =>
          Ok (mk (max_age self) (max_history self)
                 (delete track_id (tracks self))
                 (delete track_id (track_ages self))
                 (completed_tracks self ++ [deactivate track])
                 (total_tracks_created self)
                 (S (total_tracks_completed self)))
      | None => Raise KeyError
      end
  | None => Ok self
  end.

(** [for track_id in ids: self.remove_track(track_id)] *)
Fixpoint remove_tracks (self : t) (ids : list Z) : result t :=
  match ids with
  | [] => Ok self
  | track_id :: ids' =>
      self' ← remove_track self track_id; remove_tracks self' ids'
  end.

(** [list(self.tracks.keys())] *)
Definition keys (self : t) : list Z := (map_to_list (tracks self)).*1.

(** Body of the first loop of [update]: create the track when the id is
    new, update it, and reset its age. *)
Definition detect (frame_idx : Z) (acc : t * gset Z) (d : detection)
    : t * gset Z :=
  let '(self, detected_ids) := acc in
  let track_id := det_id d in
  let '(track, created) :=
    match tracks self !! track_id with
    | Some track => (track, total_tracks_created self)
    | None => (VehicleTrack.init track_id (max_history self),
               S (total_tracks_created self))
    end in
  let track' :=
    VehicleTrack.update track (det_bbox d) frame_idx
      (det_class_id d) (det_class_name d) in
  (mk (max_age self) (max_history self)
      (<[track_id := track']> (tracks self))
      (<[track_id := 0]> (track_ages self))
      (completed_tracks self)
      created
      (total_tracks_completed self),
   {[track_id]} ∪ detected_ids).

(** Body of the second loop of [update]: age a track that was not
    detected and list it for removal once it is older than [max_age]. *)
Definition age_one (detected_ids : gset Z) (max_age : nat)
    (acc : gmap Z nat * list Z) (track_id : Z) : gmap Z nat * list Z :=
  let '(ages, tracks_to_remove) := acc in
  if decide (track_id ∈ detected_ids) then acc
  else
    let age := S (default 0 (ages !! track_id)) in
    (<[track_id := age]> ages,
     if (max_age <? age)%nat then tracks_to_remove ++ [track_id]
     else tracks_to_remove).

(** [TrackManager.update] *)
Definition update (self : t) (detections : list detection) (frame_idx : Z)
    : result t :=
  let '(self1, detected_ids) :=
    fold_left (detect frame_idx) detections (self, ∅) in
  let '(ages, tracks_to_remove) :=
    fold_left (age_one detected_ids (max_age self1)) (keys self1)
              (track_ages self1, []) in
  remove_tracks
    (mk (max_age self1) (max_history self1) (tracks self1) ages
        (completed_tracks self1) (total_tracks_created self1)
        (total_tracks_completed self1))
    tracks_to_remove.

(** [TrackManager.get_active_tracks] *)
Definition get_active_tracks (self : t) : list VehicleTrack.t :=
  (map_to_list (tracks self)).*2.

(** [TrackManager.get_track] *)
Definition get_track (self : t) (track_id : Z) : option VehicleTrack.t :=
  tracks self !! track_id.

(** [TrackManager.clear] *)
Definition clear (self : t) : result t := remove_tracks self (keys self).

(** [TrackManager.get_active_count] *)
Definition get_active_count (self : t) : nat := size (tracks self).

(** [TrackManager.get_stopped_count(threshold)]; [is_stopped] is called
    with its default window of 5. *)
Definition get_stopped_count (self : t) (threshold : R) : nat :=
  length (filter (fun track => VehicleTrack.is_stopped track threshold 5)
                 (get_active_tracks self)).

(** [TrackManager.get_average_speed]; [get_average_speed_pixels] is called
    with its default window of 10. *)
Definition get_average_speed (self : t) : R :=
  match get_active_tracks self with
  | [] => 0%R
  | active =>
      np_mean (map (fun track => VehicleTrack.get_average_speed_pixels track 10)
                   active)
  end.

(** [TrackManager.get_statistics] *)
Record statistics : Type := mkStats {
  active_tracks : nat;
  total_created : nat;
  total_completed : nat;
  stopped_vehicles : nat;
  average_speed_px : R
}.

Definition get_statistics (self : t) : statistics :=
  mkStats (get_active_count self) (total_tracks_created self)
          (total_tracks_completed self) (get_stopped_count self 2)
          (get_average_speed self).

(** The calls a client can make on a manager. *)
Inductive op : Type :=
| Update (detections : list detection) (frame_idx : Z)
| RemoveTrack (track_id : Z)
| Clear.

Definition run_op (self : t) (o : op) : result t :=
  match o with
  | Update detections frame_idx => update self detections frame_idx
  | RemoveTrack track_id => remove_track self track_id
  | Clear => clear self
  end.

Fixpoint run_ops (self : t) (ops : list op) : result t :=
  match ops with
  | [] => Ok self
  | o :: ops' => self' ← run_op self o; run_ops self' ops'
  end.

(** A run of [update] calls, one per frame. *)
Fixpoint updates (self : t) (frames : list (list detection * Z)) : result t :=
  match frames with
  | [] => Ok self
  | (detections, frame_idx) :: frames' =>
      self' ← update self detections frame_idx; updates self' frames'
  end.

(** The frame does not mention [track_id]. *)
Definition misses (track_id : Z) (frame : list detection * Z) : Prop :=
  Forall (fun d => det_id d <> track_id) (fst frame).

(** Every tracked id has an age and every age belongs to a tracked id. *)
Definition same_keys (self : t) : Prop :=
  dom (track_ages self) = dom (tracks self).

(** Every active track is stored under its own id, is marked active, has
    the history bound of the manager and only non-negative speeds. *)
Definition tracks_ok (self : t) : Prop :=
  forall k track,
    tracks self !! k = Some track ->
    VehicleTrack.track_id track = k /\
    VehicleTrack.is_active track = true /\
    VehicleTrack.max_history track = max_history self /\
    Forall (fun speed => 0 <= speed)%R
           (Deque.items (VehicleTrack.speeds_px track)).

(** No age is above [max_age]. *)
Definition ages_ok (self : t) : Prop :=
  forall k age, track_ages self !! k = Some age -> (age <= max_age self)%nat.

(** Every archived track is marked inactive, and the archive has one entry
    per completed track. *)
Definition archive_ok (self : t) : Prop :=
  Forall (fun track => VehicleTrack.is_active track = false)
         (completed_tracks self) /\
  length (completed_tracks self) = total_tracks_completed self.

(** Every track ever created is either active or completed. *)
Definition count_ok (self : t) : Prop :=
  total_tracks_created self
  = (get_active_count self + total_tracks_completed self)%nat.

(** The invariants of the maps, the archive and the counters together. *)
Definition consistent (self : t) : Prop :=
  same_keys self /\ tracks_ok self /\ archive_ok self /\ count_ok self.

End TrackManager.

(** ** [speed_estimation.py] *)

Module SpeedEstimator.

Record t : Type := mk { fps : R; frame_time : R }.

(** [SpeedEstimator.__init__]: [self.frame_time = 1.0 / fps]. *)
Definition init (fps : R) : result t :=
  frame_time ← truediv 1 fps; mret (mk fps frame_time).

End SpeedEstimator.

Module PixelSpeedEstimator.

Record t : Type := mk { base : SpeedEstimator.t; pixels_per_meter : R }.

(** [PixelSpeedEstimator.__init__] *)
Definition init (fps pixels_per_meter : R) : result t :=
  base ← SpeedEstimator.init fps; mret (mk base pixels_per_meter).

(** The number handed to [pixels_to_speed]: a built-in [float], or a
    NumPy [float64] such as [np.mean] returns and [compute_speeds] passes
    on. *)
Inductive number : Type :=
| PyFloat (x : R)
| NpFloat64 (x : R).

(** What [pixels_to_speed] returns: a finite speed in km/h, or one of
    [inf], [-inf] and [nan]. *)
Inductive speed : Type :=
| Speed (km_per_hour : R)
| InfOrNan.

(** [PixelSpeedEstimator.pixels_to_speed]: pixels/frame to km/h.
    [pixels_per_meter] is a built-in float, as the constructor's default
    and the command line give it.  Dividing a built-in float by zero
    raises [ZeroDivisionError]; dividing a NumPy [float64] by zero gives
    [inf], [-inf] or [nan] with a warning, and the two products that follow
    keep the value non-finite. *)
Definition pixels_to_speed (self : t) (pixels_per_frame : number)
    : result speed :=
  match pixels_per_frame with
  | PyFloat x =>
      meters_per_frame ← truediv x (pixels_per_meter self);
      let meters_per_second :=
        (meters_per_frame * SpeedEstimator.fps (base self))%R in
      mret (Speed (meters_per_second * (36 / 10)))
  | NpFloat64 x =>
      if decide (pixels_per_meter self = 0%R) then mret InfOrNan
      else
        let meters_per_frame := (x / pixels_per_meter self)%R in
        let meters_per_second :=
          (meters_per_frame * SpeedEstimator.fps (base self))%R in
        mret (Speed (meters_per_second * (36 / 10)))
  end.

(** [PixelSpeedEstimator.calibrate] *)
Definition calibrate (self : t) (known_distance_pixels known_distance_meters : R)
    : result t :=
  ppm ← truediv known_distance_pixels known_distance_meters;
  mret (mk (base self) ppm).

End PixelSpeedEstimator.

Module HomographySpeedEstimator.

Section WithOpenCV.

(** [cv2.findHomography(image_points, world_points, cv2.RANSAC)] is
    external; it is a parameter here.  It may raise, and it may return no
    matrix. *)
Context {Matrix : Type}.
Variable findHomography : list (R * R) -> list (R * R) -> result (option Matrix).

Record t : Type := mk {
  base : SpeedEstimator.t;
  homography_matrix : option Matrix
}.

(** [HomographySpeedEstimator.compute_homography] *)
Definition compute_homography (self : t) (image_points world_points : list (R * R))
    : result t :=
  h ← findHomography image_points world_points; mret (mk (base self) h).

(** [HomographySpeedEstimator.__init__] *)
Definition init (fps : R) (image_points world_points : option (list (R * R)))
    : result t :=
  base ← SpeedEstimator.init fps;
  let self := mk base None in
  match image_points, world_points with
  | Some ip, Some wp => compute_homography self ip wp
  | _, _ => mret self
  end.

End WithOpenCV.

Arguments t : clear implicits.
Arguments mk {Matrix} _ _.
Arguments base {Matrix} _.
Arguments homography_matrix {Matrix} _.

Section WithTransform.

(** [cv2.perspectiveTransform(point, homography_matrix)] on a single
    point is external; it is a parameter here. *)
Context {Matrix : Type}.
Variable perspectiveTransform : Matrix -> R * R -> R * R.

(** [HomographySpeedEstimator.image_to_world] *)
Definition image_to_world (self : t Matrix) (image_point : R * R)
    : result (R * R) :=
  match homography_matrix self with
  | None => Raise ValueError
  | Some h => mret (perspectiveTransform h image_point)
  end.

(** [HomographySpeedEstimator.compute_world_distance] *)
Definition compute_world_distance (self : t Matrix) (point1 point2 : R * R)
    : result R :=
  world1 ← image_to_world self point1;
  world2 ← image_to_world self point2;
  mret (sqrt ((fst world2 - fst world1) ^ 2 + (snd world2 - snd world1) ^ 2))%R.

(** [HomographySpeedEstimator.pixels_to_speed] *)
Definition pixels_to_speed (self : t Matrix) (centroid1 centroid2 : R * R)
    : result R :=
  distance_meters ← compute_world_distance self centroid1 centroid2;
  let distance_per_second :=
    (distance_meters * SpeedEstimator.fps (base self))%R in
  mret (distance_per_second * (36 / 10))%R.

End WithTransform.

End HomographySpeedEstimator.

Module SpeedSmoother.

Record t : Type := mk {
  window_size : nat;
  outlier_threshold : R;
  speed_history : Deque.t R
}.

(** [SpeedSmoother.__init__]; the defaults are [window_size=5],
    [outlier_threshold=3.0]. *)
Definition init (window_size : nat) (outlier_threshold : R) : t :=
  mk window_size outlier_threshold (Deque.empty window_size).

(** The value that [add_speed] appends for a raw measurement: the window
    mean when the z-score gate fires, the raw measurement otherwise. *)
Definition gated (self : t) (speed : R) : R :=
  let history := Deque.items (speed_history self) in
  if (2 <? length history)%nat then
    let mean := np_mean history in
    let std := np_std history in
    if decide (std > 0)%R then
      let z_score := Rabs ((speed - mean) / std) in
      if decide (z_score > outlier_threshold self)%R then mean else speed
    else speed
  else speed.

(** [SpeedSmoother.add_speed]: the smoothed value and the new state. *)
Definition add_speed (self : t) (speed : R) : R * t :=
  let history := Deque.append (speed_history self) (gated self speed) in
  (np_mean (Deque.items history),
   mk (window_size self) (outlier_threshold self) history).

(** [SpeedSmoother.reset] *)
Definition reset (self : t) : t :=
  mk (window_size self) (outlier_threshold self)
     (Deque.clear (speed_history self)).

(** The smoothed values and the smoother after feeding it the raw
    measurements one by one. *)
Fixpoint add_speeds (self : t) (speeds : list R) : list R * t :=
  match speeds with
  | [] => ([], self)
  | speed :: speeds' =>
      let '(smoothed, self1) := add_speed self speed in
      let '(rest, self2) := add_speeds self1 speeds' in
      (smoothed :: rest, self2)
  end.

(** A smoother whose window currently holds [samples]. *)
Definition holding (window_size : nat) (outlier_threshold : R)
    (samples : list R) : t :=
  mk window_size outlier_threshold (Deque.mk samples window_size).

End SpeedSmoother.

(** ** [metrics.py] *)

Inductive CongestionLevel : Set :=
| FREE_FLOW
| LIGHT
| MODERATE
| HEAVY
| TRAFFIC_JAM.

(** The integer value of a level of the [Enum]. *)
Definition level_value (level : CongestionLevel) : Z :=
  match level with
  | FREE_FLOW => 0
  | LIGHT => 1
  | MODERATE => 2
  | HEAVY => 3
  | TRAFFIC_JAM => 4
  end.

Module CongestionMetrics.

Record t : Type := mk {
  vehicle_count : nat;
  occupancy_ratio : R;
  average_speed : R;
  stopped_count : nat;
  flow_rate : R;
  queue_length : R;
  density_score : R;
  speed_score : R;
  flow_score : R;
  congestion_score : R;
  congestion_level : CongestionLevel;
  frame_idx : Z;
  timestamp : R;
  roi_area : R
}.

End CongestionMetrics.

Module CongestionDetector.

(** The [thresholds] dict, in insertion order: [classify_congestion]
    returns at the first band that matches. *)
Definition bands : Type := list (CongestionLevel * (R * R)).

Record t : Type := mk {
  roi_area : R;
  max_vehicles : Z;
  max_speed : R;
  stopped_threshold : R;
  density_weight : R;
  speed_weight : R;
  flow_weight : R;
  queue_weight : R;
  vehicle_entry_count : nat;
  flow_window_frames : nat;
  flow_window_duration : R;
  thresholds : bands
}.

Definition default_thresholds : bands :=
  [ (FREE_FLOW, (0, 2 / 10));
    (LIGHT, (2 / 10, 4 / 10));
    (MODERATE, (4 / 10, 6 / 10));
    (HEAVY, (6 / 10, 8 / 10));
    (TRAFFIC_JAM, (8 / 10, 1)) ]%R.

(** [CongestionDetector.__init__] *)
Definition init (roi_area : R) (max_vehicles : Z) (max_speed stopped_threshold
    density_weight speed_weight flow_weight queue_weight : R) : result t :=
  let total_weight :=
    Py.sum [density_weight; speed_weight; flow_weight; queue_weight] in
  if negb (np_isclose total_weight 1) then Raise ValueError
  else
    Ok (mk roi_area max_vehicles max_speed stopped_threshold
           density_weight speed_weight flow_weight queue_weight
           0 0 60 default_thresholds).

(** [CongestionDetector()] with every argument at its default. *)
Definition default : t :=
  mk (640 * 480) 50 100 2 (35 / 100) (35 / 100) (20 / 100) (10 / 100)
     0 0 60 default_thresholds.

Definition compute_density_score (self : t) (vehicle_count : Z)
    (total_bbox_area : R) : result R :=
  count_ratio ← truediv (IZR vehicle_count) (IZR (max_vehicles self));
  let count_density := Rmin count_ratio 1 in
  area_ratio ← truediv total_bbox_area (roi_area self);
  let area_density := Rmin area_ratio 1 in
  mret ((count_density + area_density) / 2)%R.

Definition compute_speed_score (self : t) (average_speed : R) : result R :=
  if decide (average_speed <= 0)%R then mret 1%R
  else
    ratio ← truediv average_speed (max_speed self);
    let normalized_speed := Rmin ratio 1 in
    mret (1 - normalized_speed)%R.

(** [expected_flow] defaults to [30.0]. *)
Definition compute_flow_score (self : t) (flow_rate expected_flow : R)
    : result R :=
  if decide (flow_rate <= 0)%R then mret 1%R
  else
    ratio ← truediv flow_rate expected_flow;
    let normalized_flow := Rmin ratio 1 in
    mret (1 - normalized_flow)%R.

Definition compute_queue_score (self : t) (stopped_count vehicle_count : Z)
    : result R :=
  if decide (vehicle_count = 0%Z) then mret 0%R
  else truediv (IZR stopped_count) (IZR vehicle_count).

Definition compute_congestion_score (self : t)
    (density_score speed_score flow_score queue_score : R) : R :=
  (density_weight self * density_score +
   speed_weight self * speed_score +
   flow_weight self * flow_score +
   queue_weight self * queue_score)%R.

(** [min_score <= congestion_score < max_score] *)
Definition in_band (score : R) (band : R * R) : bool :=
  bool_decide (fst band <= score)%R && bool_decide (score < snd band)%R.

Fixpoint classify_in (table : bands) (score : R) : CongestionLevel :=
  match table with
  | [] => TRAFFIC_JAM
  | (level, band) :: table' =>
      if in_band score band then level else classify_in table' score
  end.

(** [CongestionDetector.classify_congestion] *)
Definition classify_congestion (self : t) (congestion_score : R)
    : CongestionLevel :=
  classify_in (thresholds self) congestion_score.

(** [CongestionDetector.customize_thresholds] *)
Definition customize_thresholds (self : t) (table : bands) : t :=
  mk (roi_area self) (max_vehicles self) (max_speed self)
     (stopped_threshold self)
     (density_weight self) (speed_weight self) (flow_weight self)
     (queue_weight self)
     (vehicle_entry_count self) (flow_window_frames self)
     (flow_window_duration self) table.

(** [CongestionDetector.set_roi_area] *)
Definition set_roi_area (self : t) (width height : Z) : t :=
  mk (IZR (width * height)) (max_vehicles self) (max_speed self)
     (stopped_threshold self)
     (density_weight self) (speed_weight self) (flow_weight self)
     (queue_weight self)
     (vehicle_entry_count self) (flow_window_frames self)
     (flow_window_duration self) (thresholds self).

(** [timestamp or (frame_idx / fps)]: [None] and [0.0] are falsy. *)
Definition timestamp_or (timestamp : option R) (frame_idx : Z) (fps : R)
    : result R :=
  match timestamp with
  | Some ts =>
      if decide (ts = 0%R) then truediv (IZR frame_idx) fps else mret ts
  | None => truediv (IZR frame_idx) fps
  end.

(** The flow-window bookkeeping of [analyze]:
    [self.flow_window_frames += 1], then both counters are reset once the
    window is full. *)
Definition tick_flow_window (self : t) (fps : R) : t :=
  let frames := S (flow_window_frames self) in
  let full := bool_decide (INR frames >= fps * flow_window_duration self)%R in
  mk (roi_area self) (max_vehicles self) (max_speed self)
     (stopped_threshold self)
     (density_weight self) (speed_weight self) (flow_weight self)
     (queue_weight self)
     (if full then 0%nat else vehicle_entry_count self)
     (if full then 0%nat else frames)
     (flow_window_duration self) (thresholds self).

(** Sum of the areas of the latest bounding boxes; a track without a
    bounding box adds nothing. *)
Definition total_area (tracks : list VehicleTrack.t) : R :=
  fold_left
    (fun acc track =>
       match VehicleTrack.get_current_bbox track with
       | Some bbox => (acc + VehicleTrack.compute_bbox_area bbox)%R
       | None => acc
       end)
    tracks 0%R.

(** [CongestionDetector.analyze]: the detector after the call, and the
    snapshot or the exception the call ends with. *)
Definition analyze (self : t) (tracks : list VehicleTrack.t) (frame_idx : Z)
    (fps : R) (timestamp : option R) : t * result CongestionMetrics.t :=
  let vehicle_count := length tracks in
  if (vehicle_count =? 0)%nat then
    (self,
     ts ← timestamp_or timestamp frame_idx fps;
     mret (CongestionMetrics.mk 0 0 0 0 0 0 0 0 0 0 FREE_FLOW
             frame_idx ts (roi_area self)))
  else
    let speeds :=
      map (fun track => VehicleTrack.get_average_speed_pixels track 5) tracks in
    let stopped_count :=
      length (filter
                (fun track =>
                   VehicleTrack.is_stopped track (stopped_threshold self) 5)
                tracks) in
    let total_bbox_area := total_area tracks in
    let average_speed := np_mean speeds in
    match truediv total_bbox_area (roi_area self) with
    | Raise e => (self, Raise e)
    | Ok occupancy_ratio =>
        let self' := tick_flow_window self fps in
        (self',
         flow_rate ←
           (if (0 <? flow_window_frames self')%nat then
              elapsed_minutes ←
                truediv (INR (flow_window_frames self')) (fps * 60);
              truediv (INR vehicle_count) (Rmax elapsed_minutes (1 / 60))
            else mret 0%R);
         queue_length ←
           (if (0 <? vehicle_count)%nat then
              truediv (INR stopped_count) (INR vehicle_count)
            else mret 0%R);
         density_score ←
           compute_density_score self' (Z.of_nat vehicle_count) total_bbox_area;
         speed_score ← compute_speed_score self' average_speed;
         flow_score ← compute_flow_score self' flow_rate 30;
         queue_score ←
           compute_queue_score self' (Z.of_nat stopped_count)
             (Z.of_nat vehicle_count);
         let congestion_score :=
           compute_congestion_score self' density_score speed_score
             flow_score queue_score in
         let congestion_level := classify_congestion self' congestion_score in
         ts ← timestamp_or timestamp frame_idx fps;
         mret (CongestionMetrics.mk vehicle_count occupancy_ratio
                 average_speed stopped_count flow_rate queue_length
                 density_score speed_score flow_score
                 congestion_score congestion_level
                 frame_idx ts (roi_area self')))
    end.

(** The fields of a detector other than the two flow-window counters. *)
Definition configuration (self : t)
    : R * Z * R * R * (R * R * R * R) * R * bands :=
  (roi_area self, max_vehicles self, max_speed self, stopped_threshold self,
   (density_weight self, speed_weight self, flow_weight self,
    queue_weight self),
   flow_window_duration self, thresholds self).

End CongestionDetector.

(** ** [detect.py]: the tracker and detector of the command-line tool

    [detect.py] carries its own, smaller [VehicleTrack] and
    [CongestionDetector]; [detection.py] repeats them for a live camera. *)

Module Detect.

(** [list(xs)[-window:]], as in [tracking.py]. *)
Definition recent {A : Type} (window : nat) (l : list A) : list A :=
  VehicleTrack.recent window l.

(** The body of the ageing loop of [TrackManager.update], which
    [detect.py] shares with [tracking.py]. *)
Definition age_one (detected_ids : gset Z) (max_age : nat)
    (acc : gmap Z nat * list Z) (track_id : Z) : gmap Z nat * list Z :=
  TrackManager.age_one detected_ids max_age acc track_id.

Module VehicleTrack.

Record t : Type := mk {
  track_id : Z;
  max_history : nat;
  centroids : Deque.t (R * R);
  bboxes : Deque.t BBox;
  speeds : Deque.t R;
  class_id : option Z;
  class_name : option string;
  first_frame : option Z;
  last_frame : option Z
}.

Definition init (track_id : Z) (max_history : nat) : t :=
  mk track_id max_history (Deque.empty max_history) (Deque.empty max_history)
     (Deque.empty max_history) None None None None.

(** [VehicleTrack.update] of [detect.py] *)
Definition update (self : t) (bbox : BBox) (frame_idx : Z)
    (cid : option Z) (cname : option string) : t :=
  let cx := ((bx1 bbox + bx2 bbox) / 2)%R in
  let cy := ((by1 bbox + by2 bbox) / 2)%R in
  let centroids' := Deque.append (centroids self) (cx, cy) in
  let speeds' :=
    if (2 <=? Deque.len centroids')%nat then
      match rev (Deque.items centroids') with
      | curr :: prev :: _ =>
          Deque.append (speeds self)
            (sqrt ((fst curr - fst prev) ^ 2 + (snd curr - snd prev) ^ 2))%R
      | _ => speeds self
      end
    else speeds self in
  mk (track_id self) (max_history self)
     centroids'
     (Deque.append (bboxes self) bbox)
     speeds'
     (match cid with Some c => Some c | None => class_id self end)
     (match cname with Some c => Some c | None => class_name self end)
     (match first_frame self with None => Some frame_idx | Some f => Some f end)
     (Some frame_idx).

(** [get_avg_speed(window)] *)
Definition get_avg_speed (self : t) (window : nat) : R :=
  match Deque.items (speeds self) with
  | [] => 0%R
  | l => np_mean (recent window l)
  end.

(** [is_stopped(threshold)] *)
Definition is_stopped (self : t) (threshold : R) : bool :=
  bool_decide (get_avg_speed self 5 < threshold)%R.

(** One call of [update]: [(bbox, frame_idx, class_id, class_name)]. *)
Definition observation : Type := BBox * Z * option Z * option string.

Definition observe (self : t) (o : observation) : t :=
  let '(bbox, frame_idx, cid, cname) := o in
  update self bbox frame_idx cid cname.

(** The track after it was created and then updated once per observation. *)
Definition after_updates (track_id : Z) (max_history : nat)
    (obs : list observation) : t :=
  fold_left observe obs (init track_id max_history).

End VehicleTrack.

Module TrackManager.

(** A detection [(track_id, bbox, class_id, class_name)]. *)
Definition detection : Type := Z * BBox * option Z * option string.

Record t : Type := mk {
  max_age : nat;
  tracks : gmap Z VehicleTrack.t;
  track_ages : gmap Z nat
}.

(** [TrackManager.__init__] *)
Definition init (max_age : nat) : t := mk max_age ∅ ∅.

(** Body of the first loop of [update]; a new track is made with the
    default [max_history] of 30. *)
Definition detect (frame_idx : Z) (acc : t * gset Z) (d : detection)
    : t * gset Z :=
  let '(self, detected_ids) := acc in
  let '(track_id, bbox, class_id, class_name) := d in
  let track :=
    match tracks self !! track_id with
    | Some track => track
    | None => VehicleTrack.init track_id 30
    end in
  (mk (max_age self)
      (<[track_id :=
           VehicleTrack.update track bbox frame_idx class_id class_name]>
         (tracks self))
      (<[track_id := 0%nat]> (track_ages self)),
   {[track_id]} ∪ detected_ids).

(** [del self.tracks[track_id]; del self.track_ages[track_id]]: either
    [del] raises [KeyError] when the id is missing. *)
Definition remove (self : t) (track_id : Z) : result t :=
  match tracks self !! track_id with
  | Some _ =>
      match track_ages self !! track_id with
      | Some _ =>
          Ok (mk (max_age self) (delete track_id (tracks self))
                 (delete track_id (track_ages self)))
      | None => Raise KeyError
      end
  | None => Raise KeyError
  end.

(** The last loop of [update]. *)
Fixpoint remove_all (self : t) (ids : list Z) : result t :=
  match ids with
  | [] => Ok self
  | track_id :: ids' => self' ← remove self track_id; remove_all self' ids'
  end.

(** [list(self.tracks.keys())] *)
Definition keys (self : t) : list Z := (map_to_list (tracks self)).*1.

(** [TrackManager.update] of [detect.py] *)
Definition update (self : t) (detections : list detection) (frame_idx : Z)
    : result t :=
  let '(self1, detected_ids) :=
    fold_left (detect frame_idx) detections (self, ∅) in
  let '(ages, to_remove) :=
    fold_left (age_one detected_ids (max_age self1)) (keys self1)
              (track_ages self1, []) in
  remove_all (mk (max_age self1) (tracks self1) ages) to_remove.

(** [TrackManager.get_active_tracks] *)
Definition get_active_tracks (self : t) : list VehicleTrack.t :=
  (map_to_list (tracks self)).*2.

(** A run of [update] calls, one per frame. *)
Fixpoint updates (self : t) (frames : list (list detection * Z)) : result t :=
  match frames with
  | [] => Ok self
  | (detections, frame_idx) :: frames' =>
      self' ← update self detections frame_idx; updates self' frames'
  end.

End TrackManager.

Module CongestionMetrics.

Record t : Type := mk {
  frame_idx : Z;
  vehicle_count : nat;
  average_speed : R;
  stopped_count : nat;
  occupancy_ratio : R;
  congestion_score : R;
  congestion_level : CongestionLevel
}.

End CongestionMetrics.

Module CongestionDetector.

Record t : Type := mk {
  roi_area : Z;
  max_vehicles : Z;
  density_weight : R;
  speed_weight : R;
  stopped_weight : R;
  thresholds : list (CongestionLevel * (R * R))
}.

(** [CongestionDetector.__init__(roi_width, roi_height)] *)
Definition init (roi_width roi_height : Z) : t :=
  mk (roi_width * roi_height) 50 (4 / 10) (4 / 10) (2 / 10)
     [ (FREE_FLOW, (0, 2 / 10));
       (LIGHT, (2 / 10, 4 / 10));
       (MODERATE, (4 / 10, 6 / 10));
       (HEAVY, (6 / 10, 8 / 10));
       (TRAFFIC_JAM, (8 / 10, 1)) ]%R.

(** The classification loop of [analyze]: the level starts as free-flow
    and is replaced by the level of the first band that matches. *)
Fixpoint classify_in (table : list (CongestionLevel * (R * R))) (score : R)
    : CongestionLevel :=
  match table with
  | [] => FREE_FLOW
  | (level, (min_s, max_s)) :: table' =>
      if bool_decide (min_s <= score)%R && bool_decide (score < max_s)%R
      then level
      else classify_in table' score
  end.

(** Sum of the clamped areas of the latest bounding boxes. *)
Definition total_area (tracks : list VehicleTrack.t) : R :=
  fold_left
    (fun acc track =>
       match Deque.last_opt (VehicleTrack.bboxes track) with
       | Some bbox =>
           (acc + Rmax 0 (bx2 bbox - bx1 bbox) * Rmax 0 (by2 bbox - by1 bbox))%R
       | None => acc
       end)
    tracks 0%R.

(** [CongestionDetector.analyze] of [detect.py] *)
Definition analyze (self : t) (tracks : list VehicleTrack.t) (frame_idx : Z)
    : result CongestionMetrics.t :=
  match tracks with
  | [] => mret (CongestionMetrics.mk frame_idx 0 0 0 0 0 FREE_FLOW)
  | _ =>
      let vehicle_count := length tracks in
      let speeds := map (fun t => VehicleTrack.get_avg_speed t 5) tracks in
      let avg_speed := np_mean speeds in
      let stopped_count :=
        length (filter (fun t => VehicleTrack.is_stopped t 2) tracks) in
      let total_bbox_area := total_area tracks in
      occupancy_ratio ←
        (if (0 <? roi_area self)%Z then
           ratio ← truediv total_bbox_area (IZR (roi_area self));
           mret (Rmin ratio 1)
         else mret 0%R);
      density_ratio ← truediv (INR vehicle_count) (IZR (max_vehicles self));
      let density_score := Rmin density_ratio 1 in
      speed_ratio ← truediv avg_speed 20;
      let speed_score := (1 - Rmin speed_ratio 1)%R in
      stopped_score ←
        (if (0 <? vehicle_count)%nat then
           truediv (INR stopped_count) (INR vehicle_count)
         else mret 0%R);
      let congestion_score :=
        (density_weight self * density_score +
         speed_weight self * speed_score +
         stopped_weight self * stopped_score)%R in
      mret (CongestionMetrics.mk frame_idx vehicle_count avg_speed
              stopped_count occupancy_ratio congestion_score
              (classify_in (thresholds self) congestion_score))
  end.

End CongestionDetector.

End Detect.

(** ** Predicates used in the statements *)


(** [archived] is [track] with every history and every field as it was,
    except that it is marked inactive. *)
Definition inactive_copy (track archived : VehicleTrack.t) : Prop :=
  VehicleTrack.is_active archived = false /\
  VehicleTrack.track_id archived = VehicleTrack.track_id track /\
  VehicleTrack.max_history archived = VehicleTrack.max_history track /\
  VehicleTrack.centroids archived = VehicleTrack.centroids track /\
  VehicleTrack.bboxes archived = VehicleTrack.bboxes track /\
  VehicleTrack.frame_indices archived = VehicleTrack.frame_indices track /\
  VehicleTrack.speeds_px archived = VehicleTrack.speeds_px track /\
  VehicleTrack.speeds_real archived = VehicleTrack.speeds_real track /\
  VehicleTrack.class_id archived = VehicleTrack.class_id track /\
  VehicleTrack.class_name archived = VehicleTrack.class_name track /\
  VehicleTrack.first_frame archived = VehicleTrack.first_frame track /\
  VehicleTrack.last_frame archived = VehicleTrack.last_frame track /\
  VehicleTrack.total_frames archived = VehicleTrack.total_frames track.

(** A [detect.py] track of bound [cap] after [n] updates. *)
Definition detect_track_shape (cap n : nat) (track : Detect.VehicleTrack.t)
    : Prop :=
  Deque.maxlen (Detect.VehicleTrack.centroids track) = cap /\
  Deque.maxlen (Detect.VehicleTrack.bboxes track) = cap /\
  Deque.maxlen (Detect.VehicleTrack.speeds track) = cap /\
  Deque.len (Detect.VehicleTrack.centroids track) = Nat.min n cap /\
  Deque.len (Detect.VehicleTrack.bboxes track) = Nat.min n cap /\
  Deque.len (Detect.VehicleTrack.speeds track)
  = (if (cap <? 2)%nat then 0 else Nat.min (n - 1) cap)%nat.

(** No stored speed of a [detect.py] track is negative. *)
Definition detect_track_ok (track : Detect.VehicleTrack.t) : Prop :=
  Forall (fun speed => 0 <= speed)%R
         (Deque.items (Detect.VehicleTrack.speeds track)).

(** The invariant of a [detect.py] manager: the two dicts have the same
    keys, no age is above [max_age], and every track is stored under its
    own id and holds no negative speed. *)
Definition detect_manager_ok (self : Detect.TrackManager.t) : Prop :=
  dom (Detect.TrackManager.track_ages self)
  = dom (Detect.TrackManager.tracks self) /\
  (forall k age,
     Detect.TrackManager.track_ages self !! k = Some age ->
     (age <= Detect.TrackManager.max_age self)%nat) /\
  (forall k track,
     Detect.TrackManager.tracks self !! k = Some track ->
     Detect.VehicleTrack.track_id track = k /\ detect_track_ok track).

(** * Properties *)

(** ** Deques *)

Lemma deque_append_maxlen {A : Type} (d : Deque.t A) (x : A) :
  Deque.maxlen (Deque.append d x) = Deque.maxlen d.
Proof. reflexivity. Qed.

Lemma length_tl {A : Type} (l : list A) : length (tl l) = (length l - 1)%nat.
Proof. destruct l; simpl; lia. Qed.

Lemma deque_append_len {A : Type} (d : Deque.t A) (x : A) :
  (Deque.len d <= Deque.maxlen d)%nat ->
  Deque.len (Deque.append d x) = Nat.min (S (Deque.len d)) (Deque.maxlen d).
Proof.
  unfold Deque.len, Deque.append; cbn [Deque.items Deque.maxlen].
  intros Hle.
  destruct (Nat.ltb_spec (Deque.maxlen d) (length (Deque.items d ++ [x]))) as [Hlt | Hge].
  - rewrite length_tl. rewrite length_app in *. cbn [length] in *. lia.
  - rewrite length_app in *. cbn [length] in *. lia.
Qed.

(** ** Tracks *)

Section TrackHistory.

Import VehicleTrack.

Lemma history_shape_init (id : Z) (cap : nat) :
  history_shape cap 0 (init id cap).
Proof.
  unfold history_shape, init, Deque.len; simpl.
  repeat split; try reflexivity.
  destruct (cap <? 2)%nat; reflexivity.
Qed.

Lemma history_shape_update (cap n : nat) (t : VehicleTrack.t) (bbox : BBox)
    (frame_idx : Z) (cid : option Z) (cname : option string) :
  history_shape cap n t ->
  history_shape cap (S n) (update t bbox frame_idx cid cname).
Proof.
  intros (Hmc & Hms & Hlc & Hls).
  assert (Hc : Deque.len (Deque.append (centroids t) (compute_centroid bbox))
               = Nat.min (S n) cap).
  { rewrite deque_append_len by lia. lia. }
  unfold update; cbn [centroids max_history speeds_px].
  rewrite Hc.
  destruct (Nat.leb_spec 2 (Nat.min (S n) cap)) as [H2 | H2].
  - unfold history_shape; cbn [centroids speeds_px].
    rewrite deque_append_maxlen, Hc, deque_append_maxlen.
    repeat split; try assumption.
    rewrite deque_append_len.
    + rewrite Hls, Hms.
      destruct (Nat.ltb_spec cap 2); lia.
    + rewrite Hls, Hms. destruct (Nat.ltb_spec cap 2); lia.
  - unfold history_shape; cbn [centroids speeds_px].
    rewrite deque_append_maxlen, Hc.
    repeat split; try assumption.
    rewrite Hls. destruct (Nat.ltb_spec cap 2); lia.
Qed.

Lemma history_shape_fold (cap : nat) (obs : list observation) :
  forall (n : nat) (t : VehicleTrack.t),
    history_shape cap n t ->
    history_shape cap (n + length obs) (fold_left observe obs t).
Proof.
  induction obs as [| o obs IH]; intros n t Ht; simpl.
  - now rewrite Nat.add_0_r.
  - replace (n + S (length obs))%nat with (S n + length obs)%nat by lia.
    apply IH. now apply history_shape_update.
Qed.

End TrackHistory.

(** C1 (as amended).  After a track is created with bound [max_history]
    and updated once per observation, its centroid history holds
    [min N max_history] positions.  While the number of updates has not
    passed the bound (or when the bound is below 2) the speed history holds
    [max 0 (len centroids - 1)] samples: none after the first observation
    and one more for each later one.  Once more than [max_history >= 2]
    updates were made, both histories are full and have the same length. *)
Theorem C1_speed_history_length (track_id : Z) (max_history : nat)
    (obs : list VehicleTrack.observation) :
  let t := VehicleTrack.after_updates track_id max_history obs in
  Deque.len (VehicleTrack.centroids t) = Nat.min (length obs) max_history /\
  Deque.len (VehicleTrack.speeds_px t) =
    if (length obs <=? max_history)%nat || (max_history <? 2)%nat
    then Nat.max 0 (Deque.len (VehicleTrack.centroids t) - 1)
    else Deque.len (VehicleTrack.centroids t).
Proof.
  intros t.
  assert (H := history_shape_fold max_history obs 0 _
                 (history_shape_init track_id max_history)).
  change (VehicleTrack.history_shape max_history (length obs) t) in H.
  destruct H as (_ & _ & Hc & Hs).
  split; [exact Hc |].
  rewrite Hs, Hc.
  destruct (Nat.leb_spec (length obs) max_history),
           (Nat.ltb_spec max_history 2); simpl; lia.
Qed.

(** C1, counterexample.  With bound 2 and three observations the speed
    history holds 2 samples and the centroid history 2 positions, so the
    speed history is not one shorter. *)
Lemma C1_counterexample :
  let o := VehicleTrack.mkObs (mkBBox 0 0 1 1) 0 None None in
  let t := VehicleTrack.after_updates 7 2 [o; o; o] in
  Deque.len (VehicleTrack.speeds_px t)
  <> Nat.max 0 (Deque.len (VehicleTrack.centroids t) - 1).
Proof.
  intros o t.
  assert (H := history_shape_fold 2 [o; o; o] 0 _ (history_shape_init 7 2)).
  change (VehicleTrack.history_shape 2 3 t) in H.
  destruct H as (_ & _ & Hc & Hs).
  rewrite Hs, Hc. simpl. lia.
Qed.

(** ** numpy helpers *)

Lemma sum_acc (xs : list R) (a : R) :
  fold_left Rplus xs a = (a + Py.sum xs)%R.
Proof.
  unfold Py.sum. revert a.
  induction xs as [| x xs IH]; intros a; simpl.
  - lra.
  - rewrite (IH (a + x)%R), (IH (0 + x)%R). lra.
Qed.

Lemma sum_cons (x : R) (xs : list R) : Py.sum (x :: xs) = (x + Py.sum xs)%R.
Proof. unfold Py.sum at 1. simpl. rewrite sum_acc. lra. Qed.

Lemma sum_bounds (lo hi : R) (xs : list R) :
  Forall (fun x => lo <= x <= hi)%R xs ->
  (INR (length xs) * lo <= Py.sum xs <= INR (length xs) * hi)%R.
Proof.
  induction 1 as [| x xs Hx _ IH].
  - unfold Py.sum. simpl. lra.
  - rewrite sum_cons.
    change (length (x :: xs)) with (S (length xs)). rewrite S_INR. lra.
Qed.

Lemma np_mean_bounds (lo hi : R) (xs : list R) :
  xs <> [] ->
  Forall (fun x => lo <= x <= hi)%R xs ->
  (lo <= np_mean xs <= hi)%R.
Proof.
  intros Hne Hall.
  assert (Hn : (0 < INR (length xs))%R).
  { apply lt_0_INR. destruct xs; [congruence | simpl; lia]. }
  destruct (sum_bounds lo hi xs Hall) as [Hlo Hhi].
  unfold np_mean. split.
  - apply Rmult_le_reg_r with (INR (length xs)); [exact Hn |].
    unfold Rdiv. rewrite Rmult_assoc, Rinv_l by lra. lra.
  - apply Rmult_le_reg_r with (INR (length xs)); [exact Hn |].
    unfold Rdiv. rewrite Rmult_assoc, Rinv_l by lra. lra.
Qed.

(** ** Speed smoothing *)

Lemma deque_append_items_cases {A : Type} (d : Deque.t A) (x : A) :
  Deque.items (Deque.append d x) = Deque.items d ++ [x] \/
  Deque.items (Deque.append d x) = tl (Deque.items d ++ [x]).
Proof.
  unfold Deque.append; cbn [Deque.items].
  destruct (Deque.maxlen d <? length (Deque.items d ++ [x]))%nat; auto.
Qed.

Lemma Forall_tl {A : Type} (P : A -> Prop) (l : list A) :
  Forall P l -> Forall P (tl l).
Proof. destruct 1; simpl; auto. Qed.

(** C2 (as amended).  When the window of a smoother holds more than two
    samples, its standard deviation is positive and the z-score of the raw
    value exceeds the threshold, [add_speed] appends the window mean in
    place of the raw value and returns the mean of the new window; that
    value lies within any range [lo, hi] that contains the old samples. *)
Theorem C2_outlier_gate (self : SpeedSmoother.t) (speed lo hi : R) :
  let history := Deque.items (SpeedSmoother.speed_history self) in
  (2 < length history)%nat ->
  (np_std history > 0)%R ->
  (Rabs ((speed - np_mean history) / np_std history)
   > SpeedSmoother.outlier_threshold self)%R ->
  Forall (fun x => lo <= x <= hi)%R history ->
  let out := SpeedSmoother.add_speed self speed in
  SpeedSmoother.speed_history (snd out)
  = Deque.append (SpeedSmoother.speed_history self) (np_mean history) /\
  fst out = np_mean (Deque.items (SpeedSmoother.speed_history (snd out))) /\
  (lo <= fst out <= hi)%R.
Proof.
  intros history Hlen Hstd Hz Hall out.
  assert (Hg : SpeedSmoother.gated self speed = np_mean history).
  { unfold SpeedSmoother.gated. fold history.
    destruct (Nat.ltb_spec 2 (length history)) as [_ | Hge]; [| lia].
    destruct (decide (np_std history > 0)%R) as [_ | Hn]; [| contradiction].
    destruct (decide (Rabs ((speed - np_mean history) / np_std history)
                      > SpeedSmoother.outlier_threshold self)%R)
      as [_ | Hn]; [reflexivity | contradiction]. }
  subst out. unfold SpeedSmoother.add_speed. cbn [fst snd SpeedSmoother.speed_history].
  rewrite Hg. split; [reflexivity | split; [reflexivity |]].
  assert (Hne : history <> [])
    by (destruct history; [simpl in Hlen; lia | congruence]).
  assert (Hm : (lo <= np_mean history <= hi)%R) by now apply np_mean_bounds.
  assert (Hall' : Forall (fun x => lo <= x <= hi)%R (history ++ [np_mean history])).
  { apply Forall_app. split; [exact Hall | now constructor]. }
  apply np_mean_bounds.
  - intros E.
    destruct (deque_append_items_cases (SpeedSmoother.speed_history self)
                (np_mean history)) as [H | H];
      fold history in H; rewrite H in E;
      apply (f_equal (@length R)) in E;
      rewrite ?length_tl, length_app in E; simpl in E; lia.
  - destruct (deque_append_items_cases (SpeedSmoother.speed_history self)
                (np_mean history)) as [H | H];
      fold history in H; rewrite H; [| apply Forall_tl]; exact Hall'.
Qed.

Lemma np_mean_10_10_10 : np_mean [10; 10; 10]%R = 10%R.
Proof. unfold np_mean, Py.sum. simpl. lra. Qed.

Lemma np_std_10_10_10 : np_std [10; 10; 10]%R = 0%R.
Proof.
  unfold np_std. rewrite np_mean_10_10_10.
  replace (np_mean (map (fun x => (x - 10) ^ 2) [10; 10; 10]))%R with 0%R.
  - apply sqrt_0.
  - unfold np_mean, Py.sum. simpl. lra.
Qed.

Lemma np_mean_8_12 : np_mean [8; 12; 8; 12]%R = 10%R.
Proof. unfold np_mean, Py.sum. simpl. lra. Qed.

Lemma np_std_8_12 : np_std [8; 12; 8; 12]%R = 2%R.
Proof.
  unfold np_std. rewrite np_mean_8_12.
  replace (np_mean (map (fun x => (x - 10) ^ 2) [8; 12; 8; 12]))%R
    with (2 * 2)%R.
  - apply sqrt_square. lra.
  - unfold np_mean, Py.sum. simpl. lra.
Qed.

(** C2, witness: window [8, 12, 8, 12] (mean 10, standard deviation 2) and
    the raw value 1000. *)
Lemma C2_outlier_gate_witness :
  let out :=
    SpeedSmoother.add_speed (SpeedSmoother.holding 5 3 [8; 12; 8; 12]%R) 1000 in
  SpeedSmoother.speed_history (snd out)
  = Deque.append (Deque.mk [8; 12; 8; 12]%R 5) (np_mean [8; 12; 8; 12]%R) /\
  fst out = np_mean (Deque.items (SpeedSmoother.speed_history (snd out))) /\
  (8 <= fst out <= 12)%R.
Proof.
  apply (C2_outlier_gate (SpeedSmoother.holding 5 3 [8; 12; 8; 12]%R) 1000 8 12).
  - simpl. lia.
  - simpl. rewrite np_std_8_12. lra.
  - simpl. rewrite np_std_8_12, np_mean_8_12.
    replace ((1000 - 10) / 2)%R with 495%R by lra.
    rewrite Rabs_pos_eq; lra.
  - simpl. repeat constructor; lra.
Defined.

(** C2, counterexample.  The window [10, 10, 10] has standard deviation 0,
    so the gate does not fire: [add_speed(1000)] appends 1000 itself and
    returns 257.5. *)
Lemma C2_counterexample :
  let out :=
    SpeedSmoother.add_speed (SpeedSmoother.holding 5 3 [10; 10; 10]%R) 1000 in
  np_std [10; 10; 10]%R = 0%R /\
  Deque.items (SpeedSmoother.speed_history (snd out))
  = [10; 10; 10; 1000]%R /\
  fst out = (515 / 2)%R.
Proof.
  assert (Hg : SpeedSmoother.gated (SpeedSmoother.holding 5 3 [10; 10; 10]%R) 1000
               = 1000%R).
  { unfold SpeedSmoother.gated, SpeedSmoother.holding.
    cbn [SpeedSmoother.speed_history Deque.items length Nat.ltb Nat.leb].
    rewrite np_std_10_10_10.
    destruct (decide (0 > 0)%R) as [H | _]; [lra | reflexivity]. }
  intros out. subst out. unfold SpeedSmoother.add_speed. rewrite Hg.
  split; [exact np_std_10_10_10 |].
  split; [reflexivity |].
  cbn [fst]. unfold np_mean, Py.sum. simpl. lra.
Qed.

(** ** Speed estimators *)

Lemma truediv_nonzero (a b : R) : b <> 0%R -> truediv a b = Ok (a / b)%R.
Proof. intros Hb. unfold truediv. now destruct (decide (b = 0%R)). Qed.

Lemma truediv_zero (a : R) : truediv a 0 = Raise ZeroDivisionError.
Proof. unfold truediv. now destruct (decide (0%R = 0%R)). Qed.

Lemma SpeedEstimator_init_eq (fps : R) :
  SpeedEstimator.init fps =
  if decide (fps = 0%R) then Raise ZeroDivisionError
  else Ok (SpeedEstimator.mk fps (1 / fps)).
Proof.
  unfold SpeedEstimator.init, truediv.
  now destruct (decide (fps = 0%R)).
Qed.

(** C3 (as amended).  Constructing a speed estimator fails exactly when
    [fps] is 0, with the [ZeroDivisionError] of [1.0 / fps]; for every
    other [fps], negative ones included, the pixel estimator is built, and
    so is the homography estimator, which then runs
    [cv2.findHomography] when both point lists are given. *)
Theorem C3_estimator_construction (fps pixels_per_meter : R)
    (Matrix : Type)
    (findHomography : list (R * R) -> list (R * R) -> result (option Matrix))
    (image_points world_points : list (R * R)) :
  let base := SpeedEstimator.mk fps (1 / fps) in
  PixelSpeedEstimator.init fps pixels_per_meter
  = (if decide (fps = 0%R) then Raise ZeroDivisionError
     else Ok (PixelSpeedEstimator.mk base pixels_per_meter)) /\
  HomographySpeedEstimator.init findHomography fps None None
  = (if decide (fps = 0%R) then Raise ZeroDivisionError
     else Ok (HomographySpeedEstimator.mk base None)) /\
  HomographySpeedEstimator.init findHomography fps
    (Some image_points) (Some world_points)
  = (if decide (fps = 0%R) then Raise ZeroDivisionError
     else h ← findHomography image_points world_points;
          Ok (HomographySpeedEstimator.mk base h)).
Proof.
  intros base.
  unfold PixelSpeedEstimator.init, HomographySpeedEstimator.init.
  rewrite SpeedEstimator_init_eq.
  destruct (decide (fps = 0%R)); repeat split; reflexivity.
Qed.

(** C3, counterexample.  [fps = -30] is not positive, yet both estimators
    are constructed. *)
Lemma C3_counterexample :
  (-30 <= 0)%R /\
  succeeds (PixelSpeedEstimator.init (-30) 20) /\
  succeeds (HomographySpeedEstimator.init
              (fun _ _ => Ok (@None unit)) (-30) None None).
Proof.
  split; [lra |].
  unfold PixelSpeedEstimator.init, HomographySpeedEstimator.init.
  rewrite SpeedEstimator_init_eq.
  destruct (decide (-30 = 0)%R) as [H | _]; [lra |].
  split; exact I.
Qed.

(** ** Congestion detector: construction *)

Lemma np_isclose_1 (total : R) :
  np_isclose total 1
  = bool_decide (Rabs (total - 1) <= 1001 / 100000000)%R.
Proof.
  unfold np_isclose, rtol, atol. apply bool_decide_ext.
  rewrite Rabs_R1. split; intros H; lra.
Qed.

Lemma sum_weights (a b c d : R) : Py.sum [a; b; c; d] = (a + b + c + d)%R.
Proof. unfold Py.sum. simpl. lra. Qed.

Lemma CongestionDetector_init_eq (roi_area : R) (max_vehicles : Z)
    (max_speed stopped_threshold dw sw fw qw : R) :
  CongestionDetector.init roi_area max_vehicles max_speed stopped_threshold
    dw sw fw qw
  = if decide (Rabs (dw + sw + fw + qw - 1) <= 1001 / 100000000)%R
    then Ok (CongestionDetector.mk roi_area max_vehicles max_speed
               stopped_threshold dw sw fw qw 0 0 60
               CongestionDetector.default_thresholds)
    else Raise ValueError.
Proof.
  unfold CongestionDetector.init.
  rewrite np_isclose_1, sum_weights.
  destruct (decide (Rabs (dw + sw + fw + qw - 1) <= 1001 / 100000000)%R)
    as [H | H].
  - now rewrite bool_decide_eq_true_2.
  - now rewrite bool_decide_eq_false_2.
Qed.

(** C5 (as amended).  Construction of a congestion detector raises
    [ValueError] exactly when the sum of the four weights differs from 1.0
    by more than the tolerance of [np.isclose] (1e-8 + 1e-5); otherwise it
    succeeds and stores the four weights as given, without renormalizing.
    The weights 0.4, 0.4, 0.4, 0.1 are rejected, and weights whose sum is
    exactly 1.0 are accepted. *)
Theorem C5_weight_validation (roi_area : R) (max_vehicles : Z)
    (max_speed stopped_threshold dw sw fw qw : R) :
  CongestionDetector.init roi_area max_vehicles max_speed stopped_threshold
    dw sw fw qw
  = (if decide (Rabs (dw + sw + fw + qw - 1) <= 1001 / 100000000)%R
     then Ok (CongestionDetector.mk roi_area max_vehicles max_speed
                stopped_threshold dw sw fw qw 0 0 60
                CongestionDetector.default_thresholds)
     else Raise ValueError) /\
  CongestionDetector.init roi_area max_vehicles max_speed stopped_threshold
    (4 / 10) (4 / 10) (4 / 10) (1 / 10)
  = Raise ValueError /\
  CongestionDetector.init roi_area max_vehicles max_speed stopped_threshold
    dw sw fw (1 - dw - sw - fw)
  = Ok (CongestionDetector.mk roi_area max_vehicles max_speed
          stopped_threshold dw sw fw (1 - dw - sw - fw) 0 0 60
          CongestionDetector.default_thresholds).
Proof.
  rewrite !CongestionDetector_init_eq.
  split; [reflexivity | split].
  - destruct (decide _) as [H | _]; [| reflexivity].
    replace (4 / 10 + 4 / 10 + 4 / 10 + 1 / 10 - 1)%R with (3 / 10)%R in H by lra.
    rewrite Rabs_pos_eq in H; lra.
  - destruct (decide _) as [_ | H]; [reflexivity |].
    exfalso. apply H.
    replace (dw + sw + fw + (1 - dw - sw - fw) - 1)%R with 0%R by lra.
    rewrite Rabs_R0. lra.
Qed.

(** C5, counterexample.  The weights 0.35, 0.35, 0.2, 0.100001 do not sum
    to 1.0, and the detector is constructed all the same. *)
Lemma C5_counterexample :
  (35 / 100 + 35 / 100 + 20 / 100 + 100001 / 1000000 <> 1)%R /\
  succeeds (CongestionDetector.init (640 * 480) 50 100 2
              (35 / 100) (35 / 100) (20 / 100) (100001 / 1000000)).
Proof.
  split; [lra |].
  rewrite CongestionDetector_init_eq.
  destruct (decide _) as [_ | H]; [exact I |].
  apply H.
  replace (35 / 100 + 35 / 100 + 20 / 100 + 100001 / 1000000 - 1)%R
    with (1 / 1000000)%R by lra.
  rewrite Rabs_pos_eq; lra.
Qed.

Lemma CongestionDetector_default_init :
  CongestionDetector.init (640 * 480) 50 100 2
    (35 / 100) (35 / 100) (20 / 100) (10 / 100)
  = Ok CongestionDetector.default.
Proof.
  rewrite CongestionDetector_init_eq.
  destruct (decide _) as [_ | H]; [reflexivity |].
  exfalso. apply H.
  replace (35 / 100 + 35 / 100 + 20 / 100 + 10 / 100 - 1)%R with 0%R by lra.
  rewrite Rabs_R0. lra.
Qed.

(** ** Congestion detector: [analyze] *)

Lemma timestamp_or_ok (timestamp : option R) (frame_idx : Z) (fps : R) :
  (fps <> 0%R \/ exists ts, timestamp = Some ts /\ ts <> 0%R) ->
  exists ts, CongestionDetector.timestamp_or timestamp frame_idx fps = Ok ts.
Proof.
  unfold CongestionDetector.timestamp_or.
  intros [Hfps | (ts & -> & Hts)].
  - destruct timestamp as [ts |].
    + destruct (decide (ts = 0%R)).
      * rewrite truediv_nonzero by assumption. eauto.
      * eexists. reflexivity.
    + rewrite truediv_nonzero by assumption. eauto.
  - destruct (decide (ts = 0%R)); [contradiction |].
    eexists. reflexivity.
Qed.

(** C6 (as amended).  For every detector and frame index, and for every
    [fps] other than 0 (or any [fps] when a non-zero timestamp is passed),
    [analyze] with an empty track list returns a snapshot whose counts,
    measures, sub-scores and congestion score are all zero and whose level
    is free-flow; the detector is left as it was. *)
Theorem C6_analyze_empty (self : CongestionDetector.t) (frame_idx : Z)
    (fps : R) (timestamp : option R) :
  (fps <> 0%R \/ exists ts, timestamp = Some ts /\ ts <> 0%R) ->
  exists ts : R,
    CongestionDetector.analyze self [] frame_idx fps timestamp
    = (self,
       Ok (CongestionMetrics.mk 0 0 0 0 0 0 0 0 0 0 FREE_FLOW frame_idx ts
             (CongestionDetector.roi_area self))).
Proof.
  intros H.
  destruct (timestamp_or_ok timestamp frame_idx fps H) as [ts Hts].
  exists ts. unfold CongestionDetector.analyze. simpl.
  now rewrite Hts.
Qed.

(** C6, witness: the default detector at frame 0 with 30 frames per
    second and no timestamp. *)
Lemma C6_analyze_empty_witness :
  exists ts : R,
    CongestionDetector.analyze CongestionDetector.default [] 0 30 None
    = (CongestionDetector.default,
       Ok (CongestionMetrics.mk 0 0 0 0 0 0 0 0 0 0 FREE_FLOW 0 ts
             (640 * 480))).
Proof.
  apply (C6_analyze_empty CongestionDetector.default 0 30 None).
  left. lra.
Defined.

(** C6, counterexample.  With [fps = 0] and no timestamp, [analyze] on an
    empty track list raises [ZeroDivisionError] (from [frame_idx / fps])
    instead of returning a snapshot. *)
Lemma C6_counterexample :
  snd (CongestionDetector.analyze CongestionDetector.default [] 0 0 None)
  = Raise ZeroDivisionError.
Proof.
  unfold CongestionDetector.analyze, CongestionDetector.timestamp_or. simpl.
  now rewrite truediv_zero.
Qed.

(** C10.  [analyze] with an empty track list returns the detector
    unchanged, whatever the other arguments are and whether or not the
    call raises.  With any track list, every field of the detector other
    than [flow_window_frames] and [vehicle_entry_count] keeps its value. *)
Theorem C10_analyze_frame (self : CongestionDetector.t)
    (tracks : list VehicleTrack.t) (frame_idx : Z) (fps : R)
    (timestamp : option R) :
  fst (CongestionDetector.analyze self [] frame_idx fps timestamp) = self /\
  CongestionDetector.configuration
    (fst (CongestionDetector.analyze self tracks frame_idx fps timestamp))
  = CongestionDetector.configuration self.
Proof.
  split; [reflexivity |].
  unfold CongestionDetector.analyze.
  destruct (length tracks =? 0)%nat; [reflexivity |].
  destruct (truediv _ _); reflexivity.
Qed.

(** ** Congestion detector: sub-scores *)

Lemma div_nonneg (a b : R) : (0 <= a)%R -> (0 < b)%R -> (0 <= a / b)%R.
Proof.
  intros Ha Hb. unfold Rdiv.
  apply Rmult_le_pos; [exact Ha |].
  left. now apply Rinv_0_lt_compat.
Qed.

Lemma div_le_1 (a b : R) : (a <= b)%R -> (0 < b)%R -> (a / b <= 1)%R.
Proof.
  intros Hab Hb.
  apply Rmult_le_reg_r with b; [exact Hb |].
  unfold Rdiv. rewrite Rmult_assoc, Rinv_l by lra. lra.
Qed.

Lemma Rmin_1_unit (x : R) : (0 <= x)%R -> (0 <= Rmin x 1 <= 1)%R.
Proof.
  intros Hx. split.
  - apply Rmin_glb; lra.
  - apply Rmin_r.
Qed.

Lemma density_score_unit (self : CongestionDetector.t) (vehicle_count : Z)
    (total_bbox_area : R) :
  (0 < CongestionDetector.max_vehicles self)%Z ->
  (0 < CongestionDetector.roi_area self)%R ->
  (0 <= vehicle_count)%Z ->
  (0 <= total_bbox_area)%R ->
  exists s : R,
    CongestionDetector.compute_density_score self vehicle_count total_bbox_area
    = Ok s /\ (0 <= s <= 1)%R.
Proof.
  intros Hmv Hroi Hvc Harea.
  apply IZR_lt in Hmv. apply IZR_le in Hvc.
  unfold CongestionDetector.compute_density_score.
  rewrite !truediv_nonzero by lra. eexists. split; [reflexivity |].
  pose proof (Rmin_1_unit _ (div_nonneg _ _ Hvc Hmv)).
  pose proof (Rmin_1_unit _ (div_nonneg _ _ Harea Hroi)).
  lra.
Qed.

Lemma inverted_score_unit (value limit : R) :
  (0 < limit)%R ->
  exists s : R,
    (if decide (value <= 0)%R then mret 1%R
     else ratio ← truediv value limit; mret (1 - Rmin ratio 1)%R)
    = Ok s /\ (0 <= s <= 1)%R.
Proof.
  intros Hlimit.
  destruct (decide (value <= 0)%R) as [Hle | Hgt].
  - exists 1%R. split; [reflexivity | lra].
  - rewrite truediv_nonzero by lra. eexists. split; [reflexivity |].
    assert (Hv : (0 <= value)%R) by lra.
    pose proof (Rmin_1_unit _ (div_nonneg _ _ Hv Hlimit)). lra.
Qed.

Lemma queue_score_unit (self : CongestionDetector.t)
    (stopped_count vehicle_count : Z) :
  (0 <= stopped_count <= vehicle_count)%Z ->
  exists s : R,
    CongestionDetector.compute_queue_score self stopped_count vehicle_count
    = Ok s /\ (0 <= s <= 1)%R.
Proof.
  intros [Hs Hsv].
  unfold CongestionDetector.compute_queue_score.
  destruct (decide (vehicle_count = 0%Z)) as [-> | Hne].
  - exists 0%R. split; [reflexivity | lra].
  - assert (Hv : (0 < IZR vehicle_count)%R) by (apply IZR_lt; lia).
    apply IZR_le in Hs, Hsv.
    rewrite truediv_nonzero by lra. eexists. split; [reflexivity |].
    split; [now apply div_nonneg | now apply div_le_1].
Qed.

(** C7 (as amended).  For a detector whose normalisers ([max_vehicles], [roi_area],
    [max_speed]) and expected flow are positive, as the defaults are, and
    for non-negative vehicle count, total bounding-box area, average speed
    and flow rate, and a stopped count between 0 and the vehicle count,
    each of the four sub-score functions returns a value in [0, 1]. *)
Theorem C7_sub_scores_unit (self : CongestionDetector.t)
    (vehicle_count stopped_count : Z)
    (total_bbox_area average_speed flow_rate expected_flow : R) :
  (0 < CongestionDetector.max_vehicles self)%Z ->
  (0 < CongestionDetector.roi_area self)%R ->
  (0 < CongestionDetector.max_speed self)%R ->
  (0 < expected_flow)%R ->
  (0 <= vehicle_count)%Z ->
  (0 <= total_bbox_area)%R ->
  (0 <= average_speed)%R ->
  (0 <= flow_rate)%R ->
  (0 <= stopped_count <= vehicle_count)%Z ->
  (exists s : R,
     CongestionDetector.compute_density_score self vehicle_count total_bbox_area
     = Ok s /\ (0 <= s <= 1)%R) /\
  (exists s : R,
     CongestionDetector.compute_speed_score self average_speed = Ok s /\
     (0 <= s <= 1)%R) /\
  (exists s : R,
     CongestionDetector.compute_flow_score self flow_rate expected_flow = Ok s /\
     (0 <= s <= 1)%R) /\
  (exists s : R,
     CongestionDetector.compute_queue_score self stopped_count vehicle_count
     = Ok s /\ (0 <= s <= 1)%R).
Proof.
  intros Hmv Hroi Hms Hef Hvc Harea Hspeed Hflow Hstopped.
  split; [now apply density_score_unit |].
  split; [now apply inverted_score_unit |].
  split; [now apply inverted_score_unit |].
  now apply queue_score_unit.
Qed.

(** C7, witness: the default detector with 60 vehicles, 12 of them
    stopped, a total box area of 1000, average speed 40, flow rate 45 and
    the default expected flow 30. *)
Lemma C7_sub_scores_unit_witness :
  (exists s : R,
     CongestionDetector.compute_density_score CongestionDetector.default 60 1000
     = Ok s /\ (0 <= s <= 1)%R) /\
  (exists s : R,
     CongestionDetector.compute_speed_score CongestionDetector.default 40
     = Ok s /\ (0 <= s <= 1)%R) /\
  (exists s : R,
     CongestionDetector.compute_flow_score CongestionDetector.default 45 30
     = Ok s /\ (0 <= s <= 1)%R) /\
  (exists s : R,
     CongestionDetector.compute_queue_score CongestionDetector.default 12 60
     = Ok s /\ (0 <= s <= 1)%R).
Proof.
  apply (C7_sub_scores_unit CongestionDetector.default 60 12 1000 40 45 30);
    simpl; try lia; lra.
Defined.

(** C7, counterexample.  A detector can be constructed with
    [max_vehicles = 0]; its density score then raises [ZeroDivisionError]
    on non-negative inputs instead of returning a value in [0, 1]. *)
Lemma C7_counterexample :
  let self :=
    CongestionDetector.mk (640 * 480) 0 100 2
      (35 / 100) (35 / 100) (20 / 100) (10 / 100) 0 0 60
      CongestionDetector.default_thresholds in
  CongestionDetector.init (640 * 480) 0 100 2
    (35 / 100) (35 / 100) (20 / 100) (10 / 100) = Ok self /\
  CongestionDetector.compute_density_score self 5 0 = Raise ZeroDivisionError.
Proof.
  split.
  - rewrite CongestionDetector_init_eq.
    destruct (decide _) as [_ | H]; [reflexivity |].
    exfalso. apply H.
    replace (35 / 100 + 35 / 100 + 20 / 100 + 10 / 100 - 1)%R with 0%R by lra.
    rewrite Rabs_R0. lra.
  - unfold CongestionDetector.compute_density_score. simpl.
    now rewrite truediv_zero.
Qed.

(** ** Congestion detector: classification *)

Lemma in_band_true (score lo hi : R) :
  CongestionDetector.in_band score (lo, hi) = true <-> (lo <= score < hi)%R.
Proof.
  unfold CongestionDetector.in_band; simpl.
  rewrite andb_true_iff, !bool_decide_eq_true. tauto.
Qed.

Lemma in_band_above (score : R) (band : R * R) :
  (snd band <= score)%R -> CongestionDetector.in_band score band = false.
Proof.
  intros H. unfold CongestionDetector.in_band.
  rewrite (bool_decide_eq_false_2 (score < snd band)%R) by lra.
  apply andb_false_r.
Qed.

Lemma classify_in_above (table : CongestionDetector.bands) (score : R) :
  Forall (fun entry => snd (snd entry) <= score)%R table ->
  CongestionDetector.classify_in table score = TRAFFIC_JAM.
Proof.
  induction 1 as [| [level band] table Hband _ IH]; simpl.
  - reflexivity.
  - now rewrite in_band_above.
Qed.

Lemma classify_in_first (pre post : CongestionDetector.bands)
    (level : CongestionLevel) (band : R * R) (score : R) :
  Forall (fun entry => CongestionDetector.in_band score (snd entry) = false) pre ->
  CongestionDetector.in_band score band = true ->
  CongestionDetector.classify_in (pre ++ (level, band) :: post) score = level.
Proof.
  intros Hpre Hband.
  induction Hpre as [| [l b] pre Hb _ IH]; simpl.
  - now rewrite Hband.
  - simpl in Hb. now rewrite Hb.
Qed.

Lemma classify_default_band (level : CongestionLevel) (lo hi score : R) :
  In (level, (lo, hi)) CongestionDetector.default_thresholds ->
  (lo <= score < hi)%R ->
  CongestionDetector.classify_in CongestionDetector.default_thresholds score
  = level.
Proof.
  unfold CongestionDetector.default_thresholds.
  intros Hin Hs. simpl in Hin.
  unfold CongestionDetector.classify_in, CongestionDetector.in_band;
    cbn [fst snd].
  repeat (destruct Hin as [Hin | Hin];
          [injection Hin as <- <- <-;
           repeat first
             [ rewrite bool_decide_eq_true_2 by lra
             | rewrite bool_decide_eq_false_2 by lra ];
           cbn [andb]; try reflexivity;
           repeat (destruct (bool_decide _); cbn [andb]; try reflexivity)
          |]).
  contradiction.
Qed.

(** C8 (as amended).  A score that is at or above the upper bound of every
    configured band is classified as traffic jam; in particular 1.0 under
    the default bands.  A score inside a configured band gets the level of
    the first band of the table that contains it; the default bands do not
    overlap, so there a score inside a band gets that band's level. *)
Theorem C8_classification (self : CongestionDetector.t) (score : R) :
  (Forall (fun entry => snd (snd entry) <= score)%R
          (CongestionDetector.thresholds self) ->
   CongestionDetector.classify_congestion self score = TRAFFIC_JAM) /\
  CongestionDetector.classify_congestion CongestionDetector.default 1
  = TRAFFIC_JAM /\
  (forall pre post level lo hi,
     CongestionDetector.thresholds self = pre ++ (level, (lo, hi)) :: post ->
     Forall (fun entry => CongestionDetector.in_band score (snd entry) = false)
            pre ->
     (lo <= score < hi)%R ->
     CongestionDetector.classify_congestion self score = level) /\
  (forall level lo hi,
     In (level, (lo, hi)) CongestionDetector.default_thresholds ->
     (lo <= score < hi)%R ->
     CongestionDetector.classify_congestion CongestionDetector.default score
     = level).
Proof.
  unfold CongestionDetector.classify_congestion.
  split; [apply classify_in_above |].
  split.
  - apply classify_in_above. simpl.
    repeat constructor; simpl; lra.
  - split.
    + intros pre post level lo hi -> Hpre Hs.
      apply classify_in_first; [exact Hpre |].
      now apply in_band_true.
    + intros level lo hi. apply classify_default_band.
Qed.

(** C8, witness: under the default bands 0.5 lies in [0.4, 0.6) and is
    classified as moderate. *)
Lemma C8_classification_witness :
  CongestionDetector.classify_congestion CongestionDetector.default (5 / 10)
  = MODERATE.
Proof.
  destruct (C8_classification CongestionDetector.default (5 / 10))
    as (_ & _ & _ & H).
  apply (H MODERATE (4 / 10) (6 / 10))%R.
  - simpl. tauto.
  - lra.
Defined.

(** C8, counterexample.  With a custom table whose first two bands
    overlap, 0.4 lies inside the band of the light level, and the
    classification is free-flow, the level of the earlier band. *)
Lemma C8_counterexample :
  let table : CongestionDetector.bands :=
    [ (FREE_FLOW, (0, 5 / 10)); (LIGHT, (3 / 10, 6 / 10));
      (MODERATE, (6 / 10, 7 / 10)); (HEAVY, (7 / 10, 8 / 10));
      (TRAFFIC_JAM, (8 / 10, 1)) ]%R in
  let self :=
    CongestionDetector.customize_thresholds CongestionDetector.default table in
  In (LIGHT, (3 / 10, 6 / 10))%R (CongestionDetector.thresholds self) /\
  (3 / 10 <= 4 / 10 < 6 / 10)%R /\
  CongestionDetector.classify_congestion self (4 / 10) = FREE_FLOW.
Proof.
  intros table self. split; [simpl; tauto |]. split; [lra |].
  unfold CongestionDetector.classify_congestion. simpl.
  assert (H : CongestionDetector.in_band (4 / 10) (0, 5 / 10)%R = true)
    by (apply in_band_true; lra).
  now rewrite H.
Qed.

(** ** Track manager *)

Section TrackManagerFacts.

Import TrackManager.

Lemma keys_spec (self : TrackManager.t) (k : Z) :
  k ∈ keys self <-> k ∈ dom (tracks self).
Proof.
  unfold keys. rewrite list_elem_of_fmap, elem_of_dom. split.
  - intros ([k' t] & -> & Hin). apply elem_of_map_to_list in Hin. eauto.
  - intros [t Ht]. exists (k, t). split; [reflexivity |].
    now apply elem_of_map_to_list.
Qed.

Lemma keys_NoDup (self : TrackManager.t) : NoDup (keys self).
Proof. apply NoDup_fst_map_to_list. Qed.

Lemma active_track (self : TrackManager.t) (k : Z) (t : VehicleTrack.t) :
  tracks self !! k = Some t -> In t (get_active_tracks self).
Proof.
  intros Ht. apply list_elem_of_In. unfold get_active_tracks.
  apply list_elem_of_fmap. exists (k, t). split; [reflexivity |].
  now apply elem_of_map_to_list.
Qed.

Lemma active_track_inv (self : TrackManager.t) (t : VehicleTrack.t) :
  In t (get_active_tracks self) -> exists k, tracks self !! k = Some t.
Proof.
  intros Hin. apply list_elem_of_In in Hin. unfold get_active_tracks in Hin.
  apply list_elem_of_fmap in Hin as ([k t'] & -> & Hin).
  exists k. now apply elem_of_map_to_list.
Qed.

(** *** [remove_track] *)

Lemma remove_track_spec (self : TrackManager.t) (id : Z) :
  same_keys self ->
  exists self',
    remove_track self id = Ok self' /\
    same_keys self' /\
    max_age self' = max_age self /\
    tracks self' = delete id (tracks self) /\
    track_ages self' = delete id (track_ages self) /\
    (forall t, In t (completed_tracks self) -> In t (completed_tracks self')) /\
    (forall t, tracks self !! id = Some t ->
               In (deactivate t) (completed_tracks self')).
Proof.
  unfold same_keys. intros Hkeys. unfold remove_track.
  destruct (tracks self !! id) as [track |] eqn:Ht.
  - assert (Ha : is_Some (track_ages self !! id)).
    { apply elem_of_dom. rewrite Hkeys. apply elem_of_dom. eauto. }
    destruct Ha as [a Ha]. rewrite Ha.
    eexists. split; [reflexivity |]. cbn.
    repeat split.
    + rewrite !dom_delete_L. now rewrite Hkeys.
    + intros t Hin. apply in_or_app. now left.
    + intros t [= <-]. apply in_or_app. right. now left.
  - exists self. split; [reflexivity |].
    assert (Ha : track_ages self !! id = None).
    { apply not_elem_of_dom. rewrite Hkeys. now apply not_elem_of_dom. }
    repeat split; try easy.
    + now rewrite delete_id.
    + now rewrite delete_id.
Qed.

Lemma remove_tracks_spec (ids : list Z) :
  forall self : TrackManager.t,
    same_keys self ->
    exists self',
      remove_tracks self ids = Ok self' /\
      same_keys self' /\
      max_age self' = max_age self /\
      (forall k, k ∈ ids ->
                 tracks self' !! k = None /\ track_ages self' !! k = None) /\
      (forall k, k ∉ ids ->
                 tracks self' !! k = tracks self !! k /\
                 track_ages self' !! k = track_ages self !! k) /\
      (forall t, In t (completed_tracks self) ->
                 In t (completed_tracks self')) /\
      (forall k t, k ∈ ids -> tracks self !! k = Some t ->
                   In (deactivate t) (completed_tracks self')).
Proof.
  induction ids as [| id ids IH]; intros self Hkeys.
  - exists self. split; [reflexivity |].
    repeat split; easy.
  - destruct (remove_track_spec self id Hkeys)
      as (self1 & Hrm & Hkeys1 & Hage1 & Htr1 & Hag1 & Hmono1 & Harch1).
    destruct (IH self1 Hkeys1)
      as (self' & Hrms & Hkeys' & Hage' & Hin' & Hout' & Hmono' & Harch').
    exists self'. split.
    { simpl. rewrite Hrm. exact Hrms. }
    split; [exact Hkeys' |].
    split; [congruence |].
    split; [| split; [| split]].
    + intros k Hk.
      destruct (decide (k ∈ ids)) as [Hids | Hids]; [now apply Hin' |].
      apply elem_of_cons in Hk as [-> | Hk]; [| contradiction].
      destruct (Hout' id Hids) as [-> ->].
      rewrite Htr1, Hag1, !lookup_delete_eq. easy.
    + intros k Hk. apply not_elem_of_cons in Hk as [Hne Hk].
      destruct (Hout' k Hk) as [-> ->].
      rewrite Htr1, Hag1, !lookup_delete_ne by congruence. easy.
    + intros t Hin. apply Hmono', Hmono1, Hin.
    + intros k t Hk Ht.
      destruct (decide (k = id)) as [-> | Hne].
      * apply Hmono'. now apply Harch1.
      * apply elem_of_cons in Hk as [-> | Hk]; [congruence |].
        apply (Harch' k t Hk).
        rewrite Htr1, lookup_delete_ne by congruence. exact Ht.
Qed.

(** *** First loop of [update] *)

Lemma detect_spec (frame_idx : Z) (acc : TrackManager.t * gset Z)
    (d : detection) :
  let acc' := detect frame_idx acc d in
  (same_keys (fst acc) -> same_keys (fst acc')) /\
  max_age (fst acc') = max_age (fst acc) /\
  completed_tracks (fst acc') = completed_tracks (fst acc) /\
  (forall id, det_id d <> id ->
     tracks (fst acc') !! id = tracks (fst acc) !! id /\
     track_ages (fst acc') !! id = track_ages (fst acc) !! id /\
     (id ∈ snd acc' <-> id ∈ snd acc)).
Proof.
  destruct acc as [self detected]. unfold detect.
  assert (Hset : forall id, det_id d <> id ->
            id ∈ ({[det_id d]} ∪ detected : gset Z) <-> id ∈ detected).
  { intros id Hne. rewrite elem_of_union, elem_of_singleton. split.
    - intros [H | H]; [congruence | exact H].
    - now right. }
  destruct (tracks self !! det_id d) as [track |]; cbn.
  - split; [| split; [reflexivity | split; [reflexivity |]]].
    + unfold same_keys; cbn. intros H. now rewrite !dom_insert_L, H.
    + intros id Hne. rewrite !lookup_insert_ne by exact Hne. auto.
  - split; [| split; [reflexivity | split; [reflexivity |]]].
    + unfold same_keys; cbn. intros H. now rewrite !dom_insert_L, H.
    + intros id Hne. rewrite !lookup_insert_ne by exact Hne. auto.
Qed.

Lemma detect_fold_spec (frame_idx : Z) (detections : list detection) :
  forall acc : TrackManager.t * gset Z,
    let acc' := fold_left (detect frame_idx) detections acc in
    (same_keys (fst acc) -> same_keys (fst acc')) /\
    max_age (fst acc') = max_age (fst acc) /\
    completed_tracks (fst acc') = completed_tracks (fst acc) /\
    (forall id, Forall (fun d => det_id d <> id) detections ->
       tracks (fst acc') !! id = tracks (fst acc) !! id /\
       track_ages (fst acc') !! id = track_ages (fst acc) !! id /\
       (id ∈ snd acc' <-> id ∈ snd acc)).
Proof.
  induction detections as [| d detections IH]; intros acc; simpl.
  - repeat split; easy.
  - destruct (detect_spec frame_idx acc d) as (Hk1 & Ha1 & Hc1 & Ho1).
    destruct (IH (detect frame_idx acc d)) as (Hk & Ha & Hc & Ho).
    split; [auto |].
    split; [congruence |].
    split; [congruence |].
    intros id Hall. inversion Hall as [| ? ? Hd Hrest]; subst.
    destruct (Ho1 id Hd) as (Ht1 & Hg1 & Hs1).
    destruct (Ho id Hrest) as (Ht & Hg & Hs).
    split; [congruence |]. split; [congruence |].
    now rewrite Hs.
Qed.

(** *** Second loop of [update] *)

Lemma age_fold_spec (detected : gset Z) (limit : nat) (ks : list Z) :
  NoDup ks ->
  forall (acc : gmap Z nat * list Z) (k : Z),
    let acc' := fold_left (age_one detected limit) ks acc in
    (k ∈ ks -> k ∉ detected ->
     fst acc' !! k = Some (S (default 0 (fst acc !! k)))) /\
    (k ∉ ks \/ k ∈ detected -> fst acc' !! k = fst acc !! k) /\
    (k ∈ snd acc' <->
     k ∈ snd acc \/
     (k ∈ ks /\ (k ∉ detected) /\ (limit < S (default 0 (fst acc !! k)))%nat)).
Proof.
  induction 1 as [| k0 ks Hk0 Hnd IH]; intros [ages rem] k; simpl.
  - split; [intros Hk; now apply elem_of_nil in Hk |].
    split; [reflexivity |].
    split; [now left |].
    intros [H | (Hk & _)]; [exact H | now apply elem_of_nil in Hk].
  - specialize (IH (age_one detected limit (ages, rem) k0) k).
    cbn zeta in IH. destruct IH as (IHin & IHout & IHrem).
    unfold age_one in IHin, IHout, IHrem |- *.
    destruct (decide (k0 ∈ detected)) as [Hdet | Hdet]; simpl in *.
    + split; [| split].
      * intros Hk Hnot. apply elem_of_cons in Hk as [-> | Hk];
          [contradiction | now apply IHin].
      * intros [Hk | Hk].
        -- apply not_elem_of_cons in Hk as [_ Hk]. apply IHout. now left.
        -- apply IHout. now right.
      * rewrite IHrem, elem_of_cons. split.
        -- intros [H | (H1 & H2 & H3)]; [now left | right; auto].
        -- intros [H | ([-> | H1] & H2 & H3)];
             [now left | contradiction | right; auto].
    + destruct (decide (k = k0)) as [-> | Hne].
      * assert (Hl : (<[k0 := S (default 0 (ages !! k0))]> ages) !! k0
                     = Some (S (default 0 (ages !! k0))))
          by apply lookup_insert_eq.
        split; [| split].
        -- intros _ _. rewrite IHout by now left. exact Hl.
        -- intros [Hk | Hk]; [| contradiction].
           exfalso. apply Hk. now left.
        -- rewrite IHrem. split.
           ++ intros [H | (H1 & _)]; [| contradiction].
              destruct (Nat.ltb_spec limit (S (default 0 (ages !! k0))))
                as [Hlt | Hge].
              ** apply elem_of_app in H as [H | H]; [now left |].
                 right. split; [now left | auto].
              ** now left.
           ++ intros [H | (_ & _ & Hlt)].
              ** left. destruct (limit <? S (default 0 (ages !! k0)))%nat;
                   [apply elem_of_app; now left | exact H].
              ** left.
                 destruct (Nat.ltb_spec limit (S (default 0 (ages !! k0))))
                   as [_ | Hge]; [| lia].
                 apply elem_of_app. right. now left.
      * assert (Hl : (<[k0 := S (default 0 (ages !! k0))]> ages) !! k
                     = ages !! k)
          by now apply lookup_insert_ne.
        rewrite Hl in IHin, IHrem.
        split; [| split].
        -- intros Hk Hnot. apply elem_of_cons in Hk as [-> | Hk];
             [congruence | now apply IHin].
        -- intros [Hk | Hk].
           ++ apply not_elem_of_cons in Hk as [_ Hk].
              rewrite IHout by now left. exact Hl.
           ++ rewrite IHout by now right. exact Hl.
        -- rewrite IHrem, elem_of_cons. split.
           ++ intros [H | (H1 & H2 & H3)]; [| right; auto].
              left.
              destruct (limit <? S (default 0 (ages !! k0)))%nat;
                [| exact H].
              apply elem_of_app in H as [H | H]; [exact H |].
              apply list_elem_of_singleton in H. congruence.
           ++ intros [H | ([-> | H1] & H2 & H3)];
                [| congruence | right; auto].
              left.
              destruct (limit <? S (default 0 (ages !! k0)))%nat;
                [apply elem_of_app; now left | exact H].
Qed.

Lemma age_fold_dom (detected : gset Z) (limit : nat) (ks : list Z)
    (ages : gmap Z nat) :
  NoDup ks ->
  (forall k, k ∈ ks -> k ∈ dom ages) ->
  dom (fst (fold_left (age_one detected limit) ks (ages, []))) = dom ages.
Proof.
  intros Hnd Hks. apply set_eq. intros k. rewrite !elem_of_dom.
  destruct (age_fold_spec detected limit ks Hnd (ages, []) k)
    as (Hin & Hout & _). simpl in Hin, Hout.
  destruct (decide (k ∈ ks)) as [Hk | Hk].
  - destruct (decide (k ∈ detected)) as [Hd | Hd].
    + rewrite Hout by now right. reflexivity.
    + rewrite Hin by assumption. split; [| eauto].
      intros _. apply elem_of_dom. now apply Hks.
  - rewrite Hout by now left. reflexivity.
Qed.

(** *** [update] *)

Lemma update_spec (self : TrackManager.t) (detections : list detection)
    (frame_idx : Z) :
  same_keys self ->
  exists self',
    update self detections frame_idx = Ok self' /\
    same_keys self' /\
    max_age self' = max_age self /\
    (forall t, In t (completed_tracks self) ->
               In t (completed_tracks self')) /\
    (forall id t a,
       Forall (fun d => det_id d <> id) detections ->
       tracks self !! id = Some t ->
       track_ages self !! id = Some a ->
       if (max_age self <? S a)%nat
       then tracks self' !! id = None /\
            track_ages self' !! id = None /\
            In (deactivate t) (completed_tracks self')
       else tracks self' !! id = Some t /\
            track_ages self' !! id = Some (S a)).
Proof.
  intros Hkeys. unfold update.
  destruct (detect_fold_spec frame_idx detections (self, ∅))
    as (Hk1 & Ha1 & Hc1 & Ho1).
  destruct (fold_left (detect frame_idx) detections (self, ∅))
    as [self1 detected] eqn:E1.
  cbn [fst snd] in Hk1, Ha1, Hc1, Ho1.
  specialize (Hk1 Hkeys).
  pose proof (age_fold_spec detected (max_age self1) (keys self1)
                (keys_NoDup self1) (track_ages self1, [])) as Hage.
  pose proof (age_fold_dom detected (max_age self1) (keys self1)
                (track_ages self1) (keys_NoDup self1)) as Hdom.
  destruct (fold_left (age_one detected (max_age self1)) (keys self1)
              (track_ages self1, [])) as [ages to_remove] eqn:E2.
  cbn [fst snd] in Hage, Hdom.
  set (self2 := TrackManager.mk (max_age self1) (max_history self1)
                  (tracks self1) ages (completed_tracks self1)
                  (total_tracks_created self1)
                  (total_tracks_completed self1)).
  assert (Hkeys2 : same_keys self2).
  { unfold same_keys; cbn. rewrite Hdom; [exact Hk1 |].
    intros k Hk. rewrite Hk1. now apply keys_spec. }
  destruct (remove_tracks_spec to_remove self2 Hkeys2)
    as (self' & Hrm & Hkeys' & Hage' & Hin' & Hout' & Hmono' & Harch').
  exists self'. split; [exact Hrm |].
  split; [exact Hkeys' |].
  split; [cbn in Hage'; congruence |].
  split.
  { intros t Hin. apply Hmono'. cbn. now rewrite Hc1. }
  intros id t a Hmiss Ht Ha.
  destruct (Ho1 id Hmiss) as (Ht1 & Hg1 & Hs1).
  rewrite Ht in Ht1. rewrite Ha in Hg1.
  assert (Hnd : id ∉ detected).
  { rewrite Hs1. apply not_elem_of_empty. }
  assert (Hk : id ∈ keys self1).
  { apply keys_spec, elem_of_dom. eauto. }
  destruct (Hage id) as (Hin & _ & Hrem).
  specialize (Hin Hk Hnd). rewrite Hg1 in Hin, Hrem. cbn in Hin, Hrem.
  rewrite <- Ha1.
  destruct (Nat.ltb_spec (max_age self1) (S a)) as [Hlt | Hge].
  - assert (Hr : id ∈ to_remove).
    { apply Hrem. right. auto. }
    destruct (Hin' id Hr) as [-> ->].
    split; [reflexivity | split; [reflexivity |]].
    apply (Harch' id t Hr). exact Ht1.
  - assert (Hr : id ∉ to_remove).
    { rewrite Hrem. intros [H | (_ & _ & H)]; [| lia].
      now apply elem_of_nil in H. }
    destruct (Hout' id Hr) as [-> ->]. cbn. split; assumption.
Qed.

Lemma clear_spec (self : TrackManager.t) :
  same_keys self ->
  exists self', clear self = Ok self' /\ same_keys self' /\ tracks self' = ∅.
Proof.
  intros Hkeys. unfold clear.
  destruct (remove_tracks_spec (keys self) self Hkeys)
    as (self' & Hrm & Hkeys' & _ & Hin' & Hout' & _).
  exists self'. split; [exact Hrm |]. split; [exact Hkeys' |].
  apply map_eq. intros k. rewrite lookup_empty.
  destruct (decide (k ∈ keys self)) as [Hk | Hk].
  - now destruct (Hin' k Hk).
  - destruct (Hout' k Hk) as [-> _].
    apply not_elem_of_dom. now rewrite <- keys_spec.
Qed.

Lemma run_op_same_keys (self : TrackManager.t) (o : op) :
  same_keys self ->
  exists self', run_op self o = Ok self' /\ same_keys self'.
Proof.
  intros Hkeys. destruct o as [detections frame_idx | id |]; simpl.
  - destruct (update_spec self detections frame_idx Hkeys)
      as (self' & H & Hk & _). eauto.
  - destruct (remove_track_spec self id Hkeys) as (self' & H & Hk & _). eauto.
  - destruct (clear_spec self Hkeys) as (self' & H & Hk & _). eauto.
Qed.

Lemma run_ops_same_keys (ops : list op) :
  forall self : TrackManager.t,
    same_keys self ->
    exists self', run_ops self ops = Ok self' /\ same_keys self'.
Proof.
  induction ops as [| o ops IH]; intros self Hkeys; simpl.
  - eauto.
  - destruct (run_op_same_keys self o Hkeys) as (self1 & -> & Hk1).
    apply (IH self1 Hk1).
Qed.

Lemma updates_app (frames1 frames2 : list (list detection * Z)) :
  forall self : TrackManager.t,
    updates self (frames1 ++ frames2)
    = (self' ← updates self frames1; updates self' frames2).
Proof.
  induction frames1 as [| [detections frame_idx] frames1 IH]; intros self; simpl.
  - reflexivity.
  - destruct (update self detections frame_idx) as [self1 | e]; simpl.
    + apply IH.
    + reflexivity.
Qed.

(** A track that keeps being missed stays in the manager, unchanged, as
    long as its age does not pass [max_age]. *)
Lemma updates_misses (frames : list (list detection * Z)) :
  forall (self : TrackManager.t) (id : Z) (t : VehicleTrack.t) (a : nat),
    same_keys self ->
    tracks self !! id = Some t ->
    track_ages self !! id = Some a ->
    Forall (misses id) frames ->
    (a + length frames <= max_age self)%nat ->
    exists self',
      updates self frames = Ok self' /\
      same_keys self' /\
      max_age self' = max_age self /\
      tracks self' !! id = Some t /\
      track_ages self' !! id = Some (a + length frames)%nat.
Proof.
  induction frames as [| [detections frame_idx] frames IH];
    intros self id t a Hkeys Ht Ha Hmiss Hle; simpl in *.
  - exists self. rewrite Nat.add_0_r. auto.
  - inversion Hmiss as [| ? ? Hm Hrest]; subst.
    destruct (update_spec self detections frame_idx Hkeys)
      as (self1 & Hup & Hk1 & Hage1 & _ & Hstep).
    specialize (Hstep id t a Hm Ht Ha).
    destruct (Nat.ltb_spec (max_age self) (S a)) as [Hlt | Hge]; [lia |].
    destruct Hstep as [Ht1 Ha1].
    destruct (IH self1 id t (S a) Hk1 Ht1 Ha1 Hrest) as
      (self' & Hups & Hk' & Hage' & Ht' & Ha'); [lia |].
    exists self'. rewrite Hup. simpl.
    split; [exact Hups |]. split; [exact Hk' |].
    split; [congruence |]. split; [exact Ht' |].
    rewrite Ha'. f_equal. lia.
Qed.

(** An update that detects [id] leaves it tracked with age 0: the state
    from which consecutive misses are counted. *)
Lemma detect_hit (frame_idx : Z) (acc : TrackManager.t * gset Z)
    (d : detection) :
  let acc' := detect frame_idx acc d in
  det_id d ∈ snd acc' /\
  track_ages (fst acc') !! det_id d = Some 0%nat /\
  is_Some (tracks (fst acc') !! det_id d).
Proof.
  destruct acc as [self detected]. unfold detect.
  destruct (tracks self !! det_id d) as [track |]; cbn;
    rewrite !lookup_insert_eq;
    (split; [apply elem_of_union_l; now apply elem_of_singleton | eauto]).
Qed.

Lemma detect_fold_hit (frame_idx : Z) (detections : list detection) (id : Z) :
  forall acc : TrackManager.t * gset Z,
    (exists d, In d detections /\ det_id d = id) \/
    (id ∈ snd acc /\ track_ages (fst acc) !! id = Some 0%nat /\
     is_Some (tracks (fst acc) !! id)) ->
    let acc' := fold_left (detect frame_idx) detections acc in
    id ∈ snd acc' /\ track_ages (fst acc') !! id = Some 0%nat /\
    is_Some (tracks (fst acc') !! id).
Proof.
  induction detections as [| d detections IH]; intros acc H; simpl.
  - destruct H as [(d & [] & _) | H]. exact H.
  - apply IH.
    destruct (decide (det_id d = id)) as [<- | Hne].
    + right. apply detect_hit.
    + destruct H as [(d' & [<- | Hin] & Hd') | (Hs & Ha & Ht)].
      * contradiction.
      * left. eauto.
      * right.
        destruct (detect_spec frame_idx acc d) as (_ & _ & _ & Ho).
        destruct (Ho id Hne) as (-> & -> & ->). auto.
Qed.

Lemma update_detected (self : TrackManager.t) (detections : list detection)
    (frame_idx : Z) (d : detection) :
  same_keys self ->
  In d detections ->
  exists self',
    update self detections frame_idx = Ok self' /\
    same_keys self' /\
    is_Some (tracks self' !! det_id d) /\
    track_ages self' !! det_id d = Some 0%nat.
Proof.
  intros Hkeys Hd. unfold update.
  destruct (detect_fold_spec frame_idx detections (self, ∅))
    as (Hk1 & _).
  destruct (detect_fold_hit frame_idx detections (det_id d) (self, ∅))
    as (Hs1 & Ha1 & Ht1); [left; eauto |].
  destruct (fold_left (detect frame_idx) detections (self, ∅))
    as [self1 detected] eqn:E1.
  cbn [fst snd] in Hk1, Hs1, Ha1, Ht1.
  specialize (Hk1 Hkeys).
  pose proof (age_fold_spec detected (max_age self1) (keys self1)
                (keys_NoDup self1) (track_ages self1, [])) as Hage.
  pose proof (age_fold_dom detected (max_age self1) (keys self1)
                (track_ages self1) (keys_NoDup self1)) as Hdom.
  destruct (fold_left (age_one detected (max_age self1)) (keys self1)
              (track_ages self1, [])) as [ages to_remove] eqn:E2.
  cbn [fst snd] in Hage, Hdom.
  set (self2 := TrackManager.mk (max_age self1) (max_history self1)
                  (tracks self1) ages (completed_tracks self1)
                  (total_tracks_created self1)
                  (total_tracks_completed self1)).
  assert (Hkeys2 : same_keys self2).
  { unfold same_keys; cbn. rewrite Hdom; [exact Hk1 |].
    intros k Hk. rewrite Hk1. now apply keys_spec. }
  destruct (remove_tracks_spec to_remove self2 Hkeys2)
    as (self' & Hrm & Hkeys' & _ & _ & Hout' & _).
  exists self'. split; [exact Hrm |]. split; [exact Hkeys' |].
  destruct (Hage (det_id d)) as (_ & Hout & Hrem).
  assert (Hr : det_id d ∉ to_remove).
  { rewrite Hrem. intros [H | (_ & H & _)]; [| contradiction].
    now apply elem_of_nil in H. }
  destruct (Hout' _ Hr) as [-> ->]. cbn.
  split; [exact Ht1 |].
  rewrite Hout by now right. exact Ha1.
Qed.

End TrackManagerFacts.

(** C9.  Starting from a freshly constructed manager, every sequence of
    [update], [remove_track] and [clear] calls runs without raising, and
    afterwards the ages map has exactly the keys of the tracks map. *)
Theorem C9_same_keys (max_age max_history : nat) (ops : list TrackManager.op) :
  exists self : TrackManager.t,
    TrackManager.run_ops (TrackManager.init max_age max_history) ops = Ok self /\
    dom (TrackManager.track_ages self) = dom (TrackManager.tracks self).
Proof.
  apply run_ops_same_keys.
  unfold TrackManager.same_keys, TrackManager.init; cbn.
  now rewrite !dom_empty_L.
Qed.

(** What [remove_track] archives is the track itself, marked inactive. *)
Lemma deactivate_inactive_copy (t : VehicleTrack.t) :
  inactive_copy t (TrackManager.deactivate t).
Proof. unfold inactive_copy. repeat split; reflexivity. Qed.

(** Eviction from a manager in which every track has an age and the track
    [id] is present with age 0. *)
Lemma eviction_after_misses (self : TrackManager.t) (id : Z) (t : VehicleTrack.t)
    (frames : list (list TrackManager.detection * Z))
    (frame : list TrackManager.detection * Z) :
  TrackManager.same_keys self ->
  TrackManager.tracks self !! id = Some t ->
  TrackManager.track_ages self !! id = Some 0%nat ->
  Forall (TrackManager.misses id) frames ->
  TrackManager.misses id frame ->
  length frames = TrackManager.max_age self ->
  (exists self',
     TrackManager.updates self frames = Ok self' /\
     TrackManager.tracks self' !! id = Some t /\
     TrackManager.track_ages self' !! id = Some (TrackManager.max_age self) /\
     In t (TrackManager.get_active_tracks self')) /\
  (exists self'',
     TrackManager.updates self (frames ++ [frame]) = Ok self'' /\
     TrackManager.tracks self'' !! id = None /\
     TrackManager.track_ages self'' !! id = None /\
     TrackManager.get_track self'' id = None /\
     exists archived : VehicleTrack.t,
       In archived (TrackManager.completed_tracks self'') /\
       inactive_copy t archived).
Proof.
  intros Hkeys Ht Ha Hmiss Hlast Hlen.
  destruct (updates_misses frames self id t 0 Hkeys Ht Ha Hmiss)
    as (self' & Hups & Hk' & Hage' & Ht' & Ha'); [lia |].
  simpl in Ha'. rewrite Hlen in Ha'.
  split.
  - exists self'. split; [exact Hups |]. split; [exact Ht' |].
    split; [exact Ha' |]. now apply (active_track self' id).
  - destruct frame as [detections frame_idx].
    destruct (update_spec self' detections frame_idx Hk')
      as (self'' & Hup & _ & _ & _ & Hstep).
    specialize (Hstep id t (TrackManager.max_age self) Hlast Ht' Ha').
    rewrite Hage' in Hstep.
    destruct (Nat.ltb_spec (TrackManager.max_age self)
                (S (TrackManager.max_age self))) as [_ | Hge]; [| lia].
    destruct Hstep as (Ht'' & Ha'' & Harch).
    exists self''. rewrite updates_app, Hups. simpl. rewrite Hup. simpl.
    split; [reflexivity |]. split; [exact Ht'' |]. split; [exact Ha'' |].
    split; [exact Ht'' |].
    exists (TrackManager.deactivate t).
    split; [exact Harch | apply deactivate_inactive_copy].
Qed.

(** C4.  Take any manager reached from a fresh one by [update],
    [remove_track] and [clear] calls, and an update of it whose detections
    contain a track id.  The id is then tracked.  After [max_age] further
    consecutive updates whose detections do not contain the id, the track
    is still returned by [get_active_tracks].  After one more such update,
    [max_age + 1] in all, the id is in neither the tracks map nor the ages
    map, and the archive of completed tracks holds the track itself: an
    entry with [is_active = False] whose id, histories and every other
    field are those the track had. *)
Theorem C4_eviction (max_age max_history : nat) (ops : list TrackManager.op)
    (self0 self : TrackManager.t)
    (detections : list TrackManager.detection) (frame_idx : Z)
    (d : TrackManager.detection)
    (frames : list (list TrackManager.detection * Z))
    (frame : list TrackManager.detection * Z) :
  let id := TrackManager.det_id d in
  TrackManager.run_ops (TrackManager.init max_age max_history) ops = Ok self0 ->
  TrackManager.update self0 detections frame_idx = Ok self ->
  In d detections ->
  Forall (TrackManager.misses id) frames ->
  TrackManager.misses id frame ->
  length frames = TrackManager.max_age self ->
  exists t : VehicleTrack.t,
    TrackManager.tracks self !! id = Some t /\
    (exists self',
       TrackManager.updates self frames = Ok self' /\
       TrackManager.tracks self' !! id = Some t /\
       TrackManager.track_ages self' !! id = Some (TrackManager.max_age self) /\
       In t (TrackManager.get_active_tracks self')) /\
    (exists self'',
       TrackManager.updates self (frames ++ [frame]) = Ok self'' /\
       TrackManager.tracks self'' !! id = None /\
       TrackManager.track_ages self'' !! id = None /\
       TrackManager.get_track self'' id = None /\
       exists archived : VehicleTrack.t,
         In archived (TrackManager.completed_tracks self'') /\
         inactive_copy t archived).
Proof.
  intros id Hrun Hup Hd Hmiss Hlast Hlen.
  assert (Hkeys0 : TrackManager.same_keys self0).
  { destruct (run_ops_same_keys ops (TrackManager.init max_age max_history))
      as (self0' & Hrun' & Hk).
    - unfold TrackManager.same_keys, TrackManager.init; cbn.
      now rewrite !dom_empty_L.
    - congruence. }
  destruct (update_detected self0 detections frame_idx d Hkeys0 Hd)
    as (self1 & Hup1 & Hkeys & [t Ht] & Ha).
  assert (self1 = self) as -> by congruence.
  exists t. split; [exact Ht |].
  now apply eviction_after_misses.
Qed.

(** C4, witness: a fresh manager with [max_age = 1], an update that
    detects track 7, one empty frame, and then a second empty frame. *)
Lemma C4_eviction_witness :
  let d := TrackManager.mkDet 7 (mkBBox 0 0 1 1) None None in
  exists self : TrackManager.t,
    TrackManager.update (TrackManager.init 1 30) [d] 0 = Ok self /\
    exists t : VehicleTrack.t,
      TrackManager.tracks self !! 7%Z = Some t /\
      (exists self',
         TrackManager.updates self [([], 1%Z)] = Ok self' /\
         TrackManager.tracks self' !! 7%Z = Some t /\
         TrackManager.track_ages self' !! 7%Z
         = Some (TrackManager.max_age self) /\
         In t (TrackManager.get_active_tracks self')) /\
      (exists self'',
         TrackManager.updates self ([([], 1%Z)] ++ [([], 2%Z)]) = Ok self'' /\
         TrackManager.tracks self'' !! 7%Z = None /\
         TrackManager.track_ages self'' !! 7%Z = None /\
         TrackManager.get_track self'' 7 = None /\
         exists archived : VehicleTrack.t,
           In archived (TrackManager.completed_tracks self'') /\
           inactive_copy t archived).
Proof.
  intros d. eexists. split; [reflexivity |].
  apply (C4_eviction 1 30 [] (TrackManager.init 1 30) _ [d] 0 d
           [([], 1%Z)] ([], 2%Z)).
  - reflexivity.
  - reflexivity.
  - simpl. now left.
  - repeat constructor.
  - constructor.
  - reflexivity.
Defined.

(** ** The model on the scenarios of the specification *)

(** A box centred at (100, 100) followed by one centred at (110, 100):
    one speed sample, 10 pixels per frame. *)
Example pixel_speed_scenario :
  let o1 := VehicleTrack.mkObs (mkBBox 90 90 110 110) 0 None None in
  let o2 := VehicleTrack.mkObs (mkBBox 100 90 120 110) 1 None None in
  Deque.items (VehicleTrack.speeds_px (VehicleTrack.after_updates 1 30 [o1; o2]))
  = [10%R].
Proof.
  cbv zeta. unfold VehicleTrack.after_updates, VehicleTrack.observe,
    VehicleTrack.update, VehicleTrack.init, VehicleTrack.compute_speed_pixels,
    VehicleTrack.compute_centroid, Deque.append, Deque.empty, Deque.len.
  simpl. f_equal.
  replace (((100 + 120) / 2 - (90 + 110) / 2) * (((100 + 120) / 2 - (90 + 110) / 2) * 1)
           + ((90 + 110) / 2 - (90 + 110) / 2) * (((90 + 110) / 2 - (90 + 110) / 2) * 1))%R
    with (10 * 10)%R by lra.
  apply sqrt_square. lra.
Qed.

(** 10 pixels per frame at 30 frames per second and 20 pixels per meter is
    54 km/h. *)
Example real_speed_scenario :
  (est ← PixelSpeedEstimator.init 30 20;
   PixelSpeedEstimator.pixels_to_speed est (PixelSpeedEstimator.PyFloat 10))
  = Ok (PixelSpeedEstimator.Speed 54).
Proof.
  unfold PixelSpeedEstimator.init. rewrite SpeedEstimator_init_eq.
  destruct (decide (30 = 0)%R) as [H | _]; [lra |].
  simpl. unfold PixelSpeedEstimator.pixels_to_speed. simpl.
  rewrite truediv_nonzero by lra. simpl. do 2 f_equal. lra.
Qed.

(** 60 vehicles with [max_vehicles = 50]: the count component is clamped
    to 1, so with no box area the density score is 1/2. *)
Example density_clamp_scenario :
  CongestionDetector.compute_density_score CongestionDetector.default 60 0
  = Ok (1 / 2)%R.
Proof.
  unfold CongestionDetector.compute_density_score. simpl.
  rewrite !truediv_nonzero by lra. simpl. f_equal.
  rewrite (Rmin_right (60 / 50) 1) by lra.
  rewrite (Rmin_left (0 / (640 * 480)) 1) by lra.
  lra.
Qed.

(** A bounded deque drops its oldest element, and stays empty when its
    bound is 0. *)
Example deque_scenario :
  Deque.items (Deque.append (Deque.append (Deque.append (Deque.empty 2) 1%nat) 2%nat) 3%nat)
  = [2%nat; 3%nat] /\
  Deque.items (Deque.append (Deque.empty 0) 1%nat) = [].
Proof. split; reflexivity. Qed.

(** * Further properties of the modelled code *)

(** ** Bounded deques hold the most recent elements *)

Lemma lastn_length {A : Type} (n : nat) (l : list A) :
  length (Deque.lastn n l) = Nat.min (length l) n.
Proof. unfold Deque.lastn. rewrite length_skipn. lia. Qed.

Lemma lastn_all {A : Type} (n : nat) (l : list A) :
  (length l <= n)%nat -> Deque.lastn n l = l.
Proof.
  intros H. unfold Deque.lastn.
  replace (length l - n)%nat with 0%nat by lia. reflexivity.
Qed.

Lemma skipn_snoc {A : Type} (k : nat) (l : list A) (x : A) :
  (k <= length l)%nat -> skipn k (l ++ [x]) = skipn k l ++ [x].
Proof.
  revert l. induction k as [| k IH]; intros l Hk.
  - reflexivity.
  - destruct l as [| a l]; simpl in *; [lia |]. apply IH. lia.
Qed.

Lemma skipn_skipn_add {A : Type} (j k : nat) (l : list A) :
  skipn j (skipn k l) = skipn (k + j) l.
Proof.
  revert l. induction k as [| k IH]; intros l; simpl.
  - reflexivity.
  - destruct l as [| a l]; simpl.
    + now rewrite skipn_nil.
    + apply IH.
Qed.

Lemma lastn_snoc {A : Type} (n : nat) (l : list A) (x : A) :
  Deque.lastn n (Deque.lastn n l ++ [x]) = Deque.lastn n (l ++ [x]).
Proof.
  unfold Deque.lastn at 1 3.
  rewrite !length_app, lastn_length. cbn [length].
  unfold Deque.lastn.
  destruct (Nat.le_gt_cases (length l) n) as [Hle | Hgt].
  - replace (length l - n)%nat with 0%nat by lia. cbn [skipn].
    f_equal. lia.
  - replace (Nat.min (length l) n + 1 - n)%nat with 1%nat by lia.
    destruct n as [| n].
    + replace (length l + 1 - 0)%nat with (S (length l)) by lia.
      rewrite Nat.sub_0_r.
      rewrite (skipn_all2 l) by lia. cbn.
      rewrite skipn_all2; [reflexivity |]. rewrite length_app. cbn. lia.
    + rewrite skipn_snoc by (rewrite length_skipn; lia).
      rewrite skipn_skipn_add.
      rewrite <- skipn_snoc by lia. f_equal. lia.
Qed.

Lemma deque_append_items {A : Type} (d : Deque.t A) (x : A) :
  (Deque.len d <= Deque.maxlen d)%nat ->
  Deque.items (Deque.append d x)
  = Deque.lastn (Deque.maxlen d) (Deque.items d ++ [x]).
Proof.
  unfold Deque.len, Deque.append, Deque.lastn; cbn [Deque.items Deque.maxlen].
  intros Hle. rewrite length_app. cbn [length].
  destruct (Nat.ltb_spec (Deque.maxlen d) (length (Deque.items d) + 1))
    as [Hlt | Hge].
  - replace (length (Deque.items d) + 1 - Deque.maxlen d)%nat with 1%nat by lia.
    now destruct (Deque.items d ++ [x]).
  - replace (length (Deque.items d) + 1 - Deque.maxlen d)%nat with 0%nat by lia.
    reflexivity.
Qed.

Lemma lastn_map {A B : Type} (f : A -> B) (n : nat) (l : list A) :
  Deque.lastn n (map f l) = map f (Deque.lastn n l).
Proof. unfold Deque.lastn. now rewrite length_map, skipn_map. Qed.

Lemma last_lastn {A : Type} (n : nat) (l : list A) :
  (0 < n)%nat -> last (Deque.lastn n l) = last l.
Proof.
  intros Hn. destruct l as [| a l] using rev_ind; [reflexivity |].
  unfold Deque.lastn. rewrite length_app. cbn [length].
  rewrite skipn_snoc by lia. now rewrite !last_snoc.
Qed.

(** ** Track histories *)

Section TrackContents.

Import VehicleTrack.

Lemma update_histories (cap : nat) (pre : list observation) (o : observation)
    (t : VehicleTrack.t) :
  Deque.maxlen (bboxes t) = cap /\
  Deque.maxlen (centroids t) = cap /\
  Deque.maxlen (frame_indices t) = cap /\
  Deque.items (bboxes t) = Deque.lastn cap (map obs_bbox pre) /\
  Deque.items (centroids t)
  = Deque.lastn cap (map (fun o => compute_centroid (obs_bbox o)) pre) /\
  Deque.items (frame_indices t) = Deque.lastn cap (map obs_frame pre) ->
  let t' := observe t o in
  Deque.maxlen (bboxes t') = cap /\
  Deque.maxlen (centroids t') = cap /\
  Deque.maxlen (frame_indices t') = cap /\
  Deque.items (bboxes t') = Deque.lastn cap (map obs_bbox (pre ++ [o])) /\
  Deque.items (centroids t')
  = Deque.lastn cap (map (fun o => compute_centroid (obs_bbox o)) (pre ++ [o])) /\
  Deque.items (frame_indices t') = Deque.lastn cap (map obs_frame (pre ++ [o])).
Proof.
  intros (Hmb & Hmc & Hmf & Hb & Hc & Hf) t'.
  assert (Hfields :
    bboxes t' = Deque.append (bboxes t) (obs_bbox o) /\
    centroids t' = Deque.append (centroids t) (compute_centroid (obs_bbox o)) /\
    frame_indices t' = Deque.append (frame_indices t) (obs_frame o)).
  { subst t'. unfold observe, update.
    destruct (2 <=? _)%nat; cbn; auto. }
  destruct Hfields as (-> & -> & ->).
  rewrite !deque_append_maxlen.
  rewrite !deque_append_items;
    try (unfold Deque.len; rewrite ?Hb, ?Hc, ?Hf, lastn_length; lia).
  rewrite Hmb, Hmc, Hmf, Hb, Hc, Hf, !map_app. cbn [map].
  rewrite !lastn_snoc. repeat split; reflexivity.
Qed.

Lemma fold_histories (cap : nat) (obs : list observation) :
  forall (pre : list observation) (t : VehicleTrack.t),
    Deque.maxlen (bboxes t) = cap /\
    Deque.maxlen (centroids t) = cap /\
    Deque.maxlen (frame_indices t) = cap /\
    Deque.items (bboxes t) = Deque.lastn cap (map obs_bbox pre) /\
    Deque.items (centroids t)
    = Deque.lastn cap (map (fun o => compute_centroid (obs_bbox o)) pre) /\
    Deque.items (frame_indices t) = Deque.lastn cap (map obs_frame pre) ->
    let t' := fold_left observe obs t in
    Deque.items (bboxes t') = Deque.lastn cap (map obs_bbox (pre ++ obs)) /\
    Deque.items (centroids t')
    = Deque.lastn cap (map (fun o => compute_centroid (obs_bbox o)) (pre ++ obs)) /\
    Deque.items (frame_indices t') = Deque.lastn cap (map obs_frame (pre ++ obs)).
Proof.
  induction obs as [| o obs IH]; intros pre t H; simpl.
  - rewrite app_nil_r. tauto.
  - replace (pre ++ o :: obs) with ((pre ++ [o]) ++ obs)
      by now rewrite <- app_assoc.
    apply IH. now apply update_histories.
Qed.

End TrackContents.

Lemma after_updates_histories (track_id : Z) (max_history : nat)
    (obs : list VehicleTrack.observation) :
  let t := VehicleTrack.after_updates track_id max_history obs in
  Deque.items (VehicleTrack.bboxes t)
  = Deque.lastn max_history (map VehicleTrack.obs_bbox obs) /\
  Deque.items (VehicleTrack.frame_indices t)
  = Deque.lastn max_history (map VehicleTrack.obs_frame obs) /\
  Deque.items (VehicleTrack.centroids t)
  = map VehicleTrack.compute_centroid (Deque.items (VehicleTrack.bboxes t)) /\
  Deque.len (VehicleTrack.bboxes t) = Nat.min (length obs) max_history /\
  Deque.len (VehicleTrack.centroids t) = Deque.len (VehicleTrack.bboxes t) /\
  Deque.len (VehicleTrack.frame_indices t) = Deque.len (VehicleTrack.bboxes t).
Proof.
  intros t.
  destruct (fold_histories max_history obs []
              (VehicleTrack.init track_id max_history)) as (Hb & Hc & Hf).
  { unfold VehicleTrack.init; cbn. repeat split; reflexivity. }
  cbn [app] in Hb, Hc, Hf.
  fold (VehicleTrack.after_updates track_id max_history obs) in Hb, Hc, Hf.
  fold t in Hb, Hc, Hf.
  assert (Hc' : Deque.items (VehicleTrack.centroids t)
                = map VehicleTrack.compute_centroid
                    (Deque.items (VehicleTrack.bboxes t))).
  { rewrite Hc, Hb, <- lastn_map, map_map. reflexivity. }
  split; [exact Hb |]. split; [exact Hf |]. split; [exact Hc' |].
  unfold Deque.len. rewrite Hc', Hf, Hb, !length_map, !lastn_length, !length_map.
  auto.
Qed.

(** X1.  After any sequence of updates the bounding-box, centroid and
    frame-index histories of a track hold exactly the most recent
    [max_history] observations, oldest first; they have the same length,
    never above [max_history], and the centroid history is, entry by entry,
    the centroids of the stored boxes. *)
Theorem X1_histories_hold_latest (track_id : Z) (max_history : nat)
    (obs : list VehicleTrack.observation) :
  let t := VehicleTrack.after_updates track_id max_history obs in
  Deque.items (VehicleTrack.bboxes t)
  = Deque.lastn max_history (map VehicleTrack.obs_bbox obs) /\
  Deque.items (VehicleTrack.frame_indices t)
  = Deque.lastn max_history (map VehicleTrack.obs_frame obs) /\
  Deque.items (VehicleTrack.centroids t)
  = map VehicleTrack.compute_centroid (Deque.items (VehicleTrack.bboxes t)) /\
  Deque.len (VehicleTrack.bboxes t) = Nat.min (length obs) max_history /\
  Deque.len (VehicleTrack.centroids t) = Deque.len (VehicleTrack.bboxes t) /\
  Deque.len (VehicleTrack.frame_indices t) = Deque.len (VehicleTrack.bboxes t).
Proof. apply after_updates_histories. Qed.

(** X2.  For a track with a history bound of at least 1,
    [get_current_bbox] is the box of the latest observation and
    [get_current_centroid] is its centroid (both are [None] before the
    first observation). *)
Theorem X2_current_is_latest (track_id : Z) (max_history : nat)
    (obs : list VehicleTrack.observation) :
  (0 < max_history)%nat ->
  let t := VehicleTrack.after_updates track_id max_history obs in
  VehicleTrack.get_current_bbox t = last (map VehicleTrack.obs_bbox obs) /\
  VehicleTrack.get_current_centroid t
  = VehicleTrack.compute_centroid <$> last (map VehicleTrack.obs_bbox obs).
Proof.
  intros Hcap t.
  destruct (after_updates_histories track_id max_history obs)
    as (Hb & _ & Hc & _).
  fold t in Hb, Hc.
  unfold VehicleTrack.get_current_bbox, VehicleTrack.get_current_centroid,
    Deque.last_opt.
  rewrite Hc, Hb. rewrite <- lastn_map, !last_lastn by exact Hcap.
  split; [reflexivity |].
  generalize (map VehicleTrack.obs_bbox obs). intros l.
  destruct l as [| b l] using rev_ind; [reflexivity |].
  rewrite map_app. cbn [map]. now rewrite !last_snoc.
Qed.

(** X2, witness: bound 30 and two observations. *)
Lemma X2_current_is_latest_witness :
  let o1 := VehicleTrack.mkObs (mkBBox 0 0 2 2) 0 None None in
  let o2 := VehicleTrack.mkObs (mkBBox 1 0 3 2) 1 None None in
  let t := VehicleTrack.after_updates 7 30 [o1; o2] in
  VehicleTrack.get_current_bbox t = Some (mkBBox 1 0 3 2) /\
  VehicleTrack.get_current_centroid t
  = Some (VehicleTrack.compute_centroid (mkBBox 1 0 3 2)).
Proof.
  intros o1 o2 t.
  apply (X2_current_is_latest 7 30 [o1; o2]). lia.
Defined.

Section TrackBookkeeping.

Import VehicleTrack.

Lemma update_fields (t : VehicleTrack.t) (bbox : BBox) (frame_idx : Z)
    (cid : option Z) (cname : option string) :
  let t' := update t bbox frame_idx cid cname in
  track_id t' = track_id t /\
  max_history t' = max_history t /\
  is_active t' = is_active t /\
  total_frames t' = S (total_frames t) /\
  first_frame t'
  = (match first_frame t with None => Some frame_idx | Some f => Some f end) /\
  last_frame t' = Some frame_idx /\
  class_id t' = or_keep cid (class_id t) /\
  class_name t' = or_keep cname (class_name t) /\
  centroids t' = Deque.append (centroids t) (compute_centroid bbox) /\
  speeds_real t' = speeds_real t.
Proof.
  unfold update. destruct (2 <=? _)%nat; cbn; repeat split; reflexivity.
Qed.

Lemma last_omap_snoc {A B : Type} (f : A -> option B) (l : list A) (a : A) :
  last (omap f (l ++ [a])) = or_keep (f a) (last (omap f l)).
Proof.
  rewrite omap_app. cbn. destruct (f a) as [b |]; cbn.
  - apply last_snoc.
  - now rewrite app_nil_r.
Qed.

Lemma fold_bookkeeping (id : Z) (cap : nat) (obs : list observation) :
  forall (pre : list observation) (t : VehicleTrack.t),
    track_id t = id /\ max_history t = cap /\ is_active t = true /\
    total_frames t = length pre /\
    first_frame t = head (map obs_frame pre) /\
    last_frame t = last (map obs_frame pre) /\
    class_id t = last (omap obs_class_id pre) /\
    class_name t = last (omap obs_class_name pre) ->
    let t' := fold_left observe obs t in
    track_id t' = id /\ max_history t' = cap /\ is_active t' = true /\
    total_frames t' = length (pre ++ obs) /\
    first_frame t' = head (map obs_frame (pre ++ obs)) /\
    last_frame t' = last (map obs_frame (pre ++ obs)) /\
    class_id t' = last (omap obs_class_id (pre ++ obs)) /\
    class_name t' = last (omap obs_class_name (pre ++ obs)).
Proof.
  induction obs as [| o obs IH]; intros pre t H; simpl.
  - rewrite app_nil_r. exact H.
  - replace (pre ++ o :: obs) with ((pre ++ [o]) ++ obs)
      by now rewrite <- app_assoc.
    apply IH. clear IH. unfold observe.
    destruct H as (Hid & Hcap & Hact & Htot & Hfirst & Hlast & Hcid & Hcname).
    destruct (update_fields t (obs_bbox o) (obs_frame o) (obs_class_id o)
                (obs_class_name o))
      as (-> & -> & -> & -> & -> & -> & -> & -> & _).
    rewrite Hfirst, Hcid, Hcname, Htot, !last_omap_snoc, map_app, length_app.
    cbn [map length]. rewrite last_snoc.
    repeat split; try assumption; try lia.
    destruct pre; reflexivity.
Qed.

End TrackBookkeeping.

(** X3.  After a track is created and updated once per observation:
    [total_frames] is the number of observations, [first_frame] and
    [last_frame] are the frame indices of the first and of the latest
    observation, the class id and class name are those of the latest
    observation that carried one, and [track_id], [max_history] and
    [is_active] are as at construction. *)
Theorem X3_track_bookkeeping (track_id : Z) (max_history : nat)
    (obs : list VehicleTrack.observation) :
  let t := VehicleTrack.after_updates track_id max_history obs in
  VehicleTrack.track_id t = track_id /\
  VehicleTrack.max_history t = max_history /\
  VehicleTrack.is_active t = true /\
  VehicleTrack.total_frames t = length obs /\
  VehicleTrack.first_frame t = head (map VehicleTrack.obs_frame obs) /\
  VehicleTrack.last_frame t = last (map VehicleTrack.obs_frame obs) /\
  VehicleTrack.class_id t = last (omap VehicleTrack.obs_class_id obs) /\
  VehicleTrack.class_name t = last (omap VehicleTrack.obs_class_name obs).
Proof.
  apply (fold_bookkeeping track_id max_history obs []).
  unfold VehicleTrack.init; cbn. repeat split; reflexivity.
Qed.

(** ** Speeds of a track *)

Lemma sum_nonneg (xs : list R) :
  Forall (fun x => 0 <= x)%R xs -> (0 <= Py.sum xs)%R.
Proof.
  induction 1 as [| x xs Hx _ IH].
  - unfold Py.sum. simpl. lra.
  - rewrite sum_cons. lra.
Qed.

Lemma np_mean_nonneg (xs : list R) :
  Forall (fun x => 0 <= x)%R xs -> (0 <= np_mean xs)%R.
Proof.
  intros Hall. unfold np_mean. destruct xs as [| x xs].
  - unfold Py.sum. simpl. unfold Rdiv. rewrite Rmult_0_l. lra.
  - apply div_nonneg; [now apply sum_nonneg |].
    apply lt_0_INR. simpl. lia.
Qed.

Lemma Forall_skipn' {A : Type} (P : A -> Prop) (n : nat) (l : list A) :
  Forall P l -> Forall P (skipn n l).
Proof.
  revert l. induction n as [| n IH]; intros l H; [exact H |].
  destruct H; simpl; [constructor | now apply IH].
Qed.

Lemma Forall_recent {A : Type} (P : A -> Prop) (window : nat) (l : list A) :
  Forall P l -> Forall P (VehicleTrack.recent window l).
Proof.
  intros H. unfold VehicleTrack.recent.
  destruct window; [exact H | now apply Forall_skipn'].
Qed.

Lemma recent_nonempty {A : Type} (window : nat) (l : list A) :
  l <> [] -> VehicleTrack.recent window l <> [].
Proof.
  intros Hne E. apply (f_equal (@length A)) in E.
  unfold VehicleTrack.recent in E.
  destruct l as [| a l]; [congruence |].
  destruct window; [discriminate |].
  rewrite length_skipn in E. simpl in E. lia.
Qed.

Lemma Forall_deque_append {A : Type} (P : A -> Prop) (d : Deque.t A) (x : A) :
  Forall P (Deque.items d) -> P x -> Forall P (Deque.items (Deque.append d x)).
Proof.
  intros Hd Hx.
  assert (H : Forall P (Deque.items d ++ [x])).
  { apply Forall_app. split; [exact Hd | now constructor]. }
  destruct (deque_append_items_cases d x) as [-> | ->];
    [exact H | now apply Forall_tl].
Qed.

Lemma compute_speed_pixels_nonneg (t : VehicleTrack.t) :
  (0 <= VehicleTrack.compute_speed_pixels t)%R.
Proof.
  unfold VehicleTrack.compute_speed_pixels.
  destruct (rev _) as [| [x2 y2] [| [x1 y1] ?]]; try lra.
  apply sqrt_pos.
Qed.

Lemma update_speeds_cases (t : VehicleTrack.t) (bbox : BBox) (frame_idx : Z)
    (cid : option Z) (cname : option string) :
  let t' := VehicleTrack.update t bbox frame_idx cid cname in
  VehicleTrack.speeds_px t' = VehicleTrack.speeds_px t \/
  exists t1,
    VehicleTrack.centroids t1 = VehicleTrack.centroids t' /\
    VehicleTrack.speeds_px t'
    = Deque.append (VehicleTrack.speeds_px t)
        (VehicleTrack.compute_speed_pixels t1).
Proof.
  unfold VehicleTrack.update.
  destruct (2 <=? _)%nat; cbn; [right | now left].
  eexists. split; [| reflexivity]. reflexivity.
Qed.

Lemma update_speeds_eq (t : VehicleTrack.t) (bbox : BBox) (frame_idx : Z)
    (cid : option Z) (cname : option string) :
  let centroids' :=
    Deque.append (VehicleTrack.centroids t) (VehicleTrack.compute_centroid bbox) in
  exists t1,
    VehicleTrack.centroids t1 = centroids' /\
    VehicleTrack.speeds_px (VehicleTrack.update t bbox frame_idx cid cname)
    = if (2 <=? Deque.len centroids')%nat
      then Deque.append (VehicleTrack.speeds_px t)
             (VehicleTrack.compute_speed_pixels t1)
      else VehicleTrack.speeds_px t.
Proof.
  unfold VehicleTrack.update. cbn zeta.
  eexists. split; [| destruct (2 <=? _)%nat; cbn; reflexivity].
  reflexivity.
Qed.

Lemma update_speeds_nonneg (t : VehicleTrack.t) (bbox : BBox) (frame_idx : Z)
    (cid : option Z) (cname : option string) :
  Forall (fun s => 0 <= s)%R (Deque.items (VehicleTrack.speeds_px t)) ->
  Forall (fun s => 0 <= s)%R
    (Deque.items
       (VehicleTrack.speeds_px (VehicleTrack.update t bbox frame_idx cid cname))).
Proof.
  intros H.
  destruct (update_speeds_cases t bbox frame_idx cid cname)
    as [-> | (t1 & _ & ->)]; [exact H |].
  apply Forall_deque_append; [exact H | apply compute_speed_pixels_nonneg].
Qed.

Lemma after_updates_speeds_nonneg (track_id : Z) (max_history : nat)
    (obs : list VehicleTrack.observation) :
  Forall (fun s => 0 <= s)%R
    (Deque.items
       (VehicleTrack.speeds_px
          (VehicleTrack.after_updates track_id max_history obs))).
Proof.
  unfold VehicleTrack.after_updates.
  assert (H0 : Forall (fun s => 0 <= s)%R
                 (Deque.items (VehicleTrack.speeds_px
                                 (VehicleTrack.init track_id max_history))))
    by constructor.
  revert H0. generalize (VehicleTrack.init track_id max_history).
  induction obs as [| o obs IH]; intros t Ht; simpl; [exact Ht |].
  apply IH. now apply update_speeds_nonneg.
Qed.

Lemma average_speed_nonneg (t : VehicleTrack.t) (window : nat) :
  Forall (fun s => 0 <= s)%R (Deque.items (VehicleTrack.speeds_px t)) ->
  (0 <= VehicleTrack.get_average_speed_pixels t window)%R.
Proof.
  intros H. unfold VehicleTrack.get_average_speed_pixels.
  destruct (Deque.items (VehicleTrack.speeds_px t)) as [| s l] eqn:E; [lra |].
  apply np_mean_nonneg. now apply Forall_recent.
Qed.

(** X4.  No update ever records a negative speed: after any sequence of
    updates every sample of the speed history is non-negative, and so is
    the average speed over any window. *)
Theorem X4_speeds_nonnegative (track_id : Z) (max_history window : nat)
    (obs : list VehicleTrack.observation) :
  let t := VehicleTrack.after_updates track_id max_history obs in
  Forall (fun s => 0 <= s)%R (Deque.items (VehicleTrack.speeds_px t)) /\
  (0 <= VehicleTrack.get_average_speed_pixels t window)%R.
Proof.
  intros t. split.
  - apply after_updates_speeds_nonneg.
  - apply average_speed_nonneg, after_updates_speeds_nonneg.
Qed.

Lemma average_speed_bounds (t : VehicleTrack.t) (window : nat) (lo hi : R) :
  Deque.items (VehicleTrack.speeds_px t) <> [] ->
  Forall (fun s => lo <= s <= hi)%R (Deque.items (VehicleTrack.speeds_px t)) ->
  (lo <= VehicleTrack.get_average_speed_pixels t window <= hi)%R.
Proof.
  intros Hne H. unfold VehicleTrack.get_average_speed_pixels.
  destruct (Deque.items (VehicleTrack.speeds_px t)) as [| s l] eqn:E;
    [congruence |].
  apply np_mean_bounds; [now apply recent_nonempty | now apply Forall_recent].
Qed.

(** X5.  The average speed of a track over any window lies between the
    smallest and the largest stored speed sample; a track without samples
    has average speed 0. *)
Theorem X5_average_speed_bounds (t : VehicleTrack.t) (window : nat)
    (lo hi : R) :
  (Deque.items (VehicleTrack.speeds_px t) = [] ->
   VehicleTrack.get_average_speed_pixels t window = 0%R) /\
  (Deque.items (VehicleTrack.speeds_px t) <> [] ->
   Forall (fun s => lo <= s <= hi)%R (Deque.items (VehicleTrack.speeds_px t)) ->
   (lo <= VehicleTrack.get_average_speed_pixels t window <= hi)%R).
Proof.
  split.
  - intros E. unfold VehicleTrack.get_average_speed_pixels. now rewrite E.
  - apply average_speed_bounds.
Qed.

(** X5, witness: a track whose speed history holds 3, 5 and 4; the window
    5 average lies in [3, 5]. *)
Lemma X5_average_speed_bounds_witness :
  let t :=
    VehicleTrack.mk 1 30 (Deque.empty 30) (Deque.empty 30) (Deque.empty 30)
      (Deque.mk [3; 5; 4]%R 30) (Deque.empty 30) None None None None 4 true in
  (3 <= VehicleTrack.get_average_speed_pixels t 5 <= 5)%R.
Proof.
  intros t.
  apply (proj2 (X5_average_speed_bounds t 5 3 5)).
  - discriminate.
  - simpl. repeat constructor; lra.
Defined.

Lemma smoothing_fold_bounds (alpha lo hi : R) (rest : list R) :
  (0 <= alpha <= 1)%R ->
  Forall (fun s => lo <= s <= hi)%R rest ->
  forall first : R,
    (lo <= first <= hi)%R ->
    (lo <= fold_left (fun smoothed speed =>
                        alpha * speed + (1 - alpha) * smoothed)%R rest first
     <= hi)%R.
Proof.
  intros Ha Hall. induction Hall as [| s rest Hs _ IH]; intros first Hf; simpl.
  - exact Hf.
  - apply IH. split; nra.
Qed.

(** X6.  For a smoothing factor between 0 and 1 the exponentially smoothed
    speed of a track lies between the smallest and the largest stored speed
    sample; a track without samples has smoothed speed 0. *)
Theorem X6_smoothed_speed_bounds (t : VehicleTrack.t) (alpha lo hi : R) :
  (0 <= alpha <= 1)%R ->
  (Deque.items (VehicleTrack.speeds_px t) = [] ->
   VehicleTrack.get_smoothed_speed_pixels t alpha = 0%R) /\
  (Deque.items (VehicleTrack.speeds_px t) <> [] ->
   Forall (fun s => lo <= s <= hi)%R (Deque.items (VehicleTrack.speeds_px t)) ->
   (lo <= VehicleTrack.get_smoothed_speed_pixels t alpha <= hi)%R).
Proof.
  intros Ha. unfold VehicleTrack.get_smoothed_speed_pixels. split.
  - intros E. now rewrite E.
  - intros Hne Hall.
    destruct (Deque.items (VehicleTrack.speeds_px t)) as [| s l]; [congruence |].
    inversion Hall; subst. now apply smoothing_fold_bounds.
Qed.

(** X6, witness: speeds 3, 5, 4 and the default factor 0.3. *)
Lemma X6_smoothed_speed_bounds_witness :
  let t :=
    VehicleTrack.mk 1 30 (Deque.empty 30) (Deque.empty 30) (Deque.empty 30)
      (Deque.mk [3; 5; 4]%R 30) (Deque.empty 30) None None None None 4 true in
  (3 <= VehicleTrack.get_smoothed_speed_pixels t (3 / 10) <= 5)%R.
Proof.
  intros t.
  assert (Ha : (0 <= 3 / 10 <= 1)%R) by lra.
  apply (proj2 (X6_smoothed_speed_bounds t (3 / 10) 3 5 Ha)).
  - discriminate.
  - simpl. repeat constructor; lra.
Defined.

(** ** Trajectory of a track *)

Lemma segments_snoc {A : Type} (l : list A) (p c : A) :
  VehicleTrack.segments ((l ++ [p]) ++ [c])
  = VehicleTrack.segments (l ++ [p]) ++ [(p, c)].
Proof.
  induction l as [| a l IH].
  - reflexivity.
  - destruct l as [| b l].
    + reflexivity.
    + change (VehicleTrack.segments (((a :: b :: l) ++ [p]) ++ [c]))
        with ((a, b) :: VehicleTrack.segments (((b :: l) ++ [p]) ++ [c])).
      change (VehicleTrack.segments ((a :: b :: l) ++ [p]))
        with ((a, b) :: VehicleTrack.segments ((b :: l) ++ [p])).
      rewrite IH. reflexivity.
Qed.

Lemma segments_length {A : Type} (l : list A) :
  length (VehicleTrack.segments l) = (length l - 1)%nat.
Proof.
  induction l as [| a l IH]; [reflexivity |].
  destruct l as [| b l]; [reflexivity |].
  change (VehicleTrack.segments (a :: b :: l))
    with ((a, b) :: VehicleTrack.segments (b :: l)).
  cbn [length] in *. lia.
Qed.

Lemma fold_left_add_map {A : Type} (f : A -> R) (l : list A) (a : R) :
  fold_left (fun total x => total + f x)%R l a = fold_left Rplus (map f l) a.
Proof.
  revert a. induction l as [| x l IH]; intros a; simpl; [reflexivity |].
  apply IH.
Qed.

Lemma speed_of_last_two (t : VehicleTrack.t) (l : list (R * R)) (p c : R * R) :
  Deque.items (VehicleTrack.centroids t) = (l ++ [p]) ++ [c] ->
  VehicleTrack.compute_speed_pixels t = VehicleTrack.distance p c.
Proof.
  intros E. unfold VehicleTrack.compute_speed_pixels, VehicleTrack.distance.
  rewrite E, !rev_app_distr. cbn.
  destruct p as [x1 y1], c as [x2 y2]. reflexivity.
Qed.

Section TrackTrajectory.

Import VehicleTrack.

(** The speed samples are the lengths of the stored segments. *)
Lemma update_segments (cap : nat) (t : VehicleTrack.t) (o : observation) :
  Deque.maxlen (centroids t) = cap ->
  Deque.maxlen (speeds_px t) = cap ->
  (Deque.len (centroids t) < cap)%nat ->
  Deque.items (speeds_px t)
  = map (fun seg => distance (fst seg) (snd seg))
        (segments (Deque.items (centroids t))) ->
  let t' := observe t o in
  Deque.maxlen (centroids t') = cap /\
  Deque.maxlen (speeds_px t') = cap /\
  Deque.len (centroids t') = S (Deque.len (centroids t)) /\
  Deque.items (speeds_px t')
  = map (fun seg => distance (fst seg) (snd seg))
        (segments (Deque.items (centroids t'))).
Proof.
  intros Hmc Hms Hlen Hseg. unfold observe.
  set (c := compute_centroid (obs_bbox o)).
  assert (Hitems : Deque.items (Deque.append (centroids t) c)
                   = Deque.items (centroids t) ++ [c]).
  { rewrite deque_append_items by (unfold Deque.len in *; lia).
    apply lastn_all. rewrite length_app. unfold Deque.len in Hlen.
    cbn [length]. lia. }
  assert (Hlen' : Deque.len (Deque.append (centroids t) c)
                  = S (Deque.len (centroids t))).
  { unfold Deque.len. rewrite Hitems, length_app. cbn [length]. lia. }
  destruct (update_fields t (obs_bbox o) (obs_frame o) (obs_class_id o)
              (obs_class_name o)) as (_ & _ & _ & _ & _ & _ & _ & _ & Hc & _).
  fold c in Hc.
  destruct (update_speeds_eq t (obs_bbox o) (obs_frame o) (obs_class_id o)
              (obs_class_name o)) as (t1 & Ht1 & Hs).
  fold c in Ht1, Hs. rewrite Hlen' in Hs.
  rewrite Hc, Hs, deque_append_maxlen, Hlen', Hitems.
  split; [exact Hmc |].
  destruct (Deque.items (centroids t)) as [| a l] eqn:El using rev_ind.
  - (* first observation: no sample is added *)
    unfold Deque.len. rewrite El. cbn [length Nat.leb].
    split; [exact Hms |]. split; [reflexivity |]. exact Hseg.
  - clear IHl.
    assert (H2 : (2 <=? S (Deque.len (centroids t)))%nat = true).
    { apply Nat.leb_le. unfold Deque.len. rewrite El, length_app.
      cbn [length]. lia. }
    rewrite H2, deque_append_maxlen.
    split; [exact Hms |]. split; [reflexivity |].
    rewrite (speed_of_last_two t1 l a c) by (rewrite Ht1; exact Hitems).
    assert (Hsl : (length (Deque.items (speeds_px t)) < cap)%nat).
    { rewrite Hseg, length_map, segments_length.
      unfold Deque.len in Hlen. rewrite El in Hlen. lia. }
    rewrite deque_append_items by (unfold Deque.len; lia).
    rewrite lastn_all by (rewrite length_app; cbn [length]; lia).
    rewrite Hseg, segments_snoc, map_app. reflexivity.
Qed.

Lemma fold_segments (cap : nat) (obs : list observation) :
  forall t : VehicleTrack.t,
    Deque.maxlen (centroids t) = cap ->
    Deque.maxlen (speeds_px t) = cap ->
    (Deque.len (centroids t) + length obs <= cap)%nat ->
    Deque.items (speeds_px t)
    = map (fun seg => distance (fst seg) (snd seg))
          (segments (Deque.items (centroids t))) ->
    let t' := fold_left observe obs t in
    Deque.items (speeds_px t')
    = map (fun seg => distance (fst seg) (snd seg))
          (segments (Deque.items (centroids t'))).
Proof.
  induction obs as [| o obs IH]; intros t Hmc Hms Hlen Hseg; simpl.
  - exact Hseg.
  - simpl in Hlen.
    destruct (update_segments cap t o Hmc Hms) as (Hmc' & Hms' & Hl' & Hseg');
      [lia | exact Hseg |].
    apply IH; try assumption. lia.
Qed.

End TrackTrajectory.

(** X7.  While a track has received no more observations than its
    history bound, its trajectory length is the sum of its recorded
    per-frame speeds. *)
Theorem X7_trajectory_is_sum_of_speeds (track_id : Z) (max_history : nat)
    (obs : list VehicleTrack.observation) :
  (length obs <= max_history)%nat ->
  let t := VehicleTrack.after_updates track_id max_history obs in
  VehicleTrack.get_trajectory_length t
  = Py.sum (Deque.items (VehicleTrack.speeds_px t)).
Proof.
  intros Hlen t.
  assert (Hseg : Deque.items (VehicleTrack.speeds_px t)
                 = map (fun seg => VehicleTrack.distance (fst seg) (snd seg))
                       (VehicleTrack.segments
                          (Deque.items (VehicleTrack.centroids t)))).
  { apply (fold_segments max_history obs); try reflexivity.
    unfold Deque.len. simpl. lia. }
  unfold VehicleTrack.get_trajectory_length.
  rewrite Hseg. unfold Py.sum.
  destruct (Nat.ltb_spec (Deque.len (VehicleTrack.centroids t)) 2) as [H2 | H2].
  - unfold Deque.len in H2.
    destruct (Deque.items (VehicleTrack.centroids t)) as [| a [| b l]];
      [reflexivity | reflexivity | simpl in H2; lia].
  - apply fold_left_add_map.
Qed.

(** X7, witness: bound 30 and two observations. *)
Lemma X7_trajectory_is_sum_of_speeds_witness :
  let o1 := VehicleTrack.mkObs (mkBBox 0 0 2 2) 0 None None in
  let o2 := VehicleTrack.mkObs (mkBBox 1 0 3 2) 1 None None in
  let t := VehicleTrack.after_updates 7 30 [o1; o2] in
  VehicleTrack.get_trajectory_length t
  = Py.sum (Deque.items (VehicleTrack.speeds_px t)).
Proof.
  intros o1 o2 t.
  apply (X7_trajectory_is_sum_of_speeds 7 30 [o1; o2]). simpl. lia.
Defined.

(** ** A track that does not move *)

Lemma distance_same (c : R * R) : VehicleTrack.distance c c = 0%R.
Proof.
  unfold VehicleTrack.distance.
  replace ((fst c - fst c) ^ 2 + (snd c - snd c) ^ 2)%R with 0%R by ring.
  apply sqrt_0.
Qed.

Lemma compute_speed_pixels_constant (t : VehicleTrack.t) (c : R * R) :
  Forall (fun p => p = c) (Deque.items (VehicleTrack.centroids t)) ->
  VehicleTrack.compute_speed_pixels t = 0%R.
Proof.
  intros H. apply Forall_rev in H.
  unfold VehicleTrack.compute_speed_pixels.
  destruct (rev _) as [| p2 [| p1 rest]].
  - reflexivity.
  - destruct p2; reflexivity.
  - apply Forall_cons in H as [H2 H]. apply Forall_cons in H as [H1 _].
    rewrite H2, H1.
    pose proof (distance_same c) as Hd. unfold VehicleTrack.distance in Hd.
    destruct c as [x y]. exact Hd.
Qed.

Lemma segments_constant (c : R * R) (l : list (R * R)) :
  Forall (fun p => p = c) l ->
  Forall (fun seg => seg = (c, c)) (VehicleTrack.segments l).
Proof.
  induction 1 as [| a l -> Hl IH]; [constructor |].
  destruct Hl as [| b l -> Hl]; [constructor |].
  change (VehicleTrack.segments (c :: c :: l))
    with ((c, c) :: VehicleTrack.segments (c :: l)).
  constructor; [reflexivity | exact IH].
Qed.

Lemma fold_stationary (c : R * R) (obs : list VehicleTrack.observation) :
  Forall (fun o => VehicleTrack.compute_centroid (VehicleTrack.obs_bbox o) = c)
         obs ->
  forall t : VehicleTrack.t,
    Forall (fun p => p = c) (Deque.items (VehicleTrack.centroids t)) ->
    Forall (fun s => s = 0%R) (Deque.items (VehicleTrack.speeds_px t)) ->
    let t' := fold_left VehicleTrack.observe obs t in
    Forall (fun p => p = c) (Deque.items (VehicleTrack.centroids t')) /\
    Forall (fun s => s = 0%R) (Deque.items (VehicleTrack.speeds_px t')).
Proof.
  induction 1 as [| o obs Ho _ IH]; intros t Hc Hs; simpl; [auto |].
  apply IH; unfold VehicleTrack.observe.
  - destruct (update_fields t (VehicleTrack.obs_bbox o)
                (VehicleTrack.obs_frame o) (VehicleTrack.obs_class_id o)
                (VehicleTrack.obs_class_name o))
      as (_ & _ & _ & _ & _ & _ & _ & _ & -> & _).
    now apply Forall_deque_append.
  - destruct (update_speeds_eq t (VehicleTrack.obs_bbox o)
                (VehicleTrack.obs_frame o) (VehicleTrack.obs_class_id o)
                (VehicleTrack.obs_class_name o)) as (t1 & Ht1 & ->).
    destruct (2 <=? _)%nat; [| exact Hs].
    apply Forall_deque_append; [exact Hs |].
    apply (compute_speed_pixels_constant t1 c).
    rewrite Ht1. now apply Forall_deque_append.
Qed.

(** X8.  If every observation of a track has the same centroid, every
    recorded speed is 0, the average speed over any window is 0, the
    trajectory length is 0, and the track counts as stopped for every
    positive threshold. *)
Theorem X8_stationary_track (track_id : Z) (max_history window : nat)
    (obs : list VehicleTrack.observation) (c : R * R) (threshold : R) :
  Forall (fun o => VehicleTrack.compute_centroid (VehicleTrack.obs_bbox o) = c)
         obs ->
  (0 < threshold)%R ->
  let t := VehicleTrack.after_updates track_id max_history obs in
  Forall (fun s => s = 0%R) (Deque.items (VehicleTrack.speeds_px t)) /\
  VehicleTrack.get_average_speed_pixels t window = 0%R /\
  VehicleTrack.get_trajectory_length t = 0%R /\
  VehicleTrack.is_stopped t threshold window = true.
Proof.
  intros Hobs Hthr t.
  destruct (fold_stationary c obs Hobs (VehicleTrack.init track_id max_history))
    as [Hc Hs]; [constructor | constructor |].
  fold (VehicleTrack.after_updates track_id max_history obs) in Hc, Hs.
  fold t in Hc, Hs.
  assert (Havg : VehicleTrack.get_average_speed_pixels t window = 0%R).
  { destruct (Deque.items (VehicleTrack.speeds_px t)) as [| s l] eqn:E.
    - unfold VehicleTrack.get_average_speed_pixels. now rewrite E.
    - assert (0 <= VehicleTrack.get_average_speed_pixels t window <= 0)%R.
      { apply average_speed_bounds; [rewrite E; discriminate |].
        rewrite E. eapply Forall_impl; [exact Hs |].
        simpl. intros x ->. lra. }
      lra. }
  split; [exact Hs |]. split; [exact Havg |]. split.
  - unfold VehicleTrack.get_trajectory_length.
    destruct (_ <? 2)%nat; [reflexivity |].
    pose proof (segments_constant c _ Hc) as Hseg.
    induction Hseg as [| seg segs -> _ IH]; simpl; [reflexivity |].
    rewrite distance_same, Rplus_0_r. exact IH.
  - unfold VehicleTrack.is_stopped. apply bool_decide_eq_true. lra.
Qed.

(** X8, witness: three observations of the same box, threshold 2. *)
Lemma X8_stationary_track_witness :
  let o := VehicleTrack.mkObs (mkBBox 0 0 2 2) 0 None None in
  let t := VehicleTrack.after_updates 7 30 [o; o; o] in
  Forall (fun s => s = 0%R) (Deque.items (VehicleTrack.speeds_px t)) /\
  VehicleTrack.get_average_speed_pixels t 5 = 0%R /\
  VehicleTrack.get_trajectory_length t = 0%R /\
  VehicleTrack.is_stopped t 2 5 = true.
Proof.
  intros o t.
  apply (X8_stationary_track 7 30 5 [o; o; o]
           (VehicleTrack.compute_centroid (mkBBox 0 0 2 2)) 2).
  - repeat constructor.
  - lra.
Defined.

(** ** Invariants of the track manager *)

Section TrackManagerInvariants.

Import TrackManager.

Lemma init_consistent (max_age max_history : nat) :
  consistent (init max_age max_history) /\ ages_ok (init max_age max_history).
Proof.
  unfold consistent, same_keys, tracks_ok, archive_ok, count_ok, ages_ok,
    get_active_count, init; cbn.
  repeat split; easy.
Qed.

Lemma remove_track_consistent (self : TrackManager.t) (id : Z) :
  consistent self ->
  exists self',
    remove_track self id = Ok self' /\
    consistent self' /\
    max_age self' = max_age self /\
    max_history self' = max_history self /\
    total_tracks_created self' = total_tracks_created self /\
    tracks self' = delete id (tracks self) /\
    track_ages self' = delete id (track_ages self) /\
    (tracks self !! id = None -> self' = self) /\
    (forall t, tracks self !! id = Some t ->
       completed_tracks self' = completed_tracks self ++ [deactivate t] /\
       total_tracks_completed self' = S (total_tracks_completed self)).
Proof.
  intros (Hkeys & Htracks & [Hinactive Hlen] & Hcount).
  destruct (remove_track_spec self id Hkeys)
    as (self' & Hrm & Hkeys' & Hage & Htr & Hag & _).
  exists self'. split; [exact Hrm |].
  unfold remove_track in Hrm.
  destruct (tracks self !! id) as [track |] eqn:Ht.
  - destruct (track_ages self !! id) as [a |] eqn:Ha; [| discriminate].
    injection Hrm as <-. cbn.
    split;
      [| do 5 (split; [reflexivity |]);
         split; [intros [=] | intros t [= <-]; split; reflexivity]].
    split; [exact Hkeys' |]. split; [| split].
    + intros k t Hk. cbn in Hk. apply lookup_delete_Some in Hk as [_ Hk].
      exact (Htracks _ _ Hk).
    + split; cbn.
      * apply Forall_app. split; [exact Hinactive |]. now constructor.
      * rewrite length_app. cbn. lia.
    + unfold count_ok, get_active_count in *. cbn.
      rewrite map_size_delete_Some by eauto.
      assert (size (tracks self) <> 0)%nat
        by (apply (map_size_ne_0_lookup_2 _ id); eauto).
      lia.
  - injection Hrm as <-.
    split; [unfold consistent, archive_ok; auto |].
    do 3 (split; [reflexivity |]).
    split; [exact Htr |]. split; [exact Hag |].
    split; [reflexivity | intros t [=]].
Qed.

Lemma remove_tracks_consistent (ids : list Z) :
  forall self : TrackManager.t,
    consistent self ->
    exists self',
      remove_tracks self ids = Ok self' /\
      consistent self' /\
      max_age self' = max_age self /\
      max_history self' = max_history self /\
      total_tracks_created self' = total_tracks_created self.
Proof.
  induction ids as [| id ids IH]; intros self Hc.
  - exists self. auto.
  - destruct (remove_track_consistent self id Hc)
      as (self1 & Hrm & Hc1 & Ha1 & Hh1 & Hn1 & _).
    destruct (IH self1 Hc1) as (self' & Hrms & Hc' & Ha' & Hh' & Hn').
    exists self'. simpl. rewrite Hrm. simpl.
    split; [exact Hrms |]. split; [exact Hc' |].
    split; [congruence |]. split; congruence.
Qed.

Lemma detect_consistent (frame_idx : Z) (acc : TrackManager.t * gset Z)
    (d : detection) :
  consistent (fst acc) -> ages_ok (fst acc) ->
  let acc' := detect frame_idx acc d in
  consistent (fst acc') /\ ages_ok (fst acc') /\
  max_history (fst acc') = max_history (fst acc) /\
  total_tracks_completed (fst acc') = total_tracks_completed (fst acc).
Proof.
  destruct acc as [self detected]. cbn [fst].
  intros (Hkeys & Htracks & Harch & Hcount) Hages.
  destruct (detect_spec frame_idx (self, detected) d) as (Hk & Ha & Hcompl & _).
  cbn [fst] in Hk, Ha, Hcompl. specialize (Hk Hkeys).
  revert Hk Ha Hcompl. unfold detect.
  destruct (tracks self !! det_id d) as [track |] eqn:Ht; cbn;
    intros Hk Ha Hcompl.
  - split; [| split; [| auto]].
    + split; [exact Hk |]. split; [| split; [exact Harch |]].
      * intros k t Hl. cbn in Hl.
        apply lookup_insert_Some in Hl as [[<- <-] | [_ Hl]];
          [| exact (Htracks _ _ Hl)].
        destruct (Htracks _ _ Ht) as (H1 & H2 & H3 & H4).
        destruct (update_fields track (det_bbox d) frame_idx (det_class_id d)
                    (det_class_name d)) as (-> & -> & -> & _).
        repeat split; try assumption. now apply update_speeds_nonneg.
      * unfold count_ok, get_active_count in *. cbn.
        rewrite map_size_insert_Some by eauto. exact Hcount.
    + intros k a Hl. cbn in Hl |- *.
      apply lookup_insert_Some in Hl as [[_ <-] | [_ Hl]]; [lia |].
      exact (Hages _ _ Hl).
  - split; [| split; [| auto]].
    + split; [exact Hk |]. split; [| split; [exact Harch |]].
      * intros k t Hl. cbn in Hl.
        apply lookup_insert_Some in Hl as [[<- <-] | [_ Hl]];
          [| exact (Htracks _ _ Hl)].
        destruct (update_fields (VehicleTrack.init (det_id d) (max_history self))
                    (det_bbox d) frame_idx (det_class_id d)
                    (det_class_name d)) as (-> & -> & -> & _).
        repeat split. apply update_speeds_nonneg. constructor.
      * unfold count_ok, get_active_count in *. cbn.
        rewrite map_size_insert_None by exact Ht. lia.
    + intros k a Hl. cbn in Hl |- *.
      apply lookup_insert_Some in Hl as [[_ <-] | [_ Hl]]; [lia |].
      exact (Hages _ _ Hl).
Qed.

Lemma detect_fold_consistent (frame_idx : Z) (detections : list detection) :
  forall acc : TrackManager.t * gset Z,
    consistent (fst acc) -> ages_ok (fst acc) ->
    let acc' := fold_left (detect frame_idx) detections acc in
    consistent (fst acc') /\ ages_ok (fst acc') /\
    max_history (fst acc') = max_history (fst acc) /\
    total_tracks_completed (fst acc') = total_tracks_completed (fst acc).
Proof.
  induction detections as [| d detections IH]; intros acc Hc Ha; simpl.
  - auto.
  - destruct (detect_consistent frame_idx acc d Hc Ha) as (Hc1 & Ha1 & Hh1 & Hn1).
    destruct (IH _ Hc1 Ha1) as (Hc' & Ha' & Hh' & Hn').
    split; [exact Hc' |]. split; [exact Ha' |]. split; congruence.
Qed.

Lemma update_consistent (self : TrackManager.t) (detections : list detection)
    (frame_idx : Z) :
  consistent self -> ages_ok self ->
  exists self',
    update self detections frame_idx = Ok self' /\
    consistent self' /\ ages_ok self' /\
    max_age self' = max_age self /\
    max_history self' = max_history self.
Proof.
  intros Hc Ha. unfold update.
  destruct (detect_fold_spec frame_idx detections (self, ∅)) as (_ & Hma & _).
  destruct (detect_fold_consistent frame_idx detections (self, ∅) Hc Ha)
    as (Hc1 & Ha1 & Hh1 & _).
  destruct (fold_left (detect frame_idx) detections (self, ∅))
    as [self1 detected] eqn:E1.
  cbn [fst snd] in Hma, Hc1, Ha1, Hh1.
  destruct Hc1 as (Hk1 & Ht1 & Har1 & Hcnt1).
  pose proof (age_fold_spec detected (max_age self1) (keys self1)
                (keys_NoDup self1) (track_ages self1, [])) as Hage.
  pose proof (age_fold_dom detected (max_age self1) (keys self1)
                (track_ages self1) (keys_NoDup self1)) as Hdom.
  destruct (fold_left (age_one detected (max_age self1)) (keys self1)
              (track_ages self1, [])) as [ages to_remove] eqn:E2.
  cbn [fst snd] in Hage, Hdom.
  set (self2 := TrackManager.mk (max_age self1) (max_history self1)
                  (tracks self1) ages (completed_tracks self1)
                  (total_tracks_created self1)
                  (total_tracks_completed self1)).
  assert (Hc2 : consistent self2).
  { split; [| split; [exact Ht1 | split; [exact Har1 | exact Hcnt1]]].
    unfold same_keys; cbn. rewrite Hdom; [exact Hk1 |].
    intros k Hk. rewrite Hk1. now apply keys_spec. }
  destruct (remove_tracks_consistent to_remove self2 Hc2)
    as (self' & Hrm & Hc' & Hma' & Hmh' & _).
  destruct (remove_tracks_spec to_remove self2 (proj1 Hc2))
    as (self'' & Hrm' & _ & _ & Hin' & Hout' & _).
  assert (self'' = self') as -> by congruence.
  exists self'. split; [exact Hrm |]. split; [exact Hc' |].
  split; [| cbn in Hma', Hmh'; split; congruence].
  intros k a Hl. rewrite Hma'. cbn.
  destruct (decide (k ∈ to_remove)) as [Hr | Hr].
  - destruct (Hin' k Hr) as [_ Hn]. congruence.
  - destruct (Hout' k Hr) as [_ Hs]. rewrite Hs in Hl. cbn in Hl.
    destruct (Hage k) as (Hin & Hout & Hrem).
    destruct (decide (k ∈ keys self1)) as [Hk | Hk].
    + destruct (decide (k ∈ detected)) as [Hd | Hd].
      * rewrite Hout in Hl by now right. exact (Ha1 _ _ Hl).
      * rewrite Hin in Hl by assumption. injection Hl as <-.
        destruct (Nat.le_gt_cases (S (default 0 (track_ages self1 !! k)))
                    (max_age self1)) as [Hle | Hgt]; [exact Hle |].
        exfalso. apply Hr, Hrem. right. auto.
    + rewrite Hout in Hl by now left. exact (Ha1 _ _ Hl).
Qed.

Lemma ages_ok_delete (self self' : TrackManager.t) (ids : list Z) :
  ages_ok self ->
  max_age self' = max_age self ->
  (forall k, k ∈ ids -> track_ages self' !! k = None) ->
  (forall k, k ∉ ids -> track_ages self' !! k = track_ages self !! k) ->
  ages_ok self'.
Proof.
  intros Ha Hma Hin Hout k a Hl. rewrite Hma.
  destruct (decide (k ∈ ids)) as [Hk | Hk].
  - rewrite Hin in Hl by exact Hk. discriminate.
  - rewrite Hout in Hl by exact Hk. exact (Ha _ _ Hl).
Qed.

Lemma remove_tracks_ages_ok (ids : list Z) (self : TrackManager.t) :
  consistent self -> ages_ok self ->
  exists self',
    remove_tracks self ids = Ok self' /\ consistent self' /\ ages_ok self' /\
    max_age self' = max_age self /\ max_history self' = max_history self.
Proof.
  intros Hc Ha.
  destruct (remove_tracks_consistent ids self Hc)
    as (self' & Hrm & Hc' & Hma' & Hmh' & _).
  destruct (remove_tracks_spec ids self (proj1 Hc))
    as (self'' & Hrm' & _ & Hma & Hin & Hout & _).
  assert (self'' = self') as -> by congruence.
  exists self'. split; [exact Hrm |]. split; [exact Hc' |].
  split; [| auto].
  apply (ages_ok_delete self self' ids Ha Hma).
  - intros k Hk. now destruct (Hin k Hk).
  - intros k Hk. now destruct (Hout k Hk).
Qed.

Lemma run_op_consistent (self : TrackManager.t) (o : op) :
  consistent self -> ages_ok self ->
  exists self',
    run_op self o = Ok self' /\ consistent self' /\ ages_ok self' /\
    max_age self' = max_age self /\ max_history self' = max_history self.
Proof.
  intros Hc Ha. destruct o as [detections frame_idx | id |]; simpl.
  - apply (update_consistent self detections frame_idx Hc Ha).
  - destruct (remove_tracks_ages_ok [id] self Hc Ha)
      as (self' & H & Hc' & Ha' & Hm').
    simpl in H. destruct (remove_track self id) as [self1 | e]; [| discriminate].
    simpl in H. injection H as ->. eauto.
  - apply (remove_tracks_ages_ok (keys self) self Hc Ha).
Qed.

Lemma run_ops_consistent (ops : list op) :
  forall self : TrackManager.t,
    consistent self -> ages_ok self ->
    exists self',
      run_ops self ops = Ok self' /\ consistent self' /\ ages_ok self' /\
      max_age self' = max_age self /\ max_history self' = max_history self.
Proof.
  induction ops as [| o ops IH]; intros self Hc Ha; simpl.
  - exists self. auto.
  - destruct (run_op_consistent self o Hc Ha)
      as (self1 & -> & Hc1 & Ha1 & Hm1 & Hh1).
    destruct (IH self1 Hc1 Ha1) as (self' & H & Hc' & Ha' & Hm' & Hh').
    exists self'. simpl. split; [exact H |]. split; [exact Hc' |].
    split; [exact Ha' |]. split; congruence.
Qed.

Lemma reached_consistent (max_age max_history : nat) (ops : list op)
    (self : TrackManager.t) :
  run_ops (init max_age max_history) ops = Ok self ->
  consistent self /\ ages_ok self /\
  TrackManager.max_age self = max_age /\
  TrackManager.max_history self = max_history.
Proof.
  intros Hrun.
  destruct (init_consistent max_age max_history) as [Hc Ha].
  destruct (run_ops_consistent ops _ Hc Ha) as (self' & H & Hc' & Ha' & Hm & Hh).
  assert (self' = self) as -> by congruence. auto.
Qed.

Lemma reached_runs (max_age max_history : nat) (ops : list op) :
  exists self, run_ops (init max_age max_history) ops = Ok self.
Proof.
  destruct (init_consistent max_age max_history) as [Hc Ha].
  destruct (run_ops_consistent ops _ Hc Ha) as (self' & H & _). eauto.
Qed.

End TrackManagerInvariants.

(** X9.  In every manager reached from a fresh one by [update],
    [remove_track] and [clear] calls, every track ever created is either
    active or completed: [total_tracks_created] is the number of active
    tracks plus [total_tracks_completed]; and the archive
    [completed_tracks] has exactly [total_tracks_completed] entries. *)
Theorem X9_track_counters (max_age max_history : nat)
    (ops : list TrackManager.op) :
  exists self : TrackManager.t,
    TrackManager.run_ops (TrackManager.init max_age max_history) ops = Ok self /\
    TrackManager.total_tracks_created self
    = (TrackManager.get_active_count self
       + TrackManager.total_tracks_completed self)%nat /\
    length (TrackManager.completed_tracks self)
    = TrackManager.total_tracks_completed self /\
    length (TrackManager.get_active_tracks self)
    = TrackManager.get_active_count self.
Proof.
  destruct (reached_runs max_age max_history ops) as [self Hrun].
  destruct (reached_consistent _ _ _ _ Hrun)
    as ((_ & _ & [_ Hlen] & Hcount) & _).
  exists self. split; [exact Hrun |]. split; [exact Hcount |].
  split; [exact Hlen |].
  unfold TrackManager.get_active_tracks, TrackManager.get_active_count.
  now rewrite length_fmap, length_map_to_list.
Qed.

(** X10.  In every manager reached from a fresh one, each active track is
    stored under its own [track_id], is marked active and has the
    manager's [max_history]; every track in the archive is marked
    inactive. *)
Theorem X10_active_and_archived (max_age max_history : nat)
    (ops : list TrackManager.op) :
  exists self : TrackManager.t,
    TrackManager.run_ops (TrackManager.init max_age max_history) ops = Ok self /\
    (forall k t,
       TrackManager.get_track self k = Some t ->
       VehicleTrack.track_id t = k /\
       VehicleTrack.is_active t = true /\
       VehicleTrack.max_history t = max_history) /\
    Forall (fun t => VehicleTrack.is_active t = true)
           (TrackManager.get_active_tracks self) /\
    Forall (fun t => VehicleTrack.is_active t = false)
           (TrackManager.completed_tracks self).
Proof.
  destruct (reached_runs max_age max_history ops) as [self Hrun].
  destruct (reached_consistent _ _ _ _ Hrun)
    as ((_ & Htracks & [Hinactive _] & _) & _ & _ & Hmh).
  exists self. split; [exact Hrun |]. split; [| split; [| exact Hinactive]].
  - intros k t Ht. destruct (Htracks k t Ht) as (H1 & H2 & H3 & _).
    rewrite <- Hmh. auto.
  - apply Forall_forall. intros t Hin.
    apply list_elem_of_In, active_track_inv in Hin as [k Hk].
    now destruct (Htracks k t Hk) as (_ & H & _).
Qed.

(** X11.  In every manager reached from a fresh one, the two maps have the
    same keys and no track has an age above [max_age]: a track that was
    missed more than [max_age] times in a row is never left in the
    manager. *)
Theorem X11_ages_bounded (max_age max_history : nat)
    (ops : list TrackManager.op) :
  exists self : TrackManager.t,
    TrackManager.run_ops (TrackManager.init max_age max_history) ops = Ok self /\
    TrackManager.max_age self = max_age /\
    forall k,
      match TrackManager.get_track self k with
      | Some _ =>
          exists age, TrackManager.track_ages self !! k = Some age /\
                      (age <= max_age)%nat
      | None => TrackManager.track_ages self !! k = None
      end.
Proof.
  destruct (reached_runs max_age max_history ops) as [self Hrun].
  destruct (reached_consistent _ _ _ _ Hrun)
    as ((Hkeys & _) & Hages & Hma & _).
  exists self. split; [exact Hrun |]. split; [exact Hma |].
  intros k. unfold TrackManager.get_track.
  destruct (TrackManager.tracks self !! k) as [t |] eqn:Ht.
  - assert (Ha : is_Some (TrackManager.track_ages self !! k)).
    { apply elem_of_dom. rewrite Hkeys. apply elem_of_dom. eauto. }
    destruct Ha as [age Ha]. exists age. split; [exact Ha |].
    rewrite <- Hma. exact (Hages k age Ha).
  - apply not_elem_of_dom. rewrite Hkeys. now apply not_elem_of_dom.
Qed.

(** X12.  For every manager reached from a fresh one, [get_statistics]
    reports a stopped-vehicle count that is at most the number of active
    tracks, a created count that is the sum of the active and completed
    counts, and a non-negative average speed. *)
Theorem X12_statistics (max_age max_history : nat)
    (ops : list TrackManager.op) :
  exists self : TrackManager.t,
    TrackManager.run_ops (TrackManager.init max_age max_history) ops = Ok self /\
    let stats := TrackManager.get_statistics self in
    (TrackManager.stopped_vehicles stats <= TrackManager.active_tracks stats)%nat /\
    TrackManager.total_created stats
    = (TrackManager.active_tracks stats + TrackManager.total_completed stats)%nat /\
    (0 <= TrackManager.average_speed_px stats)%R.
Proof.
  destruct (reached_runs max_age max_history ops) as [self Hrun].
  destruct (reached_consistent _ _ _ _ Hrun)
    as ((_ & Htracks & _ & Hcount) & _).
  exists self. split; [exact Hrun |]. cbn.
  split; [| split; [exact Hcount |]].
  - unfold TrackManager.get_stopped_count, TrackManager.get_active_count.
    etransitivity; [apply length_filter |].
    unfold TrackManager.get_active_tracks.
    now rewrite length_fmap, length_map_to_list.
  - unfold TrackManager.get_average_speed.
    destruct (TrackManager.get_active_tracks self) as [| t l] eqn:E; [lra |].
    apply np_mean_nonneg. apply Forall_map. apply Forall_forall.
    intros t' Hin. apply average_speed_nonneg.
    rewrite <- E in Hin.
    apply list_elem_of_In, active_track_inv in Hin as [k Hk].
    now destruct (Htracks k t' Hk) as (_ & _ & _ & H).
Qed.

Section TrackManagerUpdates.

Import TrackManager.

Lemma detect_fold_hit_with (P : VehicleTrack.t -> Prop) (frame_idx : Z)
    (detections : list detection) (id : Z) :
  (forall t bbox cid cname, P (VehicleTrack.update t bbox frame_idx cid cname)) ->
  forall acc : TrackManager.t * gset Z,
    (exists d, In d detections /\ det_id d = id) \/
    (exists t, tracks (fst acc) !! id = Some t /\ P t) ->
    exists t, tracks (fst (fold_left (detect frame_idx) detections acc)) !! id
              = Some t /\ P t.
Proof.
  intros HP.
  induction detections as [| d detections IH]; intros acc H; simpl.
  - destruct H as [(d & [] & _) | H]. exact H.
  - apply IH.
    destruct (decide (det_id d = id)) as [<- | Hne].
    + right. destruct acc as [self detected]. unfold detect.
      destruct (tracks self !! det_id d) as [track |]; cbn;
        rewrite lookup_insert_eq; eauto.
    + destruct H as [(d' & [<- | Hin] & Hd') | (t & Ht & Hp)].
      * contradiction.
      * left. eauto.
      * right.
        destruct (detect_spec frame_idx acc d) as (_ & _ & _ & Ho).
        destruct (Ho id Hne) as (-> & _). eauto.
Qed.

Lemma update_detected_with (P : VehicleTrack.t -> Prop)
    (self : TrackManager.t) (detections : list detection)
    (frame_idx : Z) (d : detection) :
  (forall t bbox cid cname, P (VehicleTrack.update t bbox frame_idx cid cname)) ->
  same_keys self ->
  In d detections ->
  exists self',
    update self detections frame_idx = Ok self' /\
    (exists t, tracks self' !! det_id d = Some t /\ P t) /\
    track_ages self' !! det_id d = Some 0%nat.
Proof.
  intros HP Hkeys Hd. unfold update.
  destruct (detect_fold_spec frame_idx detections (self, ∅))
    as (Hk1 & _).
  destruct (detect_fold_hit frame_idx detections (det_id d) (self, ∅))
    as (Hs1 & Ha1 & _); [left; eauto |].
  destruct (detect_fold_hit_with P frame_idx detections (det_id d) HP (self, ∅))
    as (t & Ht1 & Hp); [left; eauto |].
  destruct (fold_left (detect frame_idx) detections (self, ∅))
    as [self1 detected] eqn:E1.
  cbn [fst snd] in Hk1, Hs1, Ha1, Ht1.
  specialize (Hk1 Hkeys).
  pose proof (age_fold_spec detected (max_age self1) (keys self1)
                (keys_NoDup self1) (track_ages self1, [])) as Hage.
  pose proof (age_fold_dom detected (max_age self1) (keys self1)
                (track_ages self1) (keys_NoDup self1)) as Hdom.
  destruct (fold_left (age_one detected (max_age self1)) (keys self1)
              (track_ages self1, [])) as [ages to_remove] eqn:E2.
  cbn [fst snd] in Hage, Hdom.
  set (self2 := TrackManager.mk (max_age self1) (max_history self1)
                  (tracks self1) ages (completed_tracks self1)
                  (total_tracks_created self1)
                  (total_tracks_completed self1)).
  assert (Hkeys2 : same_keys self2).
  { unfold same_keys; cbn. rewrite Hdom; [exact Hk1 |].
    intros k Hk. rewrite Hk1. now apply keys_spec. }
  destruct (remove_tracks_spec to_remove self2 Hkeys2)
    as (self' & Hrm & _ & _ & _ & Hout' & _).
  exists self'. split; [exact Hrm |].
  destruct (Hage (det_id d)) as (_ & Hout & Hrem).
  assert (Hr : det_id d ∉ to_remove).
  { rewrite Hrem. intros [H | (_ & H & _)]; [| contradiction].
    now apply elem_of_nil in H. }
  destruct (Hout' _ Hr) as [-> ->]. cbn.
  split; [eauto |].
  rewrite Hout by now right. exact Ha1.
Qed.

Lemma update_untracked (self : TrackManager.t) (detections : list detection)
    (frame_idx : Z) (id : Z) :
  same_keys self ->
  Forall (fun d => det_id d <> id) detections ->
  tracks self !! id = None ->
  exists self',
    update self detections frame_idx = Ok self' /\
    tracks self' !! id = None /\ track_ages self' !! id = None.
Proof.
  intros Hkeys Hmiss Ht.
  destruct (update_spec self detections frame_idx Hkeys)
    as (self' & Hup & Hkeys' & _).
  exists self'. split; [exact Hup |].
  revert Hup. unfold update.
  destruct (detect_fold_spec frame_idx detections (self, ∅))
    as (_ & _ & _ & Ho1).
  destruct (fold_left (detect frame_idx) detections (self, ∅))
    as [self1 detected] eqn:E1.
  cbn [fst snd] in Ho1. destruct (Ho1 id Hmiss) as (Ht1 & _). rewrite Ht in Ht1.
  destruct (fold_left (age_one detected (max_age self1)) (keys self1)
              (track_ages self1, [])) as [ages to_remove] eqn:E2.
  intros Hrm.
  assert (Hnone : tracks self' !! id = None).
  { clear -Hrm Ht1.
    set (self2 := TrackManager.mk _ _ _ _ _ _ _) in Hrm.
    assert (H2 : tracks self2 !! id = None) by exact Ht1.
    clearbody self2. revert self2 Hrm H2.
    induction to_remove as [| k ks IH]; intros self2 Hrm H2; simpl in Hrm.
    - now injection Hrm as <-.
    - unfold remove_track in Hrm at 1.
      destruct (tracks self2 !! k) as [tk |] eqn:Hk.
      + destruct (track_ages self2 !! k); [| discriminate].
        simpl in Hrm. apply (IH _ Hrm). cbn.
        destruct (decide (k = id)) as [-> | Hne];
          [apply lookup_delete_eq | now rewrite lookup_delete_ne].
      + simpl in Hrm. now apply (IH _ Hrm). }
  split; [exact Hnone |].
  apply not_elem_of_dom. rewrite Hkeys'. now apply not_elem_of_dom.
Qed.

End TrackManagerUpdates.

(** X13.  In a manager reached from a fresh one, an update makes every id
    that occurs in its detections tracked with age 0, whatever its age was
    before; the track stored for it has that id, is active and has
    [last_frame] equal to the frame index of the update. *)
Theorem X13_update_detected (max_age max_history : nat)
    (ops : list TrackManager.op) (self : TrackManager.t)
    (detections : list TrackManager.detection) (frame_idx : Z)
    (d : TrackManager.detection) :
  TrackManager.run_ops (TrackManager.init max_age max_history) ops = Ok self ->
  In d detections ->
  exists (self' : TrackManager.t) (t : VehicleTrack.t),
    TrackManager.update self detections frame_idx = Ok self' /\
    TrackManager.get_track self' (TrackManager.det_id d) = Some t /\
    TrackManager.track_ages self' !! TrackManager.det_id d = Some 0%nat /\
    VehicleTrack.last_frame t = Some frame_idx /\
    VehicleTrack.track_id t = TrackManager.det_id d /\
    VehicleTrack.is_active t = true.
Proof.
  intros Hrun Hd.
  destruct (reached_consistent _ _ _ _ Hrun) as (Hc & Ha & _).
  destruct (update_detected_with
              (fun t => VehicleTrack.last_frame t = Some frame_idx)
              self detections frame_idx d) as (self' & Hup & (t & Ht & Hl) & Hage).
  - intros t bbox cid cname.
    now destruct (update_fields t bbox frame_idx cid cname)
      as (_ & _ & _ & _ & _ & H & _).
  - apply Hc.
  - exact Hd.
  - destruct (update_consistent self detections frame_idx Hc Ha)
      as (self'' & Hup' & (_ & Htracks & _) & _).
    assert (self'' = self') as -> by congruence.
    destruct (Htracks _ _ Ht) as (H1 & H2 & _).
    exists self', t. split; [exact Hup |]. split; [exact Ht |].
    split; [exact Hage |]. split; [exact Hl |]. split; assumption.
Qed.

(** X13, witness: a fresh manager and one detection of id 7 in frame 3. *)
Lemma X13_update_detected_witness :
  let d := TrackManager.mkDet 7 (mkBBox 0 0 1 1) None None in
  exists (self' : TrackManager.t) (t : VehicleTrack.t),
    TrackManager.update (TrackManager.init 30 30) [d] 3 = Ok self' /\
    TrackManager.get_track self' 7 = Some t /\
    TrackManager.track_ages self' !! 7%Z = Some 0%nat /\
    VehicleTrack.last_frame t = Some 3%Z /\
    VehicleTrack.track_id t = 7%Z /\
    VehicleTrack.is_active t = true.
Proof.
  intros d.
  apply (X13_update_detected 30 30 [] (TrackManager.init 30 30) [d] 3 d).
  - reflexivity.
  - simpl. now left.
Defined.

(** X14.  In a manager reached from a fresh one, an update never creates a
    track for an id that is not in its detections, and changes a tracked,
    undetected id only through its age.  When the age passes [max_age] the
    id is evicted and the archive holds the track itself, marked inactive:
    an entry with [is_active = False] whose id, histories and every other
    field are those of the track.  Otherwise the track is left as it was
    and the age grows by one. *)
Theorem X14_update_undetected (max_age max_history : nat)
    (ops : list TrackManager.op) (self : TrackManager.t)
    (detections : list TrackManager.detection) (frame_idx : Z) (id : Z) :
  TrackManager.run_ops (TrackManager.init max_age max_history) ops = Ok self ->
  Forall (fun d => TrackManager.det_id d <> id) detections ->
  exists self' : TrackManager.t,
    TrackManager.update self detections frame_idx = Ok self' /\
    match TrackManager.tracks self !! id with
    | None =>
        TrackManager.tracks self' !! id = None /\
        TrackManager.track_ages self' !! id = None
    | Some t =>
        exists age,
          TrackManager.track_ages self !! id = Some age /\
          if (max_age <? S age)%nat
          then TrackManager.tracks self' !! id = None /\
               TrackManager.track_ages self' !! id = None /\
               exists archived : VehicleTrack.t,
                 In archived (TrackManager.completed_tracks self') /\
                 inactive_copy t archived
          else TrackManager.tracks self' !! id = Some t /\
               TrackManager.track_ages self' !! id = Some (S age)
    end.
Proof.
  intros Hrun Hmiss.
  destruct (reached_consistent _ _ _ _ Hrun) as ((Hkeys & _) & _ & Hma & _).
  destruct (TrackManager.tracks self !! id) as [t |] eqn:Ht.
  - destruct (update_spec self detections frame_idx Hkeys)
      as (self' & Hup & _ & _ & _ & Hstep).
    exists self'. split; [exact Hup |].
    assert (Ha : is_Some (TrackManager.track_ages self !! id)).
    { apply elem_of_dom. rewrite Hkeys. apply elem_of_dom. eauto. }
    destruct Ha as [age Ha]. exists age. split; [exact Ha |].
    rewrite <- Hma. specialize (Hstep id t age Hmiss Ht Ha).
    destruct (TrackManager.max_age self <? S age)%nat; [| exact Hstep].
    destruct Hstep as (Hnone & Hnoage & Harch).
    split; [exact Hnone |]. split; [exact Hnoage |].
    exists (TrackManager.deactivate t).
    split; [exact Harch | apply deactivate_inactive_copy].
  - exact (update_untracked self detections frame_idx id Hkeys Hmiss Ht).
Qed.

(** X14, witness: a manager with [max_age = 0] that tracks id 7 with age
    0, and an empty frame: the age passes [max_age], so id 7 is evicted
    and archived. *)
Lemma X14_update_undetected_witness :
  let d := TrackManager.mkDet 7 (mkBBox 0 0 1 1) None None in
  exists self : TrackManager.t,
    TrackManager.run_ops (TrackManager.init 0 30) [TrackManager.Update [d] 0]
    = Ok self /\
    exists t : VehicleTrack.t,
      TrackManager.tracks self !! 7%Z = Some t /\
      exists self' : TrackManager.t,
        TrackManager.update self [] 1 = Ok self' /\
        TrackManager.tracks self' !! 7%Z = None /\
        TrackManager.track_ages self' !! 7%Z = None /\
        exists archived : VehicleTrack.t,
          In archived (TrackManager.completed_tracks self') /\
          inactive_copy t archived.
Proof.
  intros d. eexists. split; [reflexivity |].
  match goal with
  | |- exists t, TrackManager.tracks ?s !! _ = _ /\ _ => set (self := s)
  end.
  destruct (X14_update_undetected 0 30 [TrackManager.Update [d] 0] self [] 1 7
              eq_refl (List.Forall_nil _))
    as (self' & Hup & H).
  assert (Ht : exists t, TrackManager.tracks self !! 7%Z = Some t)
    by (eexists; reflexivity).
  destruct Ht as [t Ht]. rewrite Ht in H. destruct H as (age & _ & H).
  change (0 <? S age)%nat with true in H. cbv iota in H.
  exists t. split; [exact Ht |]. exists self'. split; [exact Hup | exact H].
Defined.

(** X15.  In a manager reached from a fresh one, [clear] does not raise
    and leaves no active track and no age.  For every track that was
    active the archive holds the track itself, marked inactive: an entry
    with [is_active = False] whose id, histories and every other field are
    those of the track.  Earlier archive entries are kept,
    [total_tracks_completed] grows by the number of tracks that were
    active and [total_tracks_created] is unchanged. *)
Theorem X15_clear (max_age max_history : nat) (ops : list TrackManager.op)
    (self : TrackManager.t) :
  TrackManager.run_ops (TrackManager.init max_age max_history) ops = Ok self ->
  exists self' : TrackManager.t,
    TrackManager.clear self = Ok self' /\
    TrackManager.tracks self' = ∅ /\
    TrackManager.track_ages self' = ∅ /\
    TrackManager.get_active_tracks self' = [] /\
    (forall t, In t (TrackManager.get_active_tracks self) ->
               exists archived : VehicleTrack.t,
                 In archived (TrackManager.completed_tracks self') /\
                 inactive_copy t archived) /\
    (forall t, In t (TrackManager.completed_tracks self) ->
               In t (TrackManager.completed_tracks self')) /\
    TrackManager.total_tracks_completed self'
    = (TrackManager.total_tracks_completed self
       + TrackManager.get_active_count self)%nat /\
    TrackManager.total_tracks_created self'
    = TrackManager.total_tracks_created self.
Proof.
  intros Hrun.
  destruct (reached_consistent _ _ _ _ Hrun) as (Hc & _).
  destruct (clear_spec self (proj1 Hc)) as (self' & Hclear & Hkeys' & Hempty).
  exists self'. split; [exact Hclear |].
  unfold TrackManager.clear in Hclear.
  destruct (remove_tracks_consistent (TrackManager.keys self) self Hc)
    as (self1 & Hrm1 & Hc1 & _ & _ & Hcreated).
  assert (self1 = self') as -> by congruence.
  destruct (remove_tracks_spec (TrackManager.keys self) self (proj1 Hc))
    as (self2 & Hrm2 & _ & _ & _ & _ & Hmono & Harch).
  assert (self2 = self') as -> by congruence.
  split; [exact Hempty |].
  split.
  { apply dom_empty_iff_L. unfold TrackManager.same_keys in Hkeys'.
    rewrite Hkeys', Hempty. apply dom_empty_L. }
  split.
  { unfold TrackManager.get_active_tracks. rewrite Hempty.
    now rewrite map_to_list_empty. }
  split.
  { intros t Hin. apply active_track_inv in Hin as [k Hk].
    exists (TrackManager.deactivate t).
    split; [| apply deactivate_inactive_copy].
    apply (Harch k t); [| exact Hk].
    apply keys_spec, elem_of_dom. eauto. }
  split; [exact Hmono |].
  split; [| exact Hcreated].
  destruct Hc as (_ & _ & _ & Hcount). destruct Hc1 as (_ & _ & _ & Hcount1).
  unfold TrackManager.count_ok, TrackManager.get_active_count in *.
  rewrite Hempty, map_size_empty in Hcount1. lia.
Qed.

(** X15, witness: a manager that tracks id 7; after [clear] its track
    is in the archive, marked inactive. *)
Lemma X15_clear_witness :
  let d := TrackManager.mkDet 7 (mkBBox 0 0 1 1) None None in
  exists self : TrackManager.t,
    TrackManager.run_ops (TrackManager.init 30 30) [TrackManager.Update [d] 0]
    = Ok self /\
    exists t : VehicleTrack.t,
      TrackManager.get_active_tracks self = [t] /\
      exists self' : TrackManager.t,
        TrackManager.clear self = Ok self' /\
        TrackManager.tracks self' = ∅ /\
        TrackManager.track_ages self' = ∅ /\
        (exists archived : VehicleTrack.t,
           In archived (TrackManager.completed_tracks self') /\
           inactive_copy t archived) /\
        TrackManager.total_tracks_completed self'
        = (TrackManager.total_tracks_completed self
           + TrackManager.get_active_count self)%nat.
Proof.
  intros d. eexists. split; [reflexivity |].
  match goal with
  | |- exists t, TrackManager.get_active_tracks ?s = _ /\ _ => set (self := s)
  end.
  destruct (X15_clear 30 30 [TrackManager.Update [d] 0] self eq_refl)
    as (self' & Hclear & Htr & Hag & _ & Harch & _ & Hcount & _).
  assert (Ht : exists t, TrackManager.get_active_tracks self = [t])
    by (eexists; reflexivity).
  destruct Ht as [t Ht]. exists t. split; [exact Ht |].
  exists self'. split; [exact Hclear |]. split; [exact Htr |].
  split; [exact Hag |]. split; [| exact Hcount].
  apply Harch. rewrite Ht. now left.
Defined.

(** X16.  In a manager reached from a fresh one, [remove_track] does not
    raise.  Afterwards the id is in neither map and every other id keeps
    its track and its age.  If the id was not tracked the manager is left
    exactly as it was; otherwise one entry is appended to the archive, the
    track itself marked inactive ([is_active = False], with the id, the
    histories and every other field of the track), and
    [total_tracks_completed] grows by one. *)
Theorem X16_remove_track (max_age max_history : nat)
    (ops : list TrackManager.op) (self : TrackManager.t) (id : Z) :
  TrackManager.run_ops (TrackManager.init max_age max_history) ops = Ok self ->
  exists self' : TrackManager.t,
    TrackManager.remove_track self id = Ok self' /\
    TrackManager.get_track self' id = None /\
    TrackManager.track_ages self' !! id = None /\
    (forall k, k <> id ->
       TrackManager.tracks self' !! k = TrackManager.tracks self !! k /\
       TrackManager.track_ages self' !! k = TrackManager.track_ages self !! k) /\
    match TrackManager.get_track self id with
    | None => self' = self
    | Some t =>
        exists archived : VehicleTrack.t,
          TrackManager.completed_tracks self'
          = TrackManager.completed_tracks self ++ [archived] /\
          inactive_copy t archived /\
          TrackManager.total_tracks_completed self'
          = S (TrackManager.total_tracks_completed self)
    end.
Proof.
  intros Hrun.
  destruct (reached_consistent _ _ _ _ Hrun) as (Hc & _).
  destruct (remove_track_consistent self id Hc)
    as (self' & Hrm & _ & _ & _ & _ & Htr & Hag & Hnone & Hsome).
  exists self'. split; [exact Hrm |].
  unfold TrackManager.get_track. rewrite Htr, Hag, !lookup_delete_eq.
  split; [reflexivity |]. split; [reflexivity |].
  split.
  - intros k Hk. now rewrite !lookup_delete_ne by congruence.
  - destruct (TrackManager.tracks self !! id) as [t |]; [| now apply Hnone].
    destruct (Hsome t eq_refl) as [Harch Hcount].
    exists (TrackManager.deactivate t).
    split; [exact Harch |].
    split; [apply deactivate_inactive_copy | exact Hcount].
Qed.

(** X16, witness: a manager that tracks id 7, from which 7 is removed. *)
Lemma X16_remove_track_witness :
  let d := TrackManager.mkDet 7 (mkBBox 0 0 1 1) None None in
  exists self : TrackManager.t,
    TrackManager.run_ops (TrackManager.init 30 30) [TrackManager.Update [d] 0]
    = Ok self /\
    exists t : VehicleTrack.t,
      TrackManager.get_track self 7 = Some t /\
      exists self' : TrackManager.t,
        TrackManager.remove_track self 7 = Ok self' /\
        TrackManager.get_track self' 7 = None /\
        TrackManager.track_ages self' !! 7%Z = None /\
        exists archived : VehicleTrack.t,
          TrackManager.completed_tracks self'
          = TrackManager.completed_tracks self ++ [archived] /\
          inactive_copy t archived /\
          TrackManager.total_tracks_completed self'
          = S (TrackManager.total_tracks_completed self).
Proof.
  intros d. eexists. split; [reflexivity |].
  match goal with
  | |- exists t, TrackManager.get_track ?s _ = _ /\ _ => set (self := s)
  end.
  destruct (X16_remove_track 30 30 [TrackManager.Update [d] 0] self 7 eq_refl)
    as (self' & Hrm & Hnone & Hnoage & _ & H).
  assert (Ht : exists t, TrackManager.get_track self 7 = Some t)
    by (eexists; reflexivity).
  destruct Ht as [t Ht]. rewrite Ht in H.
  exists t. split; [exact Ht |]. exists self'. split; [exact Hrm |].
  split; [exact Hnone |]. split; [exact Hnoage | exact H].
Defined.

(** ** Speed smoother over a run of measurements *)

Section SmootherRuns.

Import SpeedSmoother.

Lemma add_speed_history (self : SpeedSmoother.t) (speed : R) :
  speed_history (snd (add_speed self speed))
  = Deque.append (speed_history self) (gated self speed) /\
  window_size (snd (add_speed self speed)) = window_size self /\
  outlier_threshold (snd (add_speed self speed)) = outlier_threshold self.
Proof. unfold add_speed; cbn. auto. Qed.

Lemma gated_range (self : SpeedSmoother.t) (speed lo hi : R) :
  Forall (fun x => lo <= x <= hi)%R (Deque.items (speed_history self)) ->
  (lo <= speed <= hi)%R ->
  (lo <= gated self speed <= hi)%R.
Proof.
  intros Hall Hs. unfold gated.
  destruct (Nat.ltb_spec 2 (length (Deque.items (speed_history self))))
    as [Hlen | _]; [| exact Hs].
  destruct (decide _); [| exact Hs].
  destruct (decide _); [| exact Hs].
  apply np_mean_bounds; [| exact Hall].
  destruct (Deque.items (speed_history self)); [simpl in Hlen; lia | discriminate].
Qed.

Lemma add_speed_range (self : SpeedSmoother.t) (speed lo hi : R) :
  (1 <= Deque.maxlen (speed_history self))%nat ->
  (Deque.len (speed_history self) <= Deque.maxlen (speed_history self))%nat ->
  Forall (fun x => lo <= x <= hi)%R (Deque.items (speed_history self)) ->
  (lo <= speed <= hi)%R ->
  let out := add_speed self speed in
  (lo <= fst out <= hi)%R /\
  Forall (fun x => lo <= x <= hi)%R (Deque.items (speed_history (snd out))) /\
  Deque.maxlen (speed_history (snd out)) = Deque.maxlen (speed_history self) /\
  (Deque.len (speed_history (snd out))
   <= Deque.maxlen (speed_history (snd out)))%nat.
Proof.
  intros Hmax Hlen Hall Hs out.
  pose proof (gated_range self speed lo hi Hall Hs) as Hg.
  assert (Hall' : Forall (fun x => lo <= x <= hi)%R
                    (Deque.items (Deque.append (speed_history self)
                                    (gated self speed))))
    by now apply Forall_deque_append.
  assert (Hlen' : Deque.len (Deque.append (speed_history self) (gated self speed))
                  = Nat.min (S (Deque.len (speed_history self)))
                      (Deque.maxlen (speed_history self)))
    by now apply deque_append_len.
  subst out. unfold add_speed. cbn [fst snd speed_history].
  rewrite deque_append_maxlen.
  split; [| split; [exact Hall' | split; [reflexivity | lia]]].
  apply np_mean_bounds; [| exact Hall'].
  intros E. unfold Deque.len in Hlen' at 1. rewrite E in Hlen'.
  cbn [length] in Hlen'. lia.
Qed.

Lemma add_speeds_range (lo hi : R) (speeds : list R) :
  Forall (fun x => lo <= x <= hi)%R speeds ->
  forall self : SpeedSmoother.t,
    (1 <= Deque.maxlen (speed_history self))%nat ->
    (Deque.len (speed_history self) <= Deque.maxlen (speed_history self))%nat ->
    Forall (fun x => lo <= x <= hi)%R (Deque.items (speed_history self)) ->
    Forall (fun x => lo <= x <= hi)%R (fst (add_speeds self speeds)).
Proof.
  induction 1 as [| speed speeds Hs _ IH]; intros self Hmax Hlen Hall;
    cbn [add_speeds].
  - constructor.
  - destruct (add_speed_range self speed lo hi Hmax Hlen Hall Hs)
      as (Hout & Hall' & Hmax' & Hlen').
    destruct (add_speed self speed) as [smoothed self1]. cbn [fst snd] in *.
    assert (Hmax1 : (1 <= Deque.maxlen (speed_history self1))%nat) by lia.
    specialize (IH self1 Hmax1 Hlen' Hall').
    destruct (add_speeds self1 speeds) as [rest self2]. cbn [fst] in *.
    now constructor.
Qed.

Lemma add_speeds_window (speeds : list R) :
  forall self : SpeedSmoother.t,
    (Deque.len (speed_history self) <= Deque.maxlen (speed_history self))%nat ->
    let out := add_speeds self speeds in
    length (fst out) = length speeds /\
    Deque.maxlen (speed_history (snd out)) = Deque.maxlen (speed_history self) /\
    Deque.len (speed_history (snd out))
    = Nat.min (Deque.len (speed_history self) + length speeds)
              (Deque.maxlen (speed_history self)).
Proof.
  induction speeds as [| speed speeds IH]; intros self Hlen;
    cbn [add_speeds].
  - cbn. repeat split. lia.
  - destruct (add_speed_history self speed) as (Hh & _).
    destruct (add_speed self speed) as [smoothed self1]. cbn [snd] in Hh.
    assert (Hl1 : Deque.len (speed_history self1)
                  = Nat.min (S (Deque.len (speed_history self)))
                      (Deque.maxlen (speed_history self))).
    { rewrite Hh. now apply deque_append_len. }
    assert (Hm1 : Deque.maxlen (speed_history self1)
                  = Deque.maxlen (speed_history self)).
    { rewrite Hh. apply deque_append_maxlen. }
    destruct (IH self1) as (Hn & Hm & Hl); [lia |].
    destruct (add_speeds self1 speeds) as [rest self2]. cbn [fst snd] in *.
    cbn [length]. split; [lia |]. split; [congruence |].
    rewrite Hl, Hl1, Hm1. lia.
Qed.

End SmootherRuns.

(** X17.  A smoother fed any number of measurements returns one smoothed
    value per measurement and never holds more than [window_size] samples:
    after N measurements its window holds [min N window_size] of them. *)
Theorem X17_smoother_window_bound (window_size : nat) (outlier_threshold : R)
    (speeds : list R) :
  let out :=
    SpeedSmoother.add_speeds
      (SpeedSmoother.init window_size outlier_threshold) speeds in
  length (fst out) = length speeds /\
  Deque.len (SpeedSmoother.speed_history (snd out))
  = Nat.min (length speeds) window_size.
Proof.
  destruct (add_speeds_window speeds
              (SpeedSmoother.init window_size outlier_threshold))
    as (Hn & _ & Hl).
  - unfold Deque.len. simpl. lia.
  - split; [exact Hn |]. exact Hl.
Qed.

(** X18.  A smoother with a window of at least one sample never leaves the
    range of its input: if every raw measurement of a run lies in
    [lo, hi], so does every smoothed value it returns, whether or not the
    outlier gate fires. *)
Theorem X18_smoother_stays_in_range (window_size : nat)
    (outlier_threshold lo hi : R) (speeds : list R) :
  (1 <= window_size)%nat ->
  Forall (fun x => lo <= x <= hi)%R speeds ->
  Forall (fun x => lo <= x <= hi)%R
    (fst (SpeedSmoother.add_speeds
            (SpeedSmoother.init window_size outlier_threshold) speeds)).
Proof.
  intros Hw Hall.
  apply (add_speeds_range lo hi speeds Hall).
  - exact Hw.
  - unfold Deque.len. simpl. lia.
  - constructor.
Qed.

(** X18, witness: the default smoother fed 10, 12, 11, 50 with range
    [10, 50]. *)
Lemma X18_smoother_stays_in_range_witness :
  Forall (fun x => 10 <= x <= 50)%R
    (fst (SpeedSmoother.add_speeds (SpeedSmoother.init 5 3)
            [10; 12; 11; 50]%R)).
Proof.
  apply (X18_smoother_stays_in_range 5 3 10 50 [10; 12; 11; 50]%R).
  - lia.
  - repeat constructor; lra.
Defined.

(** X19.  With fewer than three samples in the window the outlier gate
    is not consulted: [add_speed] appends the raw value itself.  On an
    empty window (as after [reset]) of bound at least 1 it returns the raw
    value unchanged. *)
Theorem X19_smoother_warm_up (self : SpeedSmoother.t) (speed : R) :
  (1 <= Deque.maxlen (SpeedSmoother.speed_history self))%nat ->
  (Deque.len (SpeedSmoother.speed_history self) <= 2)%nat ->
  SpeedSmoother.speed_history (snd (SpeedSmoother.add_speed self speed))
  = Deque.append (SpeedSmoother.speed_history self) speed /\
  SpeedSmoother.add_speed (SpeedSmoother.reset self) speed
  = (speed,
     SpeedSmoother.mk (SpeedSmoother.window_size self)
       (SpeedSmoother.outlier_threshold self)
       (Deque.mk [speed] (Deque.maxlen (SpeedSmoother.speed_history self)))).
Proof.
  intros Hmax Hlen. split.
  - assert (Hg : SpeedSmoother.gated self speed = speed).
    { unfold SpeedSmoother.gated.
      destruct (Nat.ltb_spec 2 (length (Deque.items
                                          (SpeedSmoother.speed_history self))))
        as [H | _]; [unfold Deque.len in Hlen; lia | reflexivity]. }
    unfold SpeedSmoother.add_speed. cbn [snd SpeedSmoother.speed_history].
    now rewrite Hg.
  - assert (Hg : SpeedSmoother.gated (SpeedSmoother.reset self) speed = speed)
      by reflexivity.
    unfold SpeedSmoother.add_speed. rewrite Hg.
    unfold SpeedSmoother.reset, Deque.clear, Deque.append.
    cbn [SpeedSmoother.speed_history SpeedSmoother.window_size
         SpeedSmoother.outlier_threshold Deque.items Deque.maxlen app length].
    destruct (Nat.ltb_spec (Deque.maxlen (SpeedSmoother.speed_history self)) 1)
      as [H | _]; [lia |].
    f_equal. unfold np_mean, Py.sum. simpl. field.
Qed.

(** X19, witness: the default smoother holding 10 and 12. *)
Lemma X19_smoother_warm_up_witness :
  let self := SpeedSmoother.holding 5 3 [10; 12]%R in
  SpeedSmoother.speed_history (snd (SpeedSmoother.add_speed self 1000))
  = Deque.append (Deque.mk [10; 12]%R 5) 1000%R /\
  SpeedSmoother.add_speed (SpeedSmoother.reset self) 1000
  = (1000%R, SpeedSmoother.mk 5 3 (Deque.mk [1000%R] 5)).
Proof.
  intros self.
  apply (X19_smoother_warm_up self 1000); unfold Deque.len; simpl; lia.
Defined.

(** ** Speed estimators *)

(** X20.  A homography estimator built without point correspondences has
    no transform, and each of its queries ([image_to_world],
    [compute_world_distance], [pixels_to_speed]) then raises
    [ValueError].  With a transform, the speed between a centroid and
    itself is 0 and the speed does not depend on the order of the two
    centroids. *)
Theorem X20_homography_queries (Matrix : Type)
    (findHomography : list (R * R) -> list (R * R) -> result (option Matrix))
    (perspectiveTransform : Matrix -> R * R -> R * R)
    (fps : R) (self : HomographySpeedEstimator.t Matrix) (c1 c2 : R * R) :
  fps <> 0%R ->
  (exists est,
     HomographySpeedEstimator.init findHomography fps None None = Ok est /\
     HomographySpeedEstimator.image_to_world perspectiveTransform est c1
     = Raise ValueError /\
     HomographySpeedEstimator.compute_world_distance perspectiveTransform est c1 c2
     = Raise ValueError /\
     HomographySpeedEstimator.pixels_to_speed perspectiveTransform est c1 c2
     = Raise ValueError) /\
  (is_Some (HomographySpeedEstimator.homography_matrix self) ->
   HomographySpeedEstimator.pixels_to_speed perspectiveTransform self c1 c1
   = Ok 0%R /\
   HomographySpeedEstimator.pixels_to_speed perspectiveTransform self c1 c2
   = HomographySpeedEstimator.pixels_to_speed perspectiveTransform self c2 c1).
Proof.
  intros Hfps. split.
  - unfold HomographySpeedEstimator.init. rewrite SpeedEstimator_init_eq.
    destruct (decide (fps = 0%R)); [contradiction |].
    eexists. split; [reflexivity |]. repeat split; reflexivity.
  - intros [h Hh].
    unfold HomographySpeedEstimator.pixels_to_speed,
      HomographySpeedEstimator.compute_world_distance,
      HomographySpeedEstimator.image_to_world.
    rewrite Hh. cbn. unfold mret, result_ret.
    set (w1 := perspectiveTransform h c1).
    set (w2 := perspectiveTransform h c2).
    split.
    + f_equal.
      replace ((fst w1 - fst w1) * ((fst w1 - fst w1) * 1)
               + (snd w1 - snd w1) * ((snd w1 - snd w1) * 1))%R
        with 0%R by ring.
      rewrite sqrt_0. ring.
    + replace ((fst w2 - fst w1) * ((fst w2 - fst w1) * 1)
               + (snd w2 - snd w1) * ((snd w2 - snd w1) * 1))%R
        with ((fst w1 - fst w2) * ((fst w1 - fst w2) * 1)
              + (snd w1 - snd w2) * ((snd w1 - snd w2) * 1))%R by ring.
      reflexivity.
Qed.

(** X20, witness: a one-element matrix type and the identity transform. *)
Lemma X20_homography_queries_witness :
  HomographySpeedEstimator.pixels_to_speed (fun (_ : unit) p => p)
    (HomographySpeedEstimator.mk (SpeedEstimator.mk 30 (1 / 30)) (Some tt))
    (1, 2)%R (1, 2)%R
  = Ok 0%R.
Proof.
  assert (Hfps : (30 <> 0)%R) by lra.
  destruct (X20_homography_queries unit (fun _ _ => Ok None) (fun _ p => p) 30
              (HomographySpeedEstimator.mk (SpeedEstimator.mk 30 (1 / 30)) (Some tt))
              (1, 2)%R (3, 4)%R Hfps) as [_ H].
  apply H. simpl. eauto.
Defined.

(** X21.  Calibrating a pixel estimator with a known distance makes that
    distance come out right: after [calibrate(px, m)], an object that moves
    [px] pixels per frame is reported at [m] meters per frame, that is
    [m * fps * 3.6] km/h, and zero displacement gives speed 0, whether the
    displacement is a built-in float or a NumPy [float64].  Calibration
    with [m = 0] raises [ZeroDivisionError].  Calibration with [px = 0]
    succeeds; afterwards the conversion of a built-in float raises
    [ZeroDivisionError], while that of a NumPy [float64] does not raise
    and returns a non-finite value. *)
Theorem X21_pixel_calibration (self : PixelSpeedEstimator.t) (px m p : R) :
  px <> 0%R -> m <> 0%R ->
  let kmh :=
    (m * SpeedEstimator.fps (PixelSpeedEstimator.base self) * (36 / 10))%R in
  (exists est,
     PixelSpeedEstimator.calibrate self px m = Ok est /\
     PixelSpeedEstimator.base est = PixelSpeedEstimator.base self /\
     PixelSpeedEstimator.pixels_to_speed est (PixelSpeedEstimator.PyFloat px)
     = Ok (PixelSpeedEstimator.Speed kmh) /\
     PixelSpeedEstimator.pixels_to_speed est (PixelSpeedEstimator.NpFloat64 px)
     = Ok (PixelSpeedEstimator.Speed kmh) /\
     PixelSpeedEstimator.pixels_to_speed est (PixelSpeedEstimator.PyFloat 0)
     = Ok (PixelSpeedEstimator.Speed 0) /\
     PixelSpeedEstimator.pixels_to_speed est (PixelSpeedEstimator.NpFloat64 0)
     = Ok (PixelSpeedEstimator.Speed 0)) /\
  PixelSpeedEstimator.calibrate self px 0 = Raise ZeroDivisionError /\
  (exists est0,
     PixelSpeedEstimator.calibrate self 0 m = Ok est0 /\
     PixelSpeedEstimator.pixels_to_speed est0 (PixelSpeedEstimator.PyFloat p)
     = Raise ZeroDivisionError /\
     PixelSpeedEstimator.pixels_to_speed est0 (PixelSpeedEstimator.NpFloat64 p)
     = Ok PixelSpeedEstimator.InfOrNan).
Proof.
  intros Hpx Hm kmh. subst kmh. split; [| split].
  - unfold PixelSpeedEstimator.calibrate.
    rewrite truediv_nonzero by exact Hm. cbn.
    eexists. split; [reflexivity |]. split; [reflexivity |].
    unfold PixelSpeedEstimator.pixels_to_speed. cbn.
    assert (Hq : (px / m <> 0)%R).
    { unfold Rdiv. apply Rmult_integral_contrapositive_currified;
        [exact Hpx | now apply Rinv_neq_0_compat]. }
    rewrite !truediv_nonzero by exact Hq. cbn.
    destruct (decide (px / m = 0)%R) as [H0 | _]; [contradiction |].
    unfold mret, result_ret.
    split; [do 2 f_equal; field; auto |].
    split; [do 2 f_equal; field; auto |].
    split; do 2 f_equal; field; auto.
  - unfold PixelSpeedEstimator.calibrate. now rewrite truediv_zero.
  - unfold PixelSpeedEstimator.calibrate.
    rewrite truediv_nonzero by exact Hm. cbn.
    eexists. split; [reflexivity |].
    unfold PixelSpeedEstimator.pixels_to_speed. cbn.
    replace (0 / m)%R with 0%R by (unfold Rdiv; ring).
    rewrite truediv_zero.
    destruct (decide (0 = 0)%R) as [_ | H0]; [| contradiction].
    split; reflexivity.
Qed.

(** X21, witness: 200 pixels are 10 meters, at 30 frames per second. *)
Lemma X21_pixel_calibration_witness :
  exists est,
    PixelSpeedEstimator.calibrate
      (PixelSpeedEstimator.mk (SpeedEstimator.mk 30 (1 / 30)) 20) 200 10
    = Ok est /\
    PixelSpeedEstimator.pixels_to_speed est (PixelSpeedEstimator.NpFloat64 200)
    = Ok (PixelSpeedEstimator.Speed (10 * 30 * (36 / 10))).
Proof.
  assert (H1 : (200 <> 0)%R) by lra.
  assert (H2 : (10 <> 0)%R) by lra.
  destruct (X21_pixel_calibration
              (PixelSpeedEstimator.mk (SpeedEstimator.mk 30 (1 / 30)) 20)
              200 10 1 H1 H2) as [(est & Hc & _ & _ & Hs & _) _].
  exists est. split; [exact Hc | exact Hs].
Defined.

(** ** Fused score and classification *)

(** X22.  With non-negative weights and sub-scores in [0, 1] the fused
    congestion score lies between 0 and the sum of the weights; for the
    default detector it lies in [0, 1]. *)
Theorem X22_congestion_score_bounds (self : CongestionDetector.t)
    (density speed flow queue : R) :
  (0 <= density <= 1)%R -> (0 <= speed <= 1)%R ->
  (0 <= flow <= 1)%R -> (0 <= queue <= 1)%R ->
  ((0 <= CongestionDetector.density_weight self)%R ->
   (0 <= CongestionDetector.speed_weight self)%R ->
   (0 <= CongestionDetector.flow_weight self)%R ->
   (0 <= CongestionDetector.queue_weight self)%R ->
   (0 <= CongestionDetector.compute_congestion_score self density speed flow queue
    <= CongestionDetector.density_weight self
       + CongestionDetector.speed_weight self
       + CongestionDetector.flow_weight self
       + CongestionDetector.queue_weight self)%R) /\
  (0 <= CongestionDetector.compute_congestion_score CongestionDetector.default
          density speed flow queue <= 1)%R.
Proof.
  intros Hd Hs Hf Hq. unfold CongestionDetector.compute_congestion_score.
  split.
  - intros Hwd Hws Hwf Hwq. split; nra.
  - cbn. split; nra.
Qed.

(** X22, witness: all sub-scores at one half. *)
Lemma X22_congestion_score_bounds_witness :
  (0 <= CongestionDetector.compute_congestion_score CongestionDetector.default
          (1 / 2) (1 / 2) (1 / 2) (1 / 2) <= 1)%R.
Proof.
  apply (X22_congestion_score_bounds CongestionDetector.default
           (1 / 2) (1 / 2) (1 / 2) (1 / 2)); lra.
Defined.

Lemma classify_default_cases (score : R) :
  let level :=
    CongestionDetector.classify_in CongestionDetector.default_thresholds score in
  ((score < 0)%R /\ level = TRAFFIC_JAM) \/
  ((0 <= score < 2 / 10)%R /\ level = FREE_FLOW) \/
  ((2 / 10 <= score < 4 / 10)%R /\ level = LIGHT) \/
  ((4 / 10 <= score < 6 / 10)%R /\ level = MODERATE) \/
  ((6 / 10 <= score < 8 / 10)%R /\ level = HEAVY) \/
  ((8 / 10 <= score)%R /\ level = TRAFFIC_JAM).
Proof.
  intros level. subst level.
  destruct (Rlt_le_dec score 0) as [H0 | H0].
  { left. split; [exact H0 |].
    unfold CongestionDetector.default_thresholds, CongestionDetector.classify_in,
      CongestionDetector.in_band; cbn [fst snd].
    rewrite !(bool_decide_eq_false_2 (_ <= score)%R) by lra. reflexivity. }
  destruct (Rlt_le_dec score (2 / 10)) as [H1 | H1].
  { right; left. split; [lra |].
    apply (classify_default_band FREE_FLOW 0 (2 / 10)); [simpl; tauto | lra]. }
  destruct (Rlt_le_dec score (4 / 10)) as [H2 | H2].
  { right; right; left. split; [lra |].
    apply (classify_default_band LIGHT (2 / 10) (4 / 10)); [simpl; tauto | lra]. }
  destruct (Rlt_le_dec score (6 / 10)) as [H3 | H3].
  { right; right; right; left. split; [lra |].
    apply (classify_default_band MODERATE (4 / 10) (6 / 10));
      [simpl; tauto | lra]. }
  destruct (Rlt_le_dec score (8 / 10)) as [H4 | H4].
  { right; right; right; right; left. split; [lra |].
    apply (classify_default_band HEAVY (6 / 10) (8 / 10)); [simpl; tauto | lra]. }
  right; right; right; right; right. split; [lra |].
  destruct (Rlt_le_dec score 1) as [H5 | H5].
  - apply (classify_default_band TRAFFIC_JAM (8 / 10) 1); [simpl; tauto | lra].
  - apply classify_in_above. unfold CongestionDetector.default_thresholds.
    repeat (apply List.Forall_cons; [simpl; lra |]). apply List.Forall_nil.
Qed.

(** X23.  Under the default bands the classification is monotone on
    non-negative scores: a higher score never gets a lower level.  A
    negative score matches no band and is classified as traffic jam. *)
Theorem X23_default_classification_monotone (s1 s2 : R) :
  ((0 <= s1 <= s2)%R ->
   (level_value (CongestionDetector.classify_congestion
                   CongestionDetector.default s1)
    <= level_value (CongestionDetector.classify_congestion
                      CongestionDetector.default s2))%Z) /\
  ((s1 < 0)%R ->
   CongestionDetector.classify_congestion CongestionDetector.default s1
   = TRAFFIC_JAM).
Proof.
  unfold CongestionDetector.classify_congestion. cbn [CongestionDetector.thresholds
    CongestionDetector.default].
  pose proof (classify_default_cases s1) as H1.
  pose proof (classify_default_cases s2) as H2.
  cbv zeta in H1, H2.
  split.
  - intros Hs.
    destruct H1 as [[? ->] | [[? ->] | [[? ->] | [[? ->] | [[? ->] | [? ->]]]]]];
    destruct H2 as [[? ->] | [[? ->] | [[? ->] | [[? ->] | [[? ->] | [? ->]]]]]];
      simpl; try lia; lra.
  - intros Hs.
    destruct H1 as [[? ->] | [[? ->] | [[? ->] | [[? ->] | [[? ->] | [? ->]]]]]];
      try reflexivity; lra.
Qed.

(** X23, witness: 0.3 and 0.7. *)
Lemma X23_default_classification_monotone_witness :
  (level_value (CongestionDetector.classify_congestion
                  CongestionDetector.default (3 / 10))
   <= level_value (CongestionDetector.classify_congestion
                     CongestionDetector.default (7 / 10)))%Z.
Proof.
  apply (proj1 (X23_default_classification_monotone (3 / 10) (7 / 10))). lra.
Defined.

(** ** [analyze] on a non-empty track list *)

Lemma bind_ok {A B : Type} (a : A) (k : A -> result B) : (Ok a ≫= k) = k a.
Proof. reflexivity. Qed.







(** X25.  [analyze] never increments [vehicle_entry_count]: after any
    call it is at most the earlier value, so a constructed detector keeps
    it at 0.  [flow_window_frames] grows by at most one per call.  After a
    call that reaches the flow-window bookkeeping with a positive [fps] and
    a positive window duration, the frame counter is below
    [fps * flow_window_duration]. *)
Theorem X25_flow_window (self : CongestionDetector.t)
    (tracks : list VehicleTrack.t) (frame_idx : Z) (fps : R)
    (timestamp : option R) :
  let self' :=
    fst (CongestionDetector.analyze self tracks frame_idx fps timestamp) in
  (CongestionDetector.vehicle_entry_count self'
   <= CongestionDetector.vehicle_entry_count self)%nat /\
  (CongestionDetector.flow_window_frames self'
   <= S (CongestionDetector.flow_window_frames self))%nat /\
  (tracks <> [] ->
   CongestionDetector.roi_area self <> 0%R ->
   (0 < fps)%R ->
   (0 < CongestionDetector.flow_window_duration self)%R ->
   (INR (CongestionDetector.flow_window_frames self')
    < fps * CongestionDetector.flow_window_duration self)%R).
Proof.
  intros self'. subst self'. unfold CongestionDetector.analyze.
  destruct (Nat.eqb_spec (length tracks) 0) as [H0 | H0]; cbn [fst].
  - split; [lia |]. split; [lia |].
    intros Hne. destruct tracks; [congruence | discriminate].
  - destruct (truediv (CongestionDetector.total_area tracks)
                (CongestionDetector.roi_area self)) as [occ | e] eqn:E;
      cbn [fst].
    + unfold CongestionDetector.tick_flow_window.
      cbn [CongestionDetector.vehicle_entry_count
           CongestionDetector.flow_window_frames].
      destruct (bool_decide_reflect
                  (INR (S (CongestionDetector.flow_window_frames self))
                   >= fps * CongestionDetector.flow_window_duration self)%R)
        as [Hfull | Hnot].
      * split; [lia |]. split; [lia |].
        intros _ _ Hfps Hdur. simpl. nra.
      * split; [lia |]. split; [lia |].
        intros _ _ _ _. lra.
    + split; [lia |]. split; [lia |].
      intros _ Hroi. unfold truediv in E.
      destruct (decide (CongestionDetector.roi_area self = 0%R));
        [contradiction | discriminate].
Qed.

(** X25, witness: the default detector and one fresh track at 30 frames
    per second. *)
Lemma X25_flow_window_witness :
  (INR (CongestionDetector.flow_window_frames
          (fst (CongestionDetector.analyze CongestionDetector.default
                  [VehicleTrack.init 7 30] 0 30 None)))
   < 30 * 60)%R.
Proof.
  destruct (X25_flow_window CongestionDetector.default
              [VehicleTrack.init 7 30] 0 30 None) as (_ & _ & H).
  apply H.
  - discriminate.
  - simpl. lra.
  - lra.
  - simpl. lra.
Defined.

(** ** [detect.py] *)

Lemma detect_total_area_acc (tracks : list Detect.VehicleTrack.t) :
  forall a : R,
    (0 <= a)%R ->
    (0 <= fold_left
            (fun acc track =>
               match Deque.last_opt (Detect.VehicleTrack.bboxes track) with
               | Some bbox =>
                   (acc + Rmax 0 (bx2 bbox - bx1 bbox)
                          * Rmax 0 (by2 bbox - by1 bbox))%R
               | None => acc
               end) tracks a)%R.
Proof.
  induction tracks as [| t tracks IH]; intros a Ha; simpl; [exact Ha |].
  apply IH.
  destruct (Deque.last_opt (Detect.VehicleTrack.bboxes t)) as [bbox |];
    [| exact Ha].
  assert (0 <= Rmax 0 (bx2 bbox - bx1 bbox) * Rmax 0 (by2 bbox - by1 bbox))%R
    by (apply Rmult_le_pos; apply Rmax_l).
  lra.
Qed.

Lemma detect_total_area_nonneg (tracks : list Detect.VehicleTrack.t) :
  (0 <= Detect.CongestionDetector.total_area tracks)%R.
Proof.
  unfold Detect.CongestionDetector.total_area.
  apply detect_total_area_acc. lra.
Qed.

Lemma detect_avg_speed_nonneg (t : Detect.VehicleTrack.t) (window : nat) :
  Forall (fun s => 0 <= s)%R (Deque.items (Detect.VehicleTrack.speeds t)) ->
  (0 <= Detect.VehicleTrack.get_avg_speed t window)%R.
Proof.
  intros H. unfold Detect.VehicleTrack.get_avg_speed.
  destruct (Deque.items (Detect.VehicleTrack.speeds t)) as [| s l]; [lra |].
  apply np_mean_nonneg. unfold Detect.recent. now apply Forall_recent.
Qed.

Lemma detect_occupancy_unit (roi_area : Z) (total_bbox_area : R) :
  (0 <= total_bbox_area)%R ->
  exists occupancy_ratio : R,
    (if (0 <? roi_area)%Z then
       ratio ← truediv total_bbox_area (IZR roi_area); mret (Rmin ratio 1)
     else mret 0%R) = Ok occupancy_ratio /\
    (0 <= occupancy_ratio <= 1)%R.
Proof.
  intros Ha. destruct (Z.ltb_spec 0 roi_area) as [Hpos | _].
  - assert (Hr : (0 < IZR roi_area)%R) by now apply IZR_lt.
    rewrite truediv_nonzero by lra. rewrite bind_ok.
    eexists. split; [reflexivity |].
    apply Rmin_1_unit. now apply div_nonneg.
  - exists 0%R. split; [reflexivity | lra].
Qed.

Lemma detect_analyze_nonempty (self : Detect.CongestionDetector.t)
    (tracks : list Detect.VehicleTrack.t) (frame_idx : Z) :
  tracks <> [] ->
  (0 < Detect.CongestionDetector.max_vehicles self)%Z ->
  exists occupancy_ratio : R,
    (0 <= occupancy_ratio <= 1)%R /\
    let vehicle_count := length tracks in
    let avg_speed :=
      np_mean (map (fun t => Detect.VehicleTrack.get_avg_speed t 5) tracks) in
    let stopped_count :=
      length (filter (fun t => Detect.VehicleTrack.is_stopped t 2) tracks) in
    let congestion_score :=
      (Detect.CongestionDetector.density_weight self
       * Rmin (INR vehicle_count
               / IZR (Detect.CongestionDetector.max_vehicles self)) 1
       + Detect.CongestionDetector.speed_weight self
         * (1 - Rmin (avg_speed / 20) 1)
       + Detect.CongestionDetector.stopped_weight self
         * (INR stopped_count / INR vehicle_count))%R in
    Detect.CongestionDetector.analyze self tracks frame_idx
    = Ok (Detect.CongestionMetrics.mk frame_idx vehicle_count avg_speed
            stopped_count occupancy_ratio congestion_score
            (Detect.CongestionDetector.classify_in
               (Detect.CongestionDetector.thresholds self) congestion_score)).
Proof.
  intros Hne Hmv.
  destruct (detect_occupancy_unit (Detect.CongestionDetector.roi_area self)
              (Detect.CongestionDetector.total_area tracks)
              (detect_total_area_nonneg tracks))
    as (occupancy_ratio & Hocc & Hoccb).
  exists occupancy_ratio. split; [exact Hoccb |].
  intros vehicle_count avg_speed stopped_count congestion_score.
  assert (Hn : (0 < vehicle_count)%nat)
    by (subst vehicle_count; destruct tracks; [congruence | simpl; lia]).
  assert (Hmv' : (0 < IZR (Detect.CongestionDetector.max_vehicles self))%R)
    by now apply IZR_lt.
  unfold Detect.CongestionDetector.analyze.
  destruct tracks as [| t tracks'] eqn:E; [congruence |].
  cbv beta iota. rewrite <- E in *.
  fold vehicle_count avg_speed stopped_count.
  rewrite Hocc, bind_ok.
  rewrite (truediv_nonzero (INR (length tracks))) by lra. rewrite bind_ok.
  rewrite (truediv_nonzero _ 20) by lra. rewrite bind_ok.
  destruct (Nat.ltb_spec 0 (length tracks)) as [_ | H];
    [| subst vehicle_count; rewrite <- E in Hn; lia].
  rewrite truediv_nonzero
    by (apply not_0_INR; subst vehicle_count; rewrite <- E in Hn; lia).
  rewrite bind_ok. subst congestion_score stopped_count avg_speed vehicle_count.
  rewrite <- E. reflexivity.
Qed.

Lemma detect_analyze_bounds (roi_width roi_height : Z)
    (tracks : list Detect.VehicleTrack.t) (frame_idx : Z) :
  exists m : Detect.CongestionMetrics.t,
    Detect.CongestionDetector.analyze
      (Detect.CongestionDetector.init roi_width roi_height) tracks frame_idx
    = Ok m /\
    Detect.CongestionMetrics.frame_idx m = frame_idx /\
    Detect.CongestionMetrics.vehicle_count m = length tracks /\
    (Detect.CongestionMetrics.stopped_count m
     <= Detect.CongestionMetrics.vehicle_count m)%nat /\
    (0 <= Detect.CongestionMetrics.occupancy_ratio m <= 1)%R /\
    (0 <= Detect.CongestionMetrics.congestion_score m)%R /\
    (Forall (fun t => Forall (fun s => 0 <= s)%R
                        (Deque.items (Detect.VehicleTrack.speeds t))) tracks ->
     (0 <= Detect.CongestionMetrics.average_speed m)%R /\
     (Detect.CongestionMetrics.congestion_score m <= 1)%R).
Proof.
  destruct tracks as [| t tracks'] eqn:E.
  - eexists. split; [reflexivity |]. cbn.
    split; [reflexivity |]. split; [reflexivity |]. split; [lia |].
    split; [lra |]. split; [lra |]. intros _. lra.
  - rewrite <- E. assert (Hne : tracks <> []) by (rewrite E; discriminate).
    clear E t tracks'.
    destruct (detect_analyze_nonempty
                (Detect.CongestionDetector.init roi_width roi_height)
                tracks frame_idx Hne) as (occ & Hoccb & Hm); [simpl; lia |].
    cbv zeta in Hm. rewrite Hm. eexists. split; [reflexivity |].
    cbn [Detect.CongestionMetrics.frame_idx
         Detect.CongestionMetrics.vehicle_count
         Detect.CongestionMetrics.stopped_count
         Detect.CongestionMetrics.occupancy_ratio
         Detect.CongestionMetrics.congestion_score
         Detect.CongestionMetrics.average_speed
         Detect.CongestionDetector.init
         Detect.CongestionDetector.density_weight
         Detect.CongestionDetector.speed_weight
         Detect.CongestionDetector.stopped_weight
         Detect.CongestionDetector.max_vehicles].
    set (n := length tracks).
    set (stopped :=
           length (filter (fun t => Detect.VehicleTrack.is_stopped t 2) tracks)).
    set (avg := np_mean (map (fun t => Detect.VehicleTrack.get_avg_speed t 5)
                           tracks)).
    assert (Hn : (0 < n)%nat)
      by (subst n; destruct tracks; [congruence | simpl; lia]).
    assert (Hn' : (0 < INR n)%R) by now apply lt_0_INR.
    assert (Hstopped : (stopped <= n)%nat) by apply length_filter.
    assert (Hd : (0 <= Rmin (INR n / IZR 50) 1 <= 1)%R).
    { apply Rmin_1_unit. apply div_nonneg; lra. }
    assert (Hq : (0 <= INR stopped / INR n <= 1)%R).
    { split; [apply div_nonneg; [apply pos_INR | exact Hn'] |].
      apply div_le_1; [now apply le_INR | exact Hn']. }
    assert (Hs : (0 <= 1 - Rmin (avg / 20) 1)%R).
    { pose proof (Rmin_r (avg / 20) 1). lra. }
    split; [reflexivity |]. split; [reflexivity |]. split; [exact Hstopped |].
    split; [exact Hoccb |]. split; [nra |].
    intros Hall.
    assert (Havg : (0 <= avg)%R).
    { apply np_mean_nonneg, Forall_map.
      eapply Forall_impl; [exact Hall |].
      intros t Ht. now apply detect_avg_speed_nonneg. }
    split; [exact Havg |].
    assert (Hs' : (0 <= Rmin (avg / 20) 1)%R).
    { apply Rmin_1_unit. apply div_nonneg; lra. }
    nra.
Qed.

(** X26.  [detect.py]'s [analyze], on a detector made by its constructor,
    never raises, whatever the ROI size and the tracks.  The snapshot
    counts every track, reports no more stopped vehicles than vehicles, an
    occupancy in [0, 1] even for malformed boxes and a non-positive ROI
    area, and a non-negative congestion score; when no track holds a
    negative speed, the average speed is non-negative and the score is at
    most 1. *)
Theorem X26_detect_analyze (roi_width roi_height : Z)
    (tracks : list Detect.VehicleTrack.t) (frame_idx : Z) :
  exists m : Detect.CongestionMetrics.t,
    Detect.CongestionDetector.analyze
      (Detect.CongestionDetector.init roi_width roi_height) tracks frame_idx
    = Ok m /\
    Detect.CongestionMetrics.frame_idx m = frame_idx /\
    Detect.CongestionMetrics.vehicle_count m = length tracks /\
    (Detect.CongestionMetrics.stopped_count m
     <= Detect.CongestionMetrics.vehicle_count m)%nat /\
    (0 <= Detect.CongestionMetrics.occupancy_ratio m <= 1)%R /\
    (0 <= Detect.CongestionMetrics.congestion_score m)%R /\
    (Forall (fun t => Forall (fun s => 0 <= s)%R
                        (Deque.items (Detect.VehicleTrack.speeds t))) tracks ->
     (0 <= Detect.CongestionMetrics.average_speed m)%R /\
     (Detect.CongestionMetrics.congestion_score m <= 1)%R).
Proof.
  exact (detect_analyze_bounds roi_width roi_height tracks frame_idx).
Qed.

(** X26, witness: the default 1920 x 1080 detector and one fresh track. *)
Lemma X26_detect_analyze_witness :
  exists m : Detect.CongestionMetrics.t,
    Detect.CongestionDetector.analyze
      (Detect.CongestionDetector.init 1920 1080)
      [Detect.VehicleTrack.init 7 30] 0
    = Ok m /\
    (0 <= Detect.CongestionMetrics.average_speed m)%R /\
    (Detect.CongestionMetrics.congestion_score m <= 1)%R.
Proof.
  destruct (X26_detect_analyze 1920 1080 [Detect.VehicleTrack.init 7 30] 0)
    as (m & Hm & _ & _ & _ & _ & _ & H).
  exists m. split; [exact Hm |]. apply H.
  constructor; [| constructor]. simpl. constructor.
Defined.

Lemma length_filter_all {A : Type} (f : A -> bool) (l : list A) :
  Forall (fun x => f x = true) l -> length (filter f l) = length l.
Proof.
  induction 1 as [| x l Hx _ IH]; [reflexivity |].
  rewrite filter_cons. destruct (decide (f x)) as [_ | Hn].
  - simpl. now rewrite IH.
  - rewrite Hx in Hn. now destruct Hn.
Qed.

(** X27.  In [detect.py], a scene with at least [max_vehicles] (50)
    tracks that all have average speed 0 gets the largest congestion score,
    1, which lies in no band of the table (the top band is [0.8, 1.0)
    with its upper end excluded), so the classification loop leaves the
    level at its initial value: the snapshot reports free flow. *)
Theorem X27_detect_saturated_scene (roi_width roi_height : Z)
    (tracks : list Detect.VehicleTrack.t) (frame_idx : Z) :
  (50 <= length tracks)%nat ->
  Forall (fun t => Detect.VehicleTrack.get_avg_speed t 5 = 0%R) tracks ->
  exists m : Detect.CongestionMetrics.t,
    Detect.CongestionDetector.analyze
      (Detect.CongestionDetector.init roi_width roi_height) tracks frame_idx
    = Ok m /\
    Detect.CongestionMetrics.stopped_count m = length tracks /\
    Detect.CongestionMetrics.congestion_score m = 1%R /\
    Detect.CongestionMetrics.congestion_level m = FREE_FLOW.
Proof.
  intros Hlen Hall.
  assert (Hne : tracks <> []) by (destruct tracks; [simpl in Hlen; lia | discriminate]).
  destruct (detect_analyze_nonempty
              (Detect.CongestionDetector.init roi_width roi_height)
              tracks frame_idx Hne) as (occ & _ & Hm); [simpl; lia |].
  cbv zeta in Hm. rewrite Hm. clear Hm. eexists. split; [reflexivity |].
  cbn [Detect.CongestionMetrics.stopped_count
       Detect.CongestionMetrics.congestion_score
       Detect.CongestionMetrics.congestion_level
       Detect.CongestionDetector.init
       Detect.CongestionDetector.density_weight
       Detect.CongestionDetector.speed_weight
       Detect.CongestionDetector.stopped_weight
       Detect.CongestionDetector.max_vehicles
       Detect.CongestionDetector.thresholds].
  assert (Hstopped :
            length (filter (fun t => Detect.VehicleTrack.is_stopped t 2) tracks)
            = length tracks).
  { apply length_filter_all. eapply Forall_impl; [exact Hall |].
    intros t Ht. unfold Detect.VehicleTrack.is_stopped. rewrite Ht.
    apply bool_decide_eq_true. lra. }
  assert (Havg : np_mean (map (fun t => Detect.VehicleTrack.get_avg_speed t 5)
                            tracks) = 0%R).
  { assert (H : (0 <= np_mean (map (fun t => Detect.VehicleTrack.get_avg_speed t 5)
                                 tracks) <= 0)%R).
    { apply np_mean_bounds.
      - destruct tracks; [congruence | discriminate].
      - apply Forall_map. eapply Forall_impl; [exact Hall |].
        intros t Ht. simpl. rewrite Ht. lra. }
    lra. }
  rewrite Hstopped, Havg.
  set (n := length tracks) in *.
  assert (Hn : (50 <= INR n)%R).
  { rewrite INR_IZR_INZ. apply IZR_le. lia. }
  assert (Hd : Rmin (INR n / IZR 50) 1 = 1%R).
  { apply Rmin_right. apply Rmult_le_reg_r with 50%R; [lra |].
    unfold Rdiv. rewrite Rmult_assoc, Rinv_l by lra. lra. }
  assert (Hs : Rmin (0 / 20) 1 = 0%R).
  { replace (0 / 20)%R with 0%R by field. apply Rmin_left. lra. }
  assert (Hq : (INR n / INR n)%R = 1%R) by (field; lra).
  rewrite Hd, Hs, Hq.
  assert (Hscore : (4 / 10 * 1 + 4 / 10 * (1 - 0) + 2 / 10 * 1)%R = 1%R)
    by field.
  rewrite Hscore.
  split; [reflexivity |]. split; [reflexivity |].
  unfold Detect.CongestionDetector.classify_in.
  repeat match goal with
         | |- context [bool_decide ?P] =>
             destruct (bool_decide_reflect P); try lra
         end.
  all: try reflexivity.
Qed.

(** X27, witness: fifty fresh tracks. *)
Lemma X27_detect_saturated_scene_witness :
  exists m : Detect.CongestionMetrics.t,
    Detect.CongestionDetector.analyze
      (Detect.CongestionDetector.init 1920 1080)
      (repeat (Detect.VehicleTrack.init 7 30) 50) 0
    = Ok m /\
    Detect.CongestionMetrics.stopped_count m = 50%nat /\
    Detect.CongestionMetrics.congestion_score m = 1%R /\
    Detect.CongestionMetrics.congestion_level m = FREE_FLOW.
Proof.
  apply (X27_detect_saturated_scene 1920 1080
           (repeat (Detect.VehicleTrack.init 7 30) 50) 0).
  - rewrite repeat_length. lia.
  - apply List.Forall_forall. intros t Ht. apply repeat_spec in Ht. subst t.
    reflexivity.
Defined.

(** ** [detect.py]: tracks *)

Section DetectTrackFacts.

Import Detect.VehicleTrack.

Lemma detect_update_speeds (self : Detect.VehicleTrack.t) (bbox : BBox)
    (frame_idx : Z) (cid : option Z) (cname : option string) :
  speeds (update self bbox frame_idx cid cname) = speeds self \/
  exists speed : R,
    (0 <= speed)%R /\
    speeds (update self bbox frame_idx cid cname)
    = Deque.append (speeds self) speed.
Proof.
  unfold update; cbn [speeds].
  destruct (2 <=? _)%nat; [| now left].
  destruct (rev _) as [| curr [| prev rest]]; [now left | now left |].
  right. eexists. split; [apply sqrt_pos | reflexivity].
Qed.

Lemma detect_update_ok (self : Detect.VehicleTrack.t) (bbox : BBox)
    (frame_idx : Z) (cid : option Z) (cname : option string) :
  detect_track_ok self ->
  detect_track_ok (update self bbox frame_idx cid cname).
Proof.
  unfold detect_track_ok. intros H.
  destruct (detect_update_speeds self bbox frame_idx cid cname)
    as [-> | (speed & Hs & ->)]; [exact H |].
  now apply Forall_deque_append.
Qed.

Lemma detect_update_shape (cap n : nat) (self : Detect.VehicleTrack.t)
    (bbox : BBox) (frame_idx : Z) (cid : option Z) (cname : option string) :
  detect_track_shape cap n self ->
  detect_track_shape cap (S n) (update self bbox frame_idx cid cname).
Proof.
  intros (Hmc & Hmb & Hms & Hlc & Hlb & Hls).
  unfold update. cbn zeta.
  set (cs := Deque.append (centroids self) _).
  assert (Hc : Deque.len cs = Nat.min (S n) cap).
  { subst cs. rewrite deque_append_len by lia. lia. }
  assert (Hb : Deque.len (Deque.append (bboxes self) bbox) = Nat.min (S n) cap).
  { rewrite deque_append_len by lia. lia. }
  assert (Hmcs : Deque.maxlen cs = cap) by exact Hmc.
  unfold detect_track_shape; cbn [centroids bboxes speeds].
  rewrite deque_append_maxlen.
  split; [exact Hmcs |]. split; [exact Hmb |].
  destruct (Nat.leb_spec 2 (Deque.len cs)) as [H2 | H2].
  - destruct (rev (Deque.items cs)) as [| curr [| prev rest]] eqn:Er.
    + apply (f_equal (@length _)) in Er. rewrite length_rev in Er.
      unfold Deque.len in H2. cbn [length] in Er. lia.
    + apply (f_equal (@length _)) in Er. rewrite length_rev in Er.
      unfold Deque.len in H2. cbn [length] in Er. lia.
    + rewrite deque_append_maxlen.
      split; [exact Hms |]. split; [exact Hc |]. split; [exact Hb |].
      rewrite deque_append_len by (rewrite Hls, Hms;
                                   destruct (Nat.ltb_spec cap 2); lia).
      rewrite Hls, Hms. destruct (Nat.ltb_spec cap 2); lia.
  - split; [exact Hms |]. split; [exact Hc |]. split; [exact Hb |].
    rewrite Hls. destruct (Nat.ltb_spec cap 2); lia.
Qed.

Lemma detect_track_fold (cap : nat) (obs : list observation) :
  forall (n : nat) (self : Detect.VehicleTrack.t),
    detect_track_shape cap n self ->
    detect_track_ok self ->
    detect_track_shape cap (n + length obs) (fold_left observe obs self) /\
    detect_track_ok (fold_left observe obs self) /\
    track_id (fold_left observe obs self) = track_id self.
Proof.
  induction obs as [| [[[bbox frame_idx] cid] cname] obs IH];
    intros n self Hshape Hok; simpl.
  - rewrite Nat.add_0_r. auto.
  - replace (n + S (length obs))%nat with (S n + length obs)%nat by lia.
    destruct (IH (S n) (update self bbox frame_idx cid cname))
      as (H1 & H2 & H3).
    + now apply detect_update_shape.
    + now apply detect_update_ok.
    + auto.
Qed.

End DetectTrackFacts.

(** X28.  A [detect.py] track created with bound [max_history] and
    updated once per observation keeps its id, holds
    [min N max_history] centroids and as many boxes, and holds
    [min (N - 1) max_history] speeds (none when the bound is below 2, since
    two centroids are never held together).  No stored speed is negative,
    so [get_avg_speed] is non-negative for every window. *)
Theorem X28_detect_track (track_id : Z) (max_history : nat)
    (obs : list Detect.VehicleTrack.observation) (window : nat) :
  let t := Detect.VehicleTrack.after_updates track_id max_history obs in
  Detect.VehicleTrack.track_id t = track_id /\
  Deque.len (Detect.VehicleTrack.centroids t)
  = Nat.min (length obs) max_history /\
  Deque.len (Detect.VehicleTrack.bboxes t)
  = Nat.min (length obs) max_history /\
  Deque.len (Detect.VehicleTrack.speeds t)
  = (if (max_history <? 2)%nat then 0
     else Nat.min (length obs - 1) max_history)%nat /\
  Forall (fun speed => 0 <= speed)%R
    (Deque.items (Detect.VehicleTrack.speeds t)) /\
  (0 <= Detect.VehicleTrack.get_avg_speed t window)%R.
Proof.
  intros t.
  destruct (detect_track_fold max_history obs 0
              (Detect.VehicleTrack.init track_id max_history))
    as ((_ & _ & _ & Hc & Hb & Hs) & Hok & Hid).
  - unfold detect_track_shape, Deque.len; simpl.
    destruct (max_history <? 2)%nat;
      repeat (split; [reflexivity |]); reflexivity.
  - constructor.
  - fold (Detect.VehicleTrack.after_updates track_id max_history obs) in *.
    fold t in Hc, Hb, Hs, Hok, Hid.
    split; [exact Hid |]. split; [exact Hc |]. split; [exact Hb |].
    split; [exact Hs |]. split; [exact Hok |].
    now apply detect_avg_speed_nonneg.
Qed.

(** ** [detect.py]: the track manager *)

Lemma age_fold_NoDup (detected : gset Z) (limit : nat) (ks : list Z) :
  NoDup ks ->
  forall acc : gmap Z nat * list Z,
    NoDup (snd acc) ->
    (forall k, k ∈ snd acc -> k ∉ ks) ->
    NoDup (snd (fold_left (TrackManager.age_one detected limit) ks acc)).
Proof.
  induction ks as [| k0 ks IH]; intros Hnd [ages rem] Hr Hdisj; simpl;
    [exact Hr |].
  apply NoDup_cons in Hnd as [Hk0 Hnd].
  cbn [snd] in Hr, Hdisj.
  apply (IH Hnd).
  - unfold TrackManager.age_one.
    destruct (decide (k0 ∈ detected)); [exact Hr |]. cbn [snd].
    destruct (limit <? S (default 0 (ages !! k0)))%nat; [| exact Hr].
    apply NoDup_app. split; [exact Hr |]. split; [| apply NoDup_singleton].
    intros x Hx Hx'. apply list_elem_of_singleton in Hx' as ->.
    apply (Hdisj k0 Hx). now left.
  - intros k Hk Hin.
    assert (Hcases : k ∈ rem \/ k = k0).
    { unfold TrackManager.age_one in Hk.
      destruct (decide (k0 ∈ detected)); [now left |]. cbn [snd] in Hk.
      destruct (limit <? S (default 0 (ages !! k0)))%nat; [| now left].
      apply elem_of_app in Hk as [Hk | Hk]; [now left |].
      apply list_elem_of_singleton in Hk. now right. }
    destruct Hcases as [Hk' | ->]; [| contradiction].
    apply (Hdisj k Hk'). now right.
Qed.

Section DetectManagerFacts.

Import Detect.TrackManager.

Lemma detect_keys_spec (self : Detect.TrackManager.t) (k : Z) :
  k ∈ keys self <-> k ∈ dom (tracks self).
Proof.
  unfold keys. rewrite list_elem_of_fmap, elem_of_dom. split.
  - intros ([k' t] & -> & Hin). apply elem_of_map_to_list in Hin. eauto.
  - intros [t Ht]. exists (k, t). split; [reflexivity |].
    now apply elem_of_map_to_list.
Qed.

Lemma detect_keys_NoDup (self : Detect.TrackManager.t) : NoDup (keys self).
Proof. apply NoDup_fst_map_to_list. Qed.

Lemma detect_active_track_inv (self : Detect.TrackManager.t)
    (t : Detect.VehicleTrack.t) :
  t ∈ get_active_tracks self -> exists k, tracks self !! k = Some t.
Proof.
  intros Hin. unfold get_active_tracks in Hin.
  apply list_elem_of_fmap in Hin as ([k t'] & -> & Hin).
  exists k. now apply elem_of_map_to_list.
Qed.

Lemma detect_remove_all_spec (ids : list Z) :
  NoDup ids ->
  forall self : Detect.TrackManager.t,
    dom (track_ages self) = dom (tracks self) ->
    (forall k, k ∈ ids -> k ∈ dom (tracks self)) ->
    exists self',
      remove_all self ids = Ok self' /\
      max_age self' = max_age self /\
      dom (track_ages self') = dom (tracks self') /\
      (forall k, k ∈ ids ->
                 tracks self' !! k = None /\ track_ages self' !! k = None) /\
      (forall k, k ∉ ids ->
                 tracks self' !! k = tracks self !! k /\
                 track_ages self' !! k = track_ages self !! k).
Proof.
  induction ids as [| id ids IH]; intros Hnd self Hdom Hin.
  - exists self. split; [reflexivity |]. split; [reflexivity |].
    split; [exact Hdom |]. split; [| auto].
    intros k Hk. now apply elem_of_nil in Hk.
  - apply NoDup_cons in Hnd as [Hid Hnd].
    assert (Ht : is_Some (tracks self !! id)).
    { apply elem_of_dom, Hin. now left. }
    assert (Ha : is_Some (track_ages self !! id)).
    { apply elem_of_dom. rewrite Hdom. apply Hin. now left. }
    destruct Ht as [t Ht], Ha as [a Ha].
    set (self1 := Detect.TrackManager.mk (max_age self)
                    (delete id (tracks self)) (delete id (track_ages self))).
    destruct (IH Hnd self1) as (self' & Hrm & Hma & Hdom' & Hin' & Hout').
    { cbn. now rewrite !dom_delete_L, Hdom. }
    { intros k Hk. cbn. rewrite dom_delete_L. apply elem_of_difference.
      split; [apply Hin; now right |].
      rewrite elem_of_singleton. intros ->. contradiction. }
    exists self'. split.
    { simpl. unfold remove. rewrite Ht, Ha. exact Hrm. }
    split; [exact Hma |]. split; [exact Hdom' |]. split.
    + intros k Hk.
      destruct (decide (k ∈ ids)) as [Hids | Hids]; [now apply Hin' |].
      apply elem_of_cons in Hk as [-> | Hk]; [| contradiction].
      destruct (Hout' id Hids) as [-> ->]. cbn.
      now rewrite !lookup_delete_eq.
    + intros k Hk. apply not_elem_of_cons in Hk as [Hne Hk].
      destruct (Hout' k Hk) as [-> ->]. cbn.
      now rewrite !lookup_delete_ne by congruence.
Qed.

Lemma detect_detect_ok (frame_idx : Z) (acc : Detect.TrackManager.t * gset Z)
    (d : detection) :
  detect_manager_ok (fst acc) ->
  detect_manager_ok (fst (detect frame_idx acc d)) /\
  max_age (fst (detect frame_idx acc d)) = max_age (fst acc).
Proof.
  destruct acc as [self detected], d as [[[id bbox] cid] cname].
  unfold detect. cbn [fst]. intros (Hdom & Hages & Htr).
  split; [| reflexivity].
  split; [| split]; cbn [tracks track_ages max_age].
  - now rewrite !dom_insert_L, Hdom.
  - intros k age. destruct (decide (k = id)) as [-> | Hne].
    + rewrite lookup_insert_eq. intros [= <-]. lia.
    + rewrite lookup_insert_ne by congruence. apply Hages.
  - intros k track. destruct (decide (k = id)) as [-> | Hne].
    + rewrite lookup_insert_eq. intros [= <-].
      destruct (tracks self !! id) as [t |] eqn:E.
      * destruct (Htr id t E) as [Hid Hok].
        split; [exact Hid | now apply detect_update_ok].
      * split; [reflexivity |]. apply detect_update_ok. constructor.
    + rewrite lookup_insert_ne by congruence. apply Htr.
Qed.

Lemma detect_fold_ok (frame_idx : Z) (detections : list detection) :
  forall acc : Detect.TrackManager.t * gset Z,
    detect_manager_ok (fst acc) ->
    detect_manager_ok (fst (fold_left (detect frame_idx) detections acc)) /\
    max_age (fst (fold_left (detect frame_idx) detections acc))
    = max_age (fst acc).
Proof.
  induction detections as [| d detections IH]; intros acc Hok; simpl;
    [auto |].
  destruct (detect_detect_ok frame_idx acc d Hok) as [Hok1 Hma1].
  destruct (IH _ Hok1) as [Hok' Hma'].
  split; [exact Hok' | congruence].
Qed.

Lemma detect_update_manager_ok (self : Detect.TrackManager.t)
    (detections : list detection) (frame_idx : Z) :
  detect_manager_ok self ->
  exists self',
    update self detections frame_idx = Ok self' /\
    detect_manager_ok self' /\
    max_age self' = max_age self.
Proof.
  intros Hok. unfold update.
  destruct (detect_fold_ok frame_idx detections (self, ∅) Hok)
    as [(Hdom1 & Hages1 & Htr1) Hma1].
  destruct (fold_left (detect frame_idx) detections (self, ∅))
    as [self1 detected] eqn:E1.
  cbn [fst] in Hdom1, Hages1, Htr1, Hma1.
  change (fold_left (Detect.age_one detected (max_age self1)) (keys self1)
            (track_ages self1, []))
    with (fold_left (TrackManager.age_one detected (max_age self1))
            (keys self1) (track_ages self1, [])).
  pose proof (age_fold_spec detected (max_age self1) (keys self1)
                (detect_keys_NoDup self1) (track_ages self1, [])) as Hage.
  pose proof (age_fold_dom detected (max_age self1) (keys self1)
                (track_ages self1) (detect_keys_NoDup self1)) as Hagedom.
  pose proof (age_fold_NoDup detected (max_age self1) (keys self1)
                (detect_keys_NoDup self1) (track_ages self1, [])) as Hnd.
  destruct (fold_left (TrackManager.age_one detected (max_age self1))
              (keys self1) (track_ages self1, [])) as [ages to_remove] eqn:E2.
  cbn [fst snd] in Hage, Hagedom, Hnd.
  assert (Hdom2 : dom ages = dom (tracks self1)).
  { rewrite Hagedom; [exact Hdom1 |].
    intros k Hk. rewrite Hdom1. now apply detect_keys_spec. }
  assert (Hnd' : NoDup to_remove).
  { apply Hnd; [apply NoDup_nil_2 |].
    intros k Hk. now apply elem_of_nil in Hk. }
  set (self2 := Detect.TrackManager.mk (max_age self1) (tracks self1) ages).
  destruct (detect_remove_all_spec to_remove Hnd' self2 Hdom2)
    as (self' & Hrm & Hma' & Hdom' & Hin' & Hout').
  { intros k Hk. destruct (Hage k) as (_ & _ & Hrem).
    apply Hrem in Hk as [Hk | (Hk & _)]; [now apply elem_of_nil in Hk |].
    now apply detect_keys_spec. }
  exists self'. split; [exact Hrm |].
  split; [| cbn in Hma'; congruence].
  split; [exact Hdom' |]. split.
  - intros k age Hk. rewrite Hma'. cbn [max_age self2].
    destruct (decide (k ∈ to_remove)) as [Hr | Hr].
    { destruct (Hin' k Hr) as [_ Hnone]. congruence. }
    destruct (Hout' k Hr) as [_ Hsame]. rewrite Hsame in Hk. cbn in Hk.
    destruct (Hage k) as (Haged & Hkept & Hrem). cbn [fst snd] in *.
    destruct (decide (k ∈ keys self1 /\ k ∉ detected)) as [[Hkey Hdet] | Hno].
    + rewrite (Haged Hkey Hdet) in Hk. injection Hk as <-.
      destruct (Nat.le_gt_cases (S (default 0 (track_ages self1 !! k)))
                  (max_age self1)) as [Hle | Hgt]; [exact Hle |].
      exfalso. apply Hr, Hrem. right. auto.
    + rewrite Hkept in Hk; [now apply (Hages1 k) |].
      destruct (decide (k ∈ keys self1)) as [Hkey | Hkey]; [| now left].
      right. destruct (decide (k ∈ detected)) as [Hdet | Hdet]; [exact Hdet |].
      exfalso. apply Hno. auto.
  - intros k track Hk.
    destruct (decide (k ∈ to_remove)) as [Hr | Hr].
    { destruct (Hin' k Hr) as [Hnone _]. congruence. }
    destruct (Hout' k Hr) as [Hsame _]. rewrite Hsame in Hk.
    now apply (Htr1 k).
Qed.

Lemma detect_updates_ok (frames : list (list detection * Z)) :
  forall self : Detect.TrackManager.t,
    detect_manager_ok self ->
    exists self',
      updates self frames = Ok self' /\
      detect_manager_ok self' /\
      max_age self' = max_age self.
Proof.
  induction frames as [| [detections frame_idx] frames IH]; intros self Hok.
  - exists self. auto.
  - destruct (detect_update_manager_ok self detections frame_idx Hok)
      as (self1 & Hup & Hok1 & Hma1).
    destruct (IH self1 Hok1) as (self' & Hups & Hok' & Hma').
    exists self'. split; [| split; [exact Hok' | congruence]].
    simpl. rewrite Hup. exact Hups.
Qed.

Lemma detect_init_ok (max_age : nat) :
  detect_manager_ok (Detect.TrackManager.init max_age).
Proof.
  split; [| split]; cbn.
  - now rewrite !dom_empty_L.
  - intros k age H. now rewrite lookup_empty in H.
  - intros k track H. now rewrite lookup_empty in H.
Qed.

End DetectManagerFacts.

(** X29.  A [detect.py] manager made by its constructor and driven
    through any run of [update] calls never raises [KeyError] in its
    removal loop.  Afterwards [track_ages] has exactly the keys of
    [tracks], no age is above [max_age], and every track is stored under
    its own id and holds no negative speed. *)
Theorem X29_detect_manager (max_age : nat)
    (frames : list (list Detect.TrackManager.detection * Z)) :
  exists self : Detect.TrackManager.t,
    Detect.TrackManager.updates (Detect.TrackManager.init max_age) frames
    = Ok self /\
    Detect.TrackManager.max_age self = max_age /\
    dom (Detect.TrackManager.track_ages self)
    = dom (Detect.TrackManager.tracks self) /\
    (forall k age,
       Detect.TrackManager.track_ages self !! k = Some age ->
       (age <= max_age)%nat) /\
    (forall k track,
       Detect.TrackManager.tracks self !! k = Some track ->
       Detect.VehicleTrack.track_id track = k /\
       Forall (fun speed => 0 <= speed)%R
         (Deque.items (Detect.VehicleTrack.speeds track))).
Proof.
  destruct (detect_updates_ok frames (Detect.TrackManager.init max_age)
              (detect_init_ok max_age))
    as (self & Hup & (Hdom & Hages & Htr) & Hma).
  cbn in Hma.
  exists self. split; [exact Hup |]. split; [exact Hma |].
  split; [exact Hdom |]. split; [| exact Htr].
  intros k age Hk. rewrite <- Hma. now apply (Hages k).
Qed.

(** X30.  The pipeline of [detect.py]: after any run of [update] calls on
    a fresh manager, [analyze] on [get_active_tracks()] returns a snapshot
    that counts the tracked vehicles, with a non-negative average speed,
    an occupancy in [0, 1] and a congestion score in [0, 1]. *)
Theorem X30_detect_pipeline (max_age : nat)
    (frames : list (list Detect.TrackManager.detection * Z))
    (roi_width roi_height frame_idx : Z) :
  exists (self : Detect.TrackManager.t) (m : Detect.CongestionMetrics.t),
    Detect.TrackManager.updates (Detect.TrackManager.init max_age) frames
    = Ok self /\
    Detect.CongestionDetector.analyze
      (Detect.CongestionDetector.init roi_width roi_height)
      (Detect.TrackManager.get_active_tracks self) frame_idx
    = Ok m /\
    Detect.CongestionMetrics.vehicle_count m
    = size (Detect.TrackManager.tracks self) /\
    (0 <= Detect.CongestionMetrics.average_speed m)%R /\
    (0 <= Detect.CongestionMetrics.occupancy_ratio m <= 1)%R /\
    (0 <= Detect.CongestionMetrics.congestion_score m <= 1)%R.
Proof.
  destruct (detect_updates_ok frames (Detect.TrackManager.init max_age)
              (detect_init_ok max_age))
    as (self & Hup & (_ & _ & Htr) & _).
  destruct (detect_analyze_bounds roi_width roi_height
              (Detect.TrackManager.get_active_tracks self) frame_idx)
    as (m & Hm & _ & Hcount & _ & Hocc & Hscore & Hrest).
  destruct Hrest as [Havg Hle].
  { apply Forall_forall. intros t Ht.
    apply detect_active_track_inv in Ht as [k Hk].
    now apply (Htr k). }
  exists self, m. split; [exact Hup |]. split; [exact Hm |].
  split.
  { rewrite Hcount. unfold Detect.TrackManager.get_active_tracks.
    rewrite length_fmap. apply length_map_to_list. }
  split; [exact Havg |]. split; [exact Hocc |]. lra.
Qed.
